(** * Booking / payment consistency core of the healthcare server

    A shallow embedding of the appointment service
    (appointment.service.ts), the Stripe webhook controller
    (payment.controller.ts), the webhook service it calls, the global
    error handler and the schedule generator (schedule.service.ts),
    together with the properties the design document states about them.

    Conventions.
    - A Prisma table is the list of its rows in insertion order.
    - UUIDs (row ids, [videoCallingId], [transactionId]) are drawn from a
      counter [uuidNext] that never repeats a value.
    - Instants ([Date], [DateTime]) are integers: milliseconds since the
      epoch.
    - Every service function is an action of the monad [M]: it reads and
      writes a [World] (database, sessions the gateway has issued, uuid
      counter, console) and returns a value or throws. *)

From Stdlib Require Import ZArith List String Ascii Bool Arith Lia.
Import ListNotations.

Set Implicit Arguments.

(** ** Data model (Prisma schema) *)

Inductive AppointmentStatus := SCHEDULED | COMPLETED | CANCELED.
Inductive PaymentStatus := PAID | UNPAID.

Definition AppointmentStatus_eqb (a b : AppointmentStatus) : bool :=
  match a, b with
  | SCHEDULED, SCHEDULED | COMPLETED, COMPLETED | CANCELED, CANCELED => true
  | _, _ => false
  end.

Definition PaymentStatus_eqb (a b : PaymentStatus) : bool :=
  match a, b with
  | PAID, PAID | UNPAID, UNPAID => true
  | _, _ => false
  end.

Record Patient := {
  patient_id : nat;
  patient_email : string
}.

Record Doctor := {
  doctor_id : nat;
  doctor_name : string;
  doctor_email : string;
  appointmentFee : Z;
  isDeleted : bool
}.

Record Schedule := {
  schedule_id : nat;
  startDateTime : Z;
  endDateTime : Z
}.

Record DoctorSchedules := {
  ds_doctorId : nat;
  ds_scheduleId : nat;
  isBooked : bool
}.

Record Appointment := {
  appt_id : nat;
  patientId : nat;
  doctorId : nat;
  scheduleId : nat;          (* @unique *)
  videoCallingId : nat;
  status : AppointmentStatus;        (* @default(SCHEDULED) *)
  paymentStatus : PaymentStatus;     (* @default(UNPAID) *)
  createdAt : Z;
  updatedAt : Z
}.

(** The correlation metadata of a checkout session, and the object a
    gateway event carries ([event.data.object]). *)
Record Metadata := {
  md_appointmentId : option nat;
  md_paymentId : option nat
}.

Record StripeObject := {
  metadata : option Metadata;
  raw : string
}.

Record Payment := {
  pay_id : nat;
  appointmentId : nat;               (* @unique *)
  amount : Z;
  transactionId : nat;               (* @unique *)
  pay_status : PaymentStatus;        (* @default(UNPAID) *)
  paymentGatewayData : option StripeObject;
  stripeEventId : option string;     (* @unique *)
  pay_createdAt : Z;
  pay_updatedAt : Z
}.

Record DB := {
  patient : list Patient;
  doctor : list Doctor;
  schedule : list Schedule;
  doctorSchedules : list DoctorSchedules;
  appointment : list Appointment;
  payment : list Payment
}.

(** ** The payment gateway as seen from the server *)

Record SessionParams := {
  customer_email : string;
  product_name : string;
  unit_amount : Z;
  sp_appointmentId : nat;
  sp_paymentId : nat
}.

Record Event := {
  ev_id : string;
  ev_type : string;
  ev_object : StripeObject
}.

(** ** World, errors and the service monad *)

Record World := {
  db : DB;
  stripeSessions : list SessionParams;   (* sessions the gateway issued *)
  uuidNext : nat;
  console : list string
}.

Inductive Error :=
| NotFoundError (model : string)           (* Prisma P2025 *)
| UniqueConstraintError (target : string)  (* Prisma P2002 *)
| ValidationError (message : string)       (* PrismaClientValidationError *)
| ApiError (statusCode : nat) (message : string)
| StripeError
| TypeError (message : string)
| FuelExhausted.

Inductive Result (A : Type) :=
| Ok (a : A)
| Err (e : Error).
Arguments Ok {A} a.
Arguments Err {A} e.

Definition M (A : Type) : Type := World -> World * Result A.

Definition ret {A} (a : A) : M A := fun w => (w, Ok a).

Definition bind {A B} (m : M A) (k : A -> M B) : M B :=
  fun w =>
    match m w with
    | (w', Ok a) => k a w'
    | (w', Err e) => (w', Err e)
    end.

Definition throw {A} (e : Error) : M A := fun w => (w, Err e).

Notation "x <- m ;; k" := (bind m (fun x => k))
  (at level 61, m at next level, right associativity).
Notation "m ;;; k" := (bind m (fun _ => k))
  (at level 61, right associativity).

Definition set_db (d : DB) (w : World) : World :=
  {| db := d; stripeSessions := stripeSessions w;
     uuidNext := uuidNext w; console := console w |}.

Definition getDB : M DB := fun w => (w, Ok (db w)).
Definition putDB (d : DB) : M unit := fun w => (set_db d w, Ok tt).

(** [prisma.$transaction(async tx => ...)]: the writes of the callback
    reach the database only when it returns; when it throws the
    database is restored.  What happened outside the database (a
    session issued by the gateway, uuids drawn, console lines) stays. *)
Definition transaction {A} (body : M A) : M A :=
  fun w =>
    match body w with
    | (w', Ok a) => (w', Ok a)
    | (w', Err e) => (set_db (db w) w', Err e)
    end.

Definition uuidv4 : M nat :=
  fun w =>
    ({| db := db w; stripeSessions := stripeSessions w;
        uuidNext := S (uuidNext w); console := console w |},
     Ok (uuidNext w)).

Definition console_log (line : string) : M unit :=
  fun w =>
    ({| db := db w; stripeSessions := stripeSessions w;
        uuidNext := uuidNext w; console := console w ++ [line] |},
     Ok tt).

(** ** Prisma client operations used by the services *)

Definition set_schedule (t : list Schedule) (d : DB) : DB :=
  {| patient := patient d; doctor := doctor d; schedule := t;
     doctorSchedules := doctorSchedules d; appointment := appointment d;
     payment := payment d |}.

Definition set_doctorSchedules (t : list DoctorSchedules) (d : DB) : DB :=
  {| patient := patient d; doctor := doctor d; schedule := schedule d;
     doctorSchedules := t; appointment := appointment d;
     payment := payment d |}.

Definition set_appointment (t : list Appointment) (d : DB) : DB :=
  {| patient := patient d; doctor := doctor d; schedule := schedule d;
     doctorSchedules := doctorSchedules d; appointment := t;
     payment := payment d |}.

Definition set_payment (t : list Payment) (d : DB) : DB :=
  {| patient := patient d; doctor := doctor d; schedule := schedule d;
     doctorSchedules := doctorSchedules d; appointment := appointment d;
     payment := t |}.

(** [findFirst] / [findUnique]: the first row that satisfies [where]. *)
Definition findFirst {R} (table : DB -> list R) (where_ : R -> bool)
  : M (option R) :=
  fun w => (w, Ok (find where_ (table (db w)))).

(** [findFirstOrThrow] / [findUniqueOrThrow]. *)
Definition findFirstOrThrow {R} (table : DB -> list R) (model : string)
    (where_ : R -> bool) : M R :=
  r <- findFirst table where_ ;;
  match r with
  | Some row => ret row
  | None => throw (NotFoundError model)
  end.

(** [findMany]. *)
Definition findMany {R} (table : DB -> list R) (where_ : R -> bool)
  : M (list R) :=
  fun w => (w, Ok (filter where_ (table (db w)))).

Definition inb (n : nat) (l : list nat) : bool := existsb (Nat.eqb n) l.

Definition option_string_eqb (a : option string) (b : string) : bool :=
  match a with
  | Some s => String.eqb s b
  | None => false
  end.

(** [tx.appointment.create]: the id defaults to a uuid, [status] to
    SCHEDULED and [paymentStatus] to UNPAID; [scheduleId] is @unique. *)
Definition appointment_create (now : Z)
    (patient_ doctor_ schedule_ videoCalling : nat) : M Appointment :=
  id <- uuidv4 ;;
  d <- getDB ;;
  if existsb (fun a => Nat.eqb (scheduleId a) schedule_) (appointment d)
  then throw (UniqueConstraintError "scheduleId")
  else
    let row := {| appt_id := id; patientId := patient_; doctorId := doctor_;
                  scheduleId := schedule_; videoCallingId := videoCalling;
                  status := SCHEDULED; paymentStatus := UNPAID;
                  createdAt := now; updatedAt := now |} in
    putDB (set_appointment (appointment d ++ [row]) d) ;;;
    ret row.

Definition set_status (st : AppointmentStatus) (now : Z) (a : Appointment)
  : Appointment :=
  {| appt_id := appt_id a; patientId := patientId a; doctorId := doctorId a;
     scheduleId := scheduleId a; videoCallingId := videoCallingId a;
     status := st; paymentStatus := paymentStatus a;
     createdAt := createdAt a; updatedAt := now |}.

Definition set_paymentStatus (ps : PaymentStatus) (now : Z) (a : Appointment)
  : Appointment :=
  {| appt_id := appt_id a; patientId := patientId a; doctorId := doctorId a;
     scheduleId := scheduleId a; videoCallingId := videoCallingId a;
     status := status a; paymentStatus := ps;
     createdAt := createdAt a; updatedAt := now |}.

(** [appointment.update({ where: { id }, data })]: throws when no row
    has the id. *)
Definition appointment_update (id : nat) (data : Appointment -> Appointment)
  : M unit :=
  d <- getDB ;;
  if existsb (fun a => Nat.eqb (appt_id a) id) (appointment d)
  then putDB (set_appointment
                (map (fun a => if Nat.eqb (appt_id a) id then data a else a)
                     (appointment d)) d)
  else throw (NotFoundError "Appointment").

(** [appointment.updateMany({ where: { id: { in: ids } }, data })]. *)
Definition appointment_updateMany (ids : list nat)
    (data : Appointment -> Appointment) : M unit :=
  d <- getDB ;;
  putDB (set_appointment
           (map (fun a => if inb (appt_id a) ids then data a else a)
                (appointment d)) d).

Definition set_isBooked (b : bool) (r : DoctorSchedules) : DoctorSchedules :=
  {| ds_doctorId := ds_doctorId r; ds_scheduleId := ds_scheduleId r;
     isBooked := b |}.

Definition same_binding (doctor_ schedule_ : nat) (r : DoctorSchedules)
  : bool :=
  Nat.eqb (ds_doctorId r) doctor_ && Nat.eqb (ds_scheduleId r) schedule_.

(** [doctorSchedules.update({ where: { doctorId_scheduleId }, data:
    { isBooked } })]: throws when the binding does not exist. *)
Definition doctorSchedules_update (doctor_ schedule_ : nat) (b : bool)
  : M unit :=
  d <- getDB ;;
  if existsb (same_binding doctor_ schedule_) (doctorSchedules d)
  then putDB (set_doctorSchedules
                (map (fun r => if same_binding doctor_ schedule_ r
                               then set_isBooked b r else r)
                     (doctorSchedules d)) d)
  else throw (NotFoundError "DoctorSchedules").

(** [tx.payment.create]: [appointmentId] and [transactionId] are
    @unique, [status] defaults to UNPAID. *)
Definition payment_create (now : Z) (appointment_ : nat) (amount_ : Z)
    (transaction_ : nat) : M Payment :=
  id <- uuidv4 ;;
  d <- getDB ;;
  if existsb (fun p => Nat.eqb (appointmentId p) appointment_) (payment d)
  then throw (UniqueConstraintError "appointmentId")
  else if existsb (fun p => Nat.eqb (transactionId p) transaction_) (payment d)
  then throw (UniqueConstraintError "transactionId")
  else
    let row := {| pay_id := id; appointmentId := appointment_;
                  amount := amount_; transactionId := transaction_;
                  pay_status := UNPAID; paymentGatewayData := None;
                  stripeEventId := None;
                  pay_createdAt := now; pay_updatedAt := now |} in
    putDB (set_payment (payment d ++ [row]) d) ;;;
    ret row.

Definition set_paid (session : StripeObject) (event_id : string) (now : Z)
    (p : Payment) : Payment :=
  {| pay_id := pay_id p; appointmentId := appointmentId p;
     amount := amount p; transactionId := transactionId p;
     pay_status := PAID; paymentGatewayData := Some session;
     stripeEventId := Some event_id;
     pay_createdAt := pay_createdAt p; pay_updatedAt := now |}.

(** [tx.payment.update({ where: { id }, data: { status,
    paymentGatewayData, stripeEventId } })]: throws when no row has the
    id, and when another row already holds the (unique) event id. *)
Definition payment_update_paid (id : nat) (session : StripeObject)
    (event_id : string) (now : Z) : M unit :=
  d <- getDB ;;
  if existsb (fun p => Nat.eqb (pay_id p) id) (payment d)
  then
    if existsb (fun p => negb (Nat.eqb (pay_id p) id)
                         && option_string_eqb (stripeEventId p) event_id)
               (payment d)
    then throw (UniqueConstraintError "stripeEventId")
    else putDB (set_payment
                  (map (fun p => if Nat.eqb (pay_id p) id
                                 then set_paid session event_id now p else p)
                       (payment d)) d)
  else throw (NotFoundError "Payment").

(** [payment.deleteMany({ where: { appointmentId: { in: ids } } })]. *)
Definition payment_deleteMany (ids : list nat) : M unit :=
  d <- getDB ;;
  putDB (set_payment
           (filter (fun p => negb (inb (appointmentId p) ids)) (payment d)) d).

(** [stripe.checkout.sessions.create]: the gateway is an oracle that
    either issues a session (and answers its url) or fails. *)
Definition stripe_checkout_sessions_create
    (stripe : SessionParams -> option string) (params : SessionParams)
  : M string :=
  fun w =>
    match stripe params with
    | Some url =>
        ({| db := db w; stripeSessions := stripeSessions w ++ [params];
            uuidNext := uuidNext w; console := console w |}, Ok url)
    | None => (w, Err StripeError)
    end.

(** ** appointment.service.ts *)

Inductive UserRole := SUPER_ADMIN | ADMIN | DOCTOR | PATIENT.

Record IAuthUser := {
  email : string;
  role : UserRole
}.

Record BookingPayload := {
  payload_doctorId : nat;
  payload_scheduleId : nat
}.

(** The parameters of the checkout session: the caller's e-mail, one
    line item priced [fee * 100], and the two ids as metadata. *)
Definition session_for (user : IAuthUser) (doctorName : string)
    (fee : Z) (appointment_ payment_ : nat) : SessionParams :=
  {| customer_email := email user;
     product_name := ("Appointment with " ++ doctorName)%string;
     unit_amount := (fee * 100)%Z;
     sp_appointmentId := appointment_;
     sp_paymentId := payment_ |}.

(** The callback handed to [prisma.$transaction] by [createAppointment]. *)
Definition createAppointment_tx (stripe : SessionParams -> option string)
    (now : Z) (user : IAuthUser) (payload : BookingPayload)
    (patientData : Patient) (doctorData : Doctor) (videoCalling : nat)
  : M string :=
  appointmentData <- appointment_create now (patient_id patientData)
                       (doctor_id doctorData) (payload_scheduleId payload)
                       videoCalling ;;
  doctorSchedules_update (doctor_id doctorData) (payload_scheduleId payload)
                         true ;;;
  transaction_ <- uuidv4 ;;
  paymentData <- payment_create now (appt_id appointmentData)
                   (appointmentFee doctorData) transaction_ ;;
  paymentUrl <- stripe_checkout_sessions_create stripe
                  (session_for user (doctor_name doctorData)
                     (appointmentFee doctorData)
                     (appt_id appointmentData) (pay_id paymentData)) ;;
  ret paymentUrl.

(** The three look-ups that both booking functions begin with, before
    their transaction: the patient by e-mail, the doctor by id (not
    deleted), and a row of the binding with [isBooked = false]. *)
Definition bookingPreconditions (user : IAuthUser) (payload : BookingPayload)
  : M (Patient * Doctor) :=
  patientData <- findFirstOrThrow patient "Patient"
                   (fun p => String.eqb (patient_email p) (email user)) ;;
  doctorData <- findFirstOrThrow doctor "Doctor"
                  (fun d => Nat.eqb (doctor_id d) (payload_doctorId payload)
                            && negb (isDeleted d)) ;;
  findFirstOrThrow doctorSchedules "DoctorSchedules"
    (fun r => Nat.eqb (ds_doctorId r) (doctor_id doctorData)
              && Nat.eqb (ds_scheduleId r) (payload_scheduleId payload)
              && negb (isBooked r)) ;;;
  ret (patientData, doctorData).

Definition createAppointment (stripe : SessionParams -> option string)
    (now : Z) (user : IAuthUser) (payload : BookingPayload) : M string :=
  found <- bookingPreconditions user payload ;;
  let '(patientData, doctorData) := found in
  videoCalling <- uuidv4 ;;
  transaction
    (createAppointment_tx stripe now user payload patientData doctorData
                          videoCalling).

(** The callback handed to [prisma.$transaction] by
    [createAppointmentWithPayLater]. *)
Definition createAppointmentWithPayLater_tx (now : Z)
    (payload : BookingPayload) (patientData : Patient) (doctorData : Doctor)
    (videoCalling : nat) : M Appointment :=
  appointmentData <- appointment_create now (patient_id patientData)
                       (doctor_id doctorData) (payload_scheduleId payload)
                       videoCalling ;;
  doctorSchedules_update (doctor_id doctorData) (payload_scheduleId payload)
                         true ;;;
  transaction_ <- uuidv4 ;;
  payment_create now (appt_id appointmentData) (appointmentFee doctorData)
                 transaction_ ;;;
  ret appointmentData.

Definition createAppointmentWithPayLater (now : Z) (user : IAuthUser)
    (payload : BookingPayload) : M Appointment :=
  found <- bookingPreconditions user payload ;;
  let '(patientData, doctorData) := found in
  videoCalling <- uuidv4 ;;
  transaction
    (createAppointmentWithPayLater_tx now payload patientData doctorData
                                      videoCalling).

Definition isUNPAID (ps : PaymentStatus) : bool := PaymentStatus_eqb ps UNPAID.

(** The [where] of the sweep's [findMany]: [createdAt <= thirtyMinAgo]
    and [paymentStatus = UNPAID]. *)
Definition stale (now : Z) (a : Appointment) : bool :=
  (createdAt a <=? now - 30 * 60 * 1000)%Z && isUNPAID (paymentStatus a).

(** The [for ... of] loop that frees the doctor schedules. *)
Fixpoint releaseSchedules (l : list Appointment) : M unit :=
  match l with
  | [] => ret tt
  | unPaidAppointment :: rest =>
      doctorSchedules_update (doctorId unPaidAppointment)
                             (scheduleId unPaidAppointment) false ;;;
      releaseSchedules rest
  end.

(** The callback handed to [prisma.$transaction] by
    [cancelUnpaidAppointments]; it works on the rows selected before the
    transaction began. *)
Definition cancelUnpaidAppointments_tx (now : Z)
    (unPaidAppointments : list Appointment) : M unit :=
  let appointmentIdsToCancel := map appt_id unPaidAppointments in
  appointment_updateMany appointmentIdsToCancel (set_status CANCELED now) ;;;
  payment_deleteMany appointmentIdsToCancel ;;;
  releaseSchedules unPaidAppointments.

Definition cancelUnpaidAppointments (now : Z) : M unit :=
  unPaidAppointments <- findMany appointment (stale now) ;;
  transaction (cancelUnpaidAppointments_tx now unPaidAppointments).

(** [appointment.findUnique({ where: { id, patientId }, include:
    { payment: true, doctor: true } })]. *)
Definition appointment_findUnique_include (id patient_ : nat)
  : M (option (Appointment * option Payment * option Doctor)) :=
  found <- findFirst appointment
             (fun a => Nat.eqb (appt_id a) id
                       && Nat.eqb (patientId a) patient_) ;;
  match found with
  | None => ret None
  | Some a =>
      pay <- findFirst payment
               (fun p => Nat.eqb (appointmentId p) (appt_id a)) ;;
      doc <- findFirst doctor
               (fun d => Nat.eqb (doctor_id d) (doctorId a)) ;;
      ret (Some (a, pay, doc))
  end.

Definition initiatePaymentForAppointment
    (stripe : SessionParams -> option string) (appointment_ : nat)
    (user : IAuthUser) : M string :=
  patientData <- findFirstOrThrow patient "Patient"
                   (fun p => String.eqb (patient_email p) (email user)) ;;
  found <- appointment_findUnique_include appointment_
             (patient_id patientData) ;;
  match found with
  | None => throw (ApiError 400 "Appointment not found or unauthorized")
  | Some (a, pay, doc) =>
      if negb (isUNPAID (paymentStatus a))
      then throw (ApiError 400
                    "Payment already completed for this appointment")
      else if AppointmentStatus_eqb (status a) CANCELED
      then throw (ApiError 400 "Cannot pay for cancelled appointment")
      else
        match doc, pay with
        | Some d, Some p =>
            paymentUrl <- stripe_checkout_sessions_create stripe
                            (session_for user (doctor_name d) (amount p)
                                         (appt_id a) (pay_id p)) ;;
            ret paymentUrl
        | None, _ =>
            throw (TypeError
                     "Cannot read properties of null (reading 'name')")
        | Some _, None =>
            throw (TypeError
                     "Cannot read properties of null (reading 'amount')")
        end
  end.

Definition UserRole_eqb (a b : UserRole) : bool :=
  match a, b with
  | SUPER_ADMIN, SUPER_ADMIN | ADMIN, ADMIN
  | DOCTOR, DOCTOR | PATIENT, PATIENT => true
  | _, _ => false
  end.

Definition updateAppointmentStatus (now : Z) (appointment_ : nat)
    (st : AppointmentStatus) (user : IAuthUser) : M unit :=
  appointmentData <- findFirstOrThrow appointment "Appointment"
                       (fun a => Nat.eqb (appt_id a) appointment_) ;;
  doc <- findFirst doctor
           (fun d => Nat.eqb (doctor_id d) (doctorId appointmentData)) ;;
  (if UserRole_eqb (role user) DOCTOR
   then match doc with
        | Some d =>
            if negb (String.eqb (email user) (doctor_email d))
            then throw (ApiError 400 "This is not your appointment")
            else ret tt
        | None =>
            throw (TypeError
                     "Cannot read properties of null (reading 'email')")
        end
   else ret tt) ;;;
  appointment_update appointment_ (set_status st now).

(** ** payment.service.ts *)

(** Modelled from the spec: the body of
    [PaymentService.handleStripeWebhookEvent] (payment.service.ts) is
    missing from the sources; only its caller, the controller, is there.
    The steps follow section 4.4 of the design document (idempotency
    gate, correlation metadata, appointment lookup, dispatch by event
    kind) and each step is written as the migration guide quotes it:
    the [findFirst] on [stripeEventId], the early returns with their
    messages, and the transaction that updates the appointment and the
    payment together. *)
Definition handleStripeWebhookEvent (now : Z) (event : Event) : M string :=
  existingPayment <- findFirst payment
                       (fun p => option_string_eqb (stripeEventId p)
                                                   (ev_id event)) ;;
  match existingPayment with
  | Some _ =>
      console_log "Event already processed. Skipping." ;;;
      ret "Event already processed"%string
  | None =>
      let session := ev_object event in
      match metadata session with
      | Some {| md_appointmentId := Some appointment_;
                md_paymentId := Some payment_ |} =>
          found <- findFirst appointment
                     (fun a => Nat.eqb (appt_id a) appointment_) ;;
          match found with
          | None =>
              console_log "Appointment not found" ;;;
              ret "Appointment not found"%string
          | Some _ =>
              if String.eqb (ev_type event) "checkout.session.completed"
              then
                transaction
                  (appointment_update appointment_
                                      (set_paymentStatus PAID now) ;;;
                   payment_update_paid payment_ session (ev_id event) now) ;;;
                ret "Payment completed"%string
              else if String.eqb (ev_type event) "checkout.session.expired"
              then ret "Session expired"%string
              else if String.eqb (ev_type event)
                                 "payment_intent.payment_failed"
              then ret "Payment failed"%string
              else ret "Unhandled event type"%string
          end
      | _ =>
          console_log "Missing metadata in webhook event" ;;;
          ret "Missing metadata"%string
      end
  end.

(** ** payment.controller.ts *)

Record Request := {
  stripe_signature : string;    (* req.headers["stripe-signature"] *)
  body : string                 (* the raw request body *)
}.

(** The JSON answer that [sendResponse] and the error handler send:
    the HTTP status with the [success] and [message] members of the
    body. *)
Record Response := {
  res_statusCode : nat;
  res_success : bool;
  res_message : string
}.

(** What a controller sends: a JSON answer, or a plain text by
    [res.status(statusCode).send(text)]. *)
Inductive Reply :=
| Json (r : Response)
| Text (statusCode : nat) (text : string).

(** [try { ... } catch (error) { ... }]: the handler runs in the world
    the body left behind. *)
Definition try_catch {A} (body : M A) (handler : Error -> M A) : M A :=
  fun w =>
    match body w with
    | (w', Ok a) => (w', Ok a)
    | (w', Err e) => handler e w'
    end.

(** [!webhookSecret]: an undefined or empty secret is falsy. *)
Definition configured (secret : option string) : option string :=
  match secret with
  | Some EmptyString => None
  | other => other
  end.

(** The controller.  [webhookSecret] is [config.stripeWebhookSecret]
    ([None] when it is not configured), [constructEvent] is
    [stripe.webhooks.constructEvent] (the event, or [err.message] when
    it throws) and [service] is
    [PaymentService.handleStripeWebhookEvent]. *)
Definition PaymentController_handleStripeWebhookEvent
    (webhookSecret : option string)
    (constructEvent : string -> string -> string -> Event + string)
    (service : Event -> M string)
    (req : Request) : M Reply :=
  let sig := stripe_signature req in
  match configured webhookSecret with
  | None =>
      console_log "Stripe webhook secret not configured" ;;;
      ret (Text 500 "Webhook secret not configured")
  | Some secret =>
      match constructEvent (body req) sig secret with
      | inr message =>
          console_log "Webhook signature verification failed" ;;;
          ret (Text 400 ("Webhook Error: " ++ message))
      | inl event =>
          try_catch
            (result <- service event ;;
             ret (Json {| res_statusCode := 200; res_success := true;
                          res_message :=
                            "Webhook processed successfully" |}))
            (fun error =>
               console_log "Error processing webhook" ;;;
               ret (Json {| res_statusCode := 200; res_success := true;
                            res_message :=
                              "Webhook received but processing failed" |}))
      end
  end.

(** ** globalErrorHandler.ts *)

Definition INTERNAL_SERVER_ERROR : nat := 500.
Definition CONFLICT : nat := 409.

Section ErrorHandler.

(** [err.message] of an error that a library throws (the Prisma client
    for P2025 and P2002, the Stripe client): a text this development
    does not fix. *)
Variable libraryMessage : Error -> string.

(** [err.message]. *)
Definition error_message (err : Error) : string :=
  match err with
  | ApiError _ message => message
  | TypeError message => message
  | ValidationError message => message
  | FuelExhausted => ""
  | thrownByLibrary => libraryMessage thrownByLibrary
  end.

Definition globalErrorHandler (err : Error) : Response :=
  let statusCode := INTERNAL_SERVER_ERROR in
  let success := false in
  let message :=
    if String.eqb (error_message err) "" then "Something went wrong!"%string
    else error_message err in
  let message :=
    match err with
    | ValidationError _ => "Validation Error"%string
    | UniqueConstraintError _ => "Duplicate Key error"%string
    | _ => message
    end in
  {| res_statusCode := statusCode; res_success := success;
     res_message := message |}.

End ErrorHandler.

(** ** schedule.service.ts *)

Local Open Scope Z_scope.

Definition MINUTE : Z := 60000.
Definition HOUR : Z := 3600000.
Definition DAY : Z := 86400000.
Definition intervalTime : Z := 30.

(** The largest time value of a [Date], 8.64e15 milliseconds after the
    epoch; an instant beyond it is an Invalid Date. *)
Definition MAX_TIME : Z := 8640000000000000.

(** Midnight UTC of 9999-12-31, the last day that
    [format(date, 'yyyy-MM-dd')] writes with a four-digit year. *)
Definition LAST_DAY : Z := 253402214400000.

Record ISchedule := {
  startDate : Z;        (* new Date(startDate) *)
  endDate : Z;          (* new Date(endDate) *)
  startTime : string;   (* "HH:MM" *)
  endTime : string
}.

(** [String.prototype.split] on a one-character separator. *)
Fixpoint split (sep : ascii) (s : string) : list string :=
  match s with
  | EmptyString => [EmptyString]
  | String c rest =>
      if Ascii.eqb c sep then EmptyString :: split sep rest
      else match split sep rest with
           | [] => [String c EmptyString]
           | piece :: pieces => String c piece :: pieces
           end
  end.

Definition digit (c : ascii) : option Z :=
  let n := nat_of_ascii c in
  if (48 <=? n)%nat && (n <=? 57)%nat then Some (Z.of_nat (n - 48))
  else None.

Fixpoint digits (acc : Z) (s : string) : option Z :=
  match s with
  | EmptyString => Some acc
  | String c rest =>
      match digit c with
      | Some d => digits (10 * acc + d) rest
      | None => None
      end
  end.

(** [Number(x)] on the pieces of an "HH:MM" string that is written
    with plain unsigned decimal numerals (the empty string counts as
    0); [None] stands for NaN, the value of [Number(undefined)].  Other
    spellings that JavaScript also reads as numbers (surrounding
    blanks, a sign, a fraction, an exponent) are taken for NaN here, so
    the statements that depend on the slots of a run are about plain
    numerals. *)
Definition Number (piece : option string) : option Z :=
  match piece with
  | Some s => digits 0 s
  | None => None
  end.

(** date-fns [addHours] and [addMinutes]; [None] is an Invalid Date. *)
Definition addHours (date : option Z) (amount : option Z) : option Z :=
  match date, amount with
  | Some t, Some h => Some (t + h * HOUR)
  | _, _ => None
  end.

Definition addMinutes (date : option Z) (amount : option Z) : option Z :=
  match date, amount with
  | Some t, Some m => Some (t + m * MINUTE)
  | _, _ => None
  end.

(** [tx.schedule.create]. *)
Definition schedule_create (s e : Z) : M Schedule :=
  id <- uuidv4 ;;
  d <- getDB ;;
  let row := {| schedule_id := id; startDateTime := s; endDateTime := e |} in
  putDB (set_schedule (schedule d ++ [row]) d) ;;;
  ret row.

Definition sameInterval (s e : Z) (r : Schedule) : bool :=
  (startDateTime r =? s) && (endDateTime r =? e).

Section ScheduleService.

(** [Date.prototype.getTimezoneOffset()] of the server, in minutes
    (UTC minus local time), taken to be the same for every instant: a
    zone without daylight saving, in which [setMinutes] and [setDate]
    move an instant by as many minutes and days as they add. *)
Variable timezoneOffset : Z.

Definition convertDateTime (date : Z) : Z :=
  let offset := timezoneOffset * 60000 in
  date + offset.

(** [format(currentDate, 'yyyy-MM-dd')] read back as a date by
    date-fns: midnight UTC of the local calendar day of
    [currentDate]. *)
Definition formatDay (currentDate : Z) : Z :=
  (currentDate - timezoneOffset * 60000) / DAY * DAY.

(** The instant [addMinutes(addHours(day, HH), MM)] for a time of day
    written "HH:MM". *)
Definition timeOfDay (currentDate : Z) (time : string) : option Z :=
  addMinutes
    (addHours (Some (formatDay currentDate))
              (Number (nth_error (split ":" time) 0)))
    (Number (nth_error (split ":" time) 1)).

(** The body of the inner loop for one [startDateTime]. *)
Definition createIfAbsent (startDateTime_ : Z) (schedules : list Schedule)
  : M (list Schedule) :=
  let s := convertDateTime startDateTime_ in
  let e := convertDateTime (startDateTime_ + intervalTime * MINUTE) in
  existingSchedule <- findFirst schedule (sameInterval s e) ;;
  match existingSchedule with
  | None =>
      result <- schedule_create s e ;;
      ret (schedules ++ [result])
  | Some _ => ret schedules
  end.

(** [while (startDateTime < endDateTime) { ... }]. *)
Fixpoint slotsLoop (fuel : nat) (startDateTime_ endDateTime_ : Z)
    (schedules : list Schedule) : M (list Schedule) :=
  if startDateTime_ <? endDateTime_ then
    match fuel with
    | O => throw FuelExhausted
    | S fuel' =>
        schedules' <- createIfAbsent startDateTime_ schedules ;;
        slotsLoop fuel' (startDateTime_ + intervalTime * MINUTE)
                  endDateTime_ schedules'
    end
  else ret schedules.

(** Number of rounds of the inner loop. *)
Definition rounds (startDateTime_ endDateTime_ : Z) : nat :=
  Z.to_nat ((endDateTime_ - startDateTime_ + intervalTime * MINUTE - 1)
            / (intervalTime * MINUTE)).

(** [while (currentDate <= lastDate) { ... }]; a day whose start or
    end is an Invalid Date runs no inner round, because a comparison
    with NaN is false. *)
Fixpoint daysLoop (fuel : nat) (startTime_ endTime_ : string)
    (currentDate lastDate : Z) (schedules : list Schedule)
  : M (list Schedule) :=
  if currentDate <=? lastDate then
    match fuel with
    | O => throw FuelExhausted
    | S fuel' =>
        schedules' <-
          match timeOfDay currentDate startTime_,
                timeOfDay currentDate endTime_ with
          | Some s, Some e => slotsLoop (rounds s e) s e schedules
          | _, _ => ret schedules
          end ;;
        daysLoop fuel' startTime_ endTime_ (currentDate + DAY) lastDate
                 schedules'
    end
  else ret schedules.

Definition days (first last : Z) : nat :=
  Z.to_nat ((last - first) / DAY + 1).

Definition inserIntoDB (payload : ISchedule) : M (list Schedule) :=
  daysLoop (days (startDate payload) (endDate payload))
           (startTime payload) (endTime payload)
           (startDate payload) (endDate payload) [].

End ScheduleService.

Local Close Scope Z_scope.


(** ** A small clinic used in the examples *)

Module Example.

Definition alice : IAuthUser := {| email := "alice@mail"; role := PATIENT |}.
Definition bob : IAuthUser := {| email := "bob@mail"; role := PATIENT |}.

Definition slot : BookingPayload :=
  {| payload_doctorId := 10; payload_scheduleId := 7 |}.

Definition clinic_db : DB :=
  {| patient := [ {| patient_id := 1; patient_email := "alice@mail" |};
                  {| patient_id := 2; patient_email := "bob@mail" |} ];
     doctor := [ {| doctor_id := 10; doctor_name := "Dr. Rahman";
                    doctor_email := "rahman@mail"; appointmentFee := 500;
                    isDeleted := false |} ];
     schedule := [];
     doctorSchedules :=
       [ {| ds_doctorId := 10; ds_scheduleId := 7; isBooked := false |} ];
     appointment := [];
     payment := [] |}.

Definition clinic : World :=
  {| db := clinic_db; stripeSessions := []; uuidNext := 100;
     console := [] |}.

Definition gateway_up (params : SessionParams) : option string :=
  Some "https://checkout.stripe.com/pay/cs_test"%string.

Definition gateway_down (params : SessionParams) : option string := None.

(** Alice has booked slot 7 with deferred payment at time 1000. *)
Definition booked : World :=
  fst (createAppointmentWithPayLater 1000 alice slot clinic).

(** Alice has booked slot 7 with immediate payment at time 1000; the
    session carries the metadata (101, 103). *)
Definition checkout : World :=
  fst (createAppointment gateway_up 1000 alice slot clinic).

(** The binding is marked booked although no appointment holds the
    slot. *)
Definition held : World :=
  set_db (set_doctorSchedules
            [ {| ds_doctorId := 10; ds_scheduleId := 7; isBooked := true |} ]
            clinic_db) clinic.

(** The doctor has no binding for slot 7 at all. *)
Definition unbound : World :=
  set_db (set_doctorSchedules [] clinic_db) clinic.

Definition completed : Event :=
  {| ev_id := "evt_1"; ev_type := "checkout.session.completed";
     ev_object :=
       {| metadata := Some {| md_appointmentId := Some 101;
                              md_paymentId := Some 103 |};
          raw := "{}" |} |}.

(** The completed-session event has been delivered at time 1500. *)
Definition paid : World :=
  fst (handleStripeWebhookEvent 1500 completed checkout).

(** Alice's reservation as the two bookings above create it. *)
Definition reservation (id videoCalling : nat) : Appointment :=
  {| appt_id := id; patientId := 1; doctorId := 10; scheduleId := 7;
     videoCallingId := videoCalling; status := SCHEDULED;
     paymentStatus := UNPAID; createdAt := 1000; updatedAt := 1000 |}.

(** Thirty-one minutes after the booking. *)
Definition later : Z := 1000 + 31 * 60 * 1000.

(** A clinic whose doctor offers the two slots 7 and 8. *)
Definition two_slots : World :=
  set_db (set_doctorSchedules
            [ {| ds_doctorId := 10; ds_scheduleId := 7; isBooked := false |};
              {| ds_doctorId := 10; ds_scheduleId := 8; isBooked := false |} ]
            clinic_db) clinic.

Definition slot8 : BookingPayload :=
  {| payload_doctorId := 10; payload_scheduleId := 8 |}.

(** Alice has booked slot 7 and Bob slot 8, both with deferred
    payment. *)
Definition both_booked : World :=
  fst (createAppointmentWithPayLater 1001 bob slot8
         (fst (createAppointmentWithPayLater 1000 alice slot two_slots))).

(** The row of Bob's binding has been deleted since. *)
Definition orphaned : World :=
  set_db (set_doctorSchedules
            [ {| ds_doctorId := 10; ds_scheduleId := 7; isBooked := true |} ]
            (db both_booked)) both_booked.

End Example.

(** ** Notions used in the statements *)

(** The appointment that the two look-ups of
    [initiatePaymentForAppointment] resolve: the row with the given id
    that belongs to the patient whose e-mail is the caller's. *)
Definition ownedAppointment (appointment_ : nat) (user : IAuthUser) (d : DB)
  : option Appointment :=
  match find (fun p => String.eqb (patient_email p) (email user))
             (patient d) with
  | Some patientData =>
      find (fun a => Nat.eqb (appt_id a) appointment_
                     && Nat.eqb (patientId a) (patient_id patientData))
           (appointment d)
  | None => None
  end.

(** What a committed sweep over the selection [sel] makes of the
    database. *)
Definition selects (sel : list Appointment) (r : DoctorSchedules) : bool :=
  existsb (fun a => same_binding (doctorId a) (scheduleId a) r) sel.

Definition release (sel : list Appointment) (r : DoctorSchedules)
  : DoctorSchedules :=
  if selects sel r then set_isBooked false r else r.

Definition cancel (now : Z) (sel : list Appointment) (a : Appointment)
  : Appointment :=
  if inb (appt_id a) (map appt_id sel) then set_status CANCELED now a else a.

Definition swept (now : Z) (sel : list Appointment) (d : DB) : DB :=
  {| patient := patient d; doctor := doctor d; schedule := schedule d;
     doctorSchedules := map (release sel) (doctorSchedules d);
     appointment := map (cancel now sel) (appointment d);
     payment := filter (fun p => negb (inb (appointmentId p)
                                           (map appt_id sel)))
                       (payment d) |}.

(** Every selected appointment still has the row of its binding. *)
Definition bindings_present (sel : list Appointment) (d : DB) : Prop :=
  forall a, In a sel ->
    existsb (same_binding (doctorId a) (scheduleId a)) (doctorSchedules d)
    = true.

(** The rows of the binding of a doctor and a slot. *)
Definition binding (doctor_ schedule_ : nat) (d : DB)
  : list DoctorSchedules :=
  filter (same_binding doctor_ schedule_) (doctorSchedules d).

(** The payment records of an appointment. *)
Definition paymentsOf (appointment_ : nat) (d : DB) : list Payment :=
  filter (fun p => Nat.eqb (appointmentId p) appointment_) (payment d).

(** The correlation metadata of an event, when both ids are there. *)
Definition correlation (ev : Event) : option (nat * nat) :=
  match metadata (ev_object ev) with
  | Some {| md_appointmentId := Some a; md_paymentId := Some p |} =>
      Some (a, p)
  | _ => None
  end.

(** The deliveries that write: the event id is new, the metadata is
    complete, the appointment exists, the event is a completed session
    and the payment exists.  The result is the pair of ids written. *)
Definition applies (ev : Event) (d : DB) : option (nat * nat) :=
  match find (fun p => option_string_eqb (stripeEventId p) (ev_id ev))
             (payment d) with
  | Some _ => None
  | None =>
      match correlation ev with
      | Some (a, p) =>
          match find (fun x => Nat.eqb (appt_id x) a) (appointment d) with
          | Some _ =>
              if String.eqb (ev_type ev) "checkout.session.completed"
                 && existsb (fun x => Nat.eqb (pay_id x) p) (payment d)
              then Some (a, p) else None
          | None => None
          end
      | None => None
      end
  end.

(** What the webhook's transaction makes of the database. *)
Definition markPaid (now : Z) (ev : Event) (a p : nat) (d : DB) : DB :=
  set_payment
    (map (fun x => if Nat.eqb (pay_id x) p
                   then set_paid (ev_object ev) (ev_id ev) now x else x)
         (payment d))
    (set_appointment
       (map (fun x => if Nat.eqb (appt_id x) a
                      then set_paymentStatus PAID now x else x)
            (appointment d)) d).

(** Deliveries of one event at the given instants, one after the other. *)
Definition deliver (ev : Event) (w : World) (now : Z) : World :=
  fst (handleStripeWebhookEvent now ev w).

Definition replay (ev : Event) (times : list Z) (w : World) : World :=
  fold_left (deliver ev) times w.

Definition PaymentStatus_eq_dec (a b : PaymentStatus) : {a = b} + {a <> b}.
Proof. decide equality. Defined.

Definition Metadata_eq_dec (a b : Metadata) : {a = b} + {a <> b}.
Proof. repeat decide equality. Defined.

Definition StripeObject_eq_dec (a b : StripeObject) : {a = b} + {a <> b}.
Proof.
  decide equality.
  - apply string_dec.
  - decide equality. apply Metadata_eq_dec.
Defined.

Definition Payment_eq_dec (a b : Payment) : {a = b} + {a <> b}.
Proof.
  decide equality;
    try apply Z.eq_dec; try apply Nat.eq_dec;
    try apply PaymentStatus_eq_dec.
  - decide equality. apply string_dec.
  - decide equality. apply StripeObject_eq_dec.
Defined.

(** Number of deliveries in a replay that change the payment table. *)
Fixpoint payment_writes (ev : Event) (times : list Z) (w : World) : nat :=
  match times with
  | [] => 0
  | now :: rest =>
      (if list_eq_dec Payment_eq_dec (payment (db (deliver ev w now)))
                      (payment (db w))
       then 0 else 1)
      + payment_writes ev rest (deliver ev w now)
  end.

(** ** The store as a transition system *)

(** The invariant of the data model: an appointment and its payment
    record agree on being PAID. *)
Definition consistent (d : DB) : Prop :=
  forall a p,
    In a (appointment d) -> In p (payment d) ->
    appointmentId p = appt_id a ->
    (paymentStatus a = PAID <-> pay_status p = PAID).

(** An event whose signature verifies comes from the gateway: when it
    carries correlation metadata, it is the metadata of a session the
    gateway issued to this server. *)
Definition signed_by_gateway (w : World) (ev : Event) : Prop :=
  forall a p, correlation ev = Some (a, p) ->
    exists s, In s (stripeSessions w)
              /\ sp_appointmentId s = a /\ sp_paymentId s = p.

(** Before the first booking: no appointment, no payment record, no
    session; patients, doctors, slots and bindings are arbitrary. *)
Definition initial (w : World) : Prop :=
  appointment (db w) = [] /\ payment (db w) = [] /\ stripeSessions w = [].

(** One step of the system.  Besides the service calls run as a whole,
    the two transactions may commit on a world that has moved on since
    their data was read ([step_booking_commit], [step_pay_later_commit]
    and [step_sweep_commit]), which covers every interleaving of
    concurrent requests at the granularity of queries and
    transactions. *)
Inductive step (w : World) : World -> Prop :=
| step_createAppointment stripe now user payload :
    step w (fst (createAppointment stripe now user payload w))
| step_createAppointmentWithPayLater now user payload :
    step w (fst (createAppointmentWithPayLater now user payload w))
| step_booking_commit stripe now user payload patientData doctorData
                      videoCalling :
    step w (fst (transaction
                   (createAppointment_tx stripe now user payload
                      patientData doctorData videoCalling) w))
| step_pay_later_commit now payload patientData doctorData videoCalling :
    step w (fst (transaction
                   (createAppointmentWithPayLater_tx now payload
                      patientData doctorData videoCalling) w))
| step_initiatePayment stripe appointment_ user :
    step w (fst (initiatePaymentForAppointment stripe appointment_ user w))
| step_updateAppointmentStatus now appointment_ st user :
    step w (fst (updateAppointmentStatus now appointment_ st user w))
| step_cancelUnpaidAppointments now :
    step w (fst (cancelUnpaidAppointments now w))
| step_sweep_commit now selection :
    step w (fst (transaction (cancelUnpaidAppointments_tx now selection) w))
| step_webhook now ev :
    signed_by_gateway w ev ->
    step w (fst (handleStripeWebhookEvent now ev w)).

Inductive reachable : World -> Prop :=
| reachable_initial w : initial w -> reachable w
| reachable_step w w' : reachable w -> step w w' -> reachable w'.

(** The inductive invariant behind [consistent]. *)
Record coherent (A : list Appointment) (P : list Payment)
    (S : list SessionParams) (n : nat) : Prop := {
  coh_consistent :
    forall a p, In a A -> In p P -> appointmentId p = appt_id a ->
                (paymentStatus a = PAID <-> pay_status p = PAID);
  coh_sessions :
    forall s p, In s S -> In p P -> pay_id p = sp_paymentId s ->
                appointmentId p = sp_appointmentId s;
  coh_payment_ids : forall p, In p P -> pay_id p < n;
  coh_session_ids : forall s, In s S -> sp_paymentId s < n;
  coh_appointment_ids : forall a, In a A -> appt_id a < n;
  coh_one_payment :
    forall p q, In p P -> In q P -> appointmentId p = appointmentId q ->
                p = q;
  coh_payment_key :
    forall p q, In p P -> In q P -> pay_id p = pay_id q -> p = q
}.

Definition coherent_world (w : World) : Prop :=
  coherent (appointment (db w)) (payment (db w)) (stripeSessions w)
           (uuidNext w).

(** The trace of a committed booking in the world. *)
Definition reserves (withSession : bool) (w w' : World) : Prop :=
  exists a p s,
    appointment (db w') = appointment (db w) ++ [a]
    /\ payment (db w') = payment (db w) ++ [p]
    /\ appt_id a = uuidNext w
    /\ pay_id p = uuidNext w + 2
    /\ appointmentId p = appt_id a
    /\ paymentStatus a = UNPAID
    /\ pay_status p = UNPAID
    /\ (forall q, In q (payment (db w)) -> appointmentId q <> appt_id a)
    /\ uuidNext w' = uuidNext w + 3
    /\ sp_appointmentId s = appt_id a
    /\ sp_paymentId s = pay_id p
    /\ stripeSessions w'
       = stripeSessions w ++ (if withSession then [s] else []).

(** Nothing but the uuid counter has moved. *)
Definition untouched (w w' : World) : Prop :=
  db w' = db w /\ stripeSessions w' = stripeSessions w
  /\ uuidNext w <= uuidNext w'.

(** ** The candidate intervals of the schedule generator *)

Local Open Scope Z_scope.

(** The start instants that the inner loop visits in [n] rounds. *)
Fixpoint starts (n : nat) (s : Z) : list Z :=
  match n with
  | O => []
  | S n' => s :: starts n' (s + intervalTime * MINUTE)
  end.

(** The interval starting at [x] is already a stored slot. *)
Definition stored (timezoneOffset : Z) (d : DB) (x : Z) : bool :=
  existsb (sameInterval (convertDateTime timezoneOffset x)
             (convertDateTime timezoneOffset (x + intervalTime * MINUTE)))
          (schedule d).

(** The loop body run over a list of start instants. *)
Fixpoint insertAll (timezoneOffset : Z) (l : list Z)
    (schedules : list Schedule) : M (list Schedule) :=
  match l with
  | [] => ret schedules
  | x :: rest =>
      schedules' <- createIfAbsent timezoneOffset x schedules ;;
      insertAll timezoneOffset rest schedules'
  end.

Definition dayStarts (timezoneOffset : Z) (startTime_ endTime_ : string)
    (currentDate : Z) : list Z :=
  match timeOfDay timezoneOffset currentDate startTime_,
        timeOfDay timezoneOffset currentDate endTime_ with
  | Some s, Some e => starts (rounds s e) s
  | _, _ => []
  end.

Fixpoint rangeStarts (timezoneOffset : Z) (startTime_ endTime_ : string)
    (n : nat) (currentDate : Z) : list Z :=
  match n with
  | O => []
  | S n' =>
      dayStarts timezoneOffset startTime_ endTime_ currentDate
      ++ rangeStarts timezoneOffset startTime_ endTime_ n' (currentDate + DAY)
  end.

Definition candidates (timezoneOffset : Z) (payload : ISchedule) : list Z :=
  rangeStarts timezoneOffset (startTime payload) (endTime payload)
    (days (startDate payload) (endDate payload)) (startDate payload).

(** The rows created for the start instants [l], with ids from [id] on. *)
Fixpoint rows (timezoneOffset : Z) (id : nat) (l : list Z) : list Schedule :=
  match l with
  | [] => []
  | x :: rest =>
      {| schedule_id := id;
         startDateTime := convertDateTime timezoneOffset x;
         endDateTime :=
           convertDateTime timezoneOffset (x + intervalTime * MINUTE) |}
      :: rows timezoneOffset (S id) rest
  end.

(** The world after the rows [created] have been inserted. *)
Definition with_slots (created : list Schedule) (w : World) : World :=
  {| db := set_schedule (schedule (db w) ++ created) (db w);
     stripeSessions := stripeSessions w;
     uuidNext := (List.length created + uuidNext w)%nat;
     console := console w |}.

Local Close Scope Z_scope.


(** The world with the [isBooked] flag of every binding row set anew. *)
Definition reflag (flag : DoctorSchedules -> bool) (w : World) : World :=
  set_db (set_doctorSchedules
            (map (fun r => set_isBooked (flag r) r) (doctorSchedules (db w)))
            (db w)) w.

(** * Further functions of the services *)

(** ** Listing queries (appointment.service.ts, schedule.service.ts) *)

Record IPaginationOptions := {
  options_page : option nat;
  options_limit : option nat;
  options_sortBy : option string;
  options_sortOrder : option string
}.

Record Pagination := {
  page : nat;
  limit : nat;
  skip : nat;
  sortBy : string;
  sortOrder : string
}.

Record Meta := {
  total : nat;
  meta_page : nat;
  meta_limit : nat
}.

Record Listing (R : Type) := {
  meta : Meta;
  data : list R
}.

(** [findMany({ where, skip, take, orderBy })]; the [where] may follow
    relations, so it reads the database. *)
Definition findManyPaged {R} (table : DB -> list R)
    (where_ : DB -> R -> bool) (orderBy : list R -> list R)
    (skip_ take : nat) : M (list R) :=
  fun w =>
    (w, Ok (firstn take
              (skipn skip_
                 (orderBy (filter (where_ (db w)) (table (db w))))))).

(** [findMany({ where })] with a [where] that follows a relation. *)
Definition findManyWhere {R} (table : DB -> list R)
    (where_ : DB -> R -> bool) : M (list R) :=
  fun w => (w, Ok (filter (where_ (db w)) (table (db w)))).

(** [count({ where })]. *)
Definition count {R} (table : DB -> list R) (where_ : DB -> R -> bool)
  : M nat :=
  fun w => (w, Ok (List.length (filter (where_ (db w)) (table (db w))))).

(** A string used as a condition: undefined and the empty string are
    falsy. *)
Definition truthy (s : option string) : option string :=
  match s with
  | Some EmptyString => None
  | other => other
  end.

(** The relation filters [patient: { email }] and [doctor: { email }]
    on an appointment, and [doctor: { email }] on a binding. *)
Definition patientHasEmail (d : DB) (e : string) (a : Appointment) : bool :=
  existsb (fun p => Nat.eqb (patient_id p) (patientId a)
                    && String.eqb (patient_email p) e) (patient d).

Definition doctorHasEmail (d : DB) (e : string) (a : Appointment) : bool :=
  existsb (fun x => Nat.eqb (doctor_id x) (doctorId a)
                    && String.eqb (doctor_email x) e) (doctor d).

Definition bindingOfDoctorEmail (d : DB) (e : string) (r : DoctorSchedules)
  : bool :=
  existsb (fun x => Nat.eqb (doctor_id x) (ds_doctorId r)
                    && String.eqb (doctor_email x) e) (doctor d).

Record AppointmentFilters := {
  patientEmail : option string;
  doctorEmail : option string;
  filterData : list (string * string)
}.

Record IFilterRequest := {
  filter_startDate : option Z;     (* new Date(startDate), when given *)
  filter_endDate : option Z;       (* new Date(endDate), when given *)
  filter_rest : list (string * string)
}.

(** [setUTCHours(0, 0, 0, 0)] and [setUTCHours(23, 59, 59, 999)]. *)
Definition startOfUTCDay (t : Z) : Z := (t / DAY * DAY)%Z.
Definition endOfUTCDay (t : Z) : Z := (t / DAY * DAY + (DAY - 1))%Z.

(** The window on [startDateTime] that the three branches on
    [startDate] and [endDate] build. *)
Definition dateWindow (filters : IFilterRequest) : option (Z * Z) :=
  match filter_startDate filters, filter_endDate filters with
  | Some s, Some e => Some (startOfUTCDay s, endOfUTCDay e)
  | Some s, None => Some (startOfUTCDay s, endOfUTCDay s)
  | None, Some e => Some (startOfUTCDay e, endOfUTCDay e)
  | None, None => None
  end.

Definition inWindow (window : option (Z * Z)) (r : Schedule) : bool :=
  match window with
  | Some (lo, hi) => ((lo <=? startDateTime r) && (startDateTime r <=? hi))%Z
  | None => true
  end.

Section Listings.

(** [paginationHelper.calculatePagination], which is not part of the
    sources at hand. *)
Variable calculatePagination : IPaginationOptions -> Pagination.

(** Prisma's [orderBy: { [field]: direction }] on the two tables. *)
Variable orderAppointments : string -> string -> list Appointment
                             -> list Appointment.
Variable orderSchedules : string -> string -> list Schedule -> list Schedule.

(** Prisma's [{ [key]: { equals: value } }] on a row of the two tables. *)
Variable equalsAppointment : string -> string -> Appointment -> bool.
Variable equalsSchedule : string -> string -> Schedule -> bool.



Definition AppointmentService_getAllFromDB_where (filters : AppointmentFilters)
    (d : DB) (a : Appointment) : bool :=
  match truthy (patientEmail filters) with
  | Some e => patientHasEmail d e a
  | None =>
      match truthy (doctorEmail filters) with
      | Some e => doctorHasEmail d e a
      | None => true
      end
  end
  && forallb (fun kv => equalsAppointment (fst kv) (snd kv) a)
             (filterData filters).

(** [options.sortBy && options.sortOrder ? { [sortBy]: sortOrder }
    : { createdAt: 'desc' }]. *)
Definition chosenOrder (options : IPaginationOptions) : string * string :=
  match truthy (options_sortBy options),
        truthy (options_sortOrder options) with
  | Some field, Some direction => (field, direction)
  | _, _ => ("createdAt", "desc")%string
  end.

Definition AppointmentService_getAllFromDB (filters : AppointmentFilters)
    (options : IPaginationOptions) : M (Listing Appointment) :=
  let pagination := calculatePagination options in
  let whereConditions := AppointmentService_getAllFromDB_where filters in
  result <- findManyPaged appointment whereConditions
              (orderAppointments (fst (chosenOrder options))
                                 (snd (chosenOrder options)))
              (skip pagination) (limit pagination) ;;
  total_ <- count appointment whereConditions ;;
  ret {| meta := {| total := total_; meta_page := page pagination;
                    meta_limit := limit pagination |};
         data := result |}.

Definition ScheduleService_getAllFromDB_where (filters : IFilterRequest)
    (doctorScheduleIds : list nat) (d : DB) (r : Schedule) : bool :=
  inWindow (dateWindow filters) r
  && forallb (fun kv => equalsSchedule (fst kv) (snd kv) r)
             (filter_rest filters)
  && negb (inb (schedule_id r) doctorScheduleIds).

Definition ScheduleService_getAllFromDB (filters : IFilterRequest)
    (options : IPaginationOptions) (user : IAuthUser)
  : M (Listing Schedule) :=
  let pagination := calculatePagination options in
  doctorSchedules_ <- findManyWhere doctorSchedules
                        (fun d => bindingOfDoctorEmail d (email user)) ;;
  let doctorScheduleIds := map ds_scheduleId doctorSchedules_ in
  let whereConditions :=
    ScheduleService_getAllFromDB_where filters doctorScheduleIds in
  result <- findManyPaged schedule whereConditions
              (orderSchedules (fst (chosenOrder options))
                              (snd (chosenOrder options)))
              (skip pagination) (limit pagination) ;;
  total_ <- count schedule whereConditions ;;
  ret {| meta := {| total := total_; meta_page := page pagination;
                    meta_limit := limit pagination |};
         data := result |}.

End Listings.

(** [ScheduleService.getByIdFromDB]: [schedule.findUnique({ where: { id } })]. *)
Definition getByIdFromDB (id : nat) : M (option Schedule) :=
  findFirst schedule (fun r => Nat.eqb (schedule_id r) id).

(** ** Notions used in the further statements *)

(** The interval of a slot. *)
Definition interval (r : Schedule) : Z * Z :=
  (startDateTime r, endDateTime r).

(** Two rows of the appointment table that differ at most in [status]
    and [updatedAt]. *)
Definition sameBooking (a a' : Appointment) : Prop :=
  appt_id a' = appt_id a /\ patientId a' = patientId a
  /\ doctorId a' = doctorId a /\ scheduleId a' = scheduleId a
  /\ videoCallingId a' = videoCallingId a
  /\ paymentStatus a' = paymentStatus a /\ createdAt a' = createdAt a.

(** One call of a function of the appointment service, or the commit
    of one of its transactions on a world that has moved on since the
    data of the transaction was read. *)
Inductive service_step (w : World) : World -> Prop :=
| service_createAppointment stripe now user payload :
    service_step w (fst (createAppointment stripe now user payload w))
| service_createAppointmentWithPayLater now user payload :
    service_step w (fst (createAppointmentWithPayLater now user payload w))
| service_booking_commit stripe now user payload patientData doctorData
                         videoCalling :
    service_step w
      (fst (transaction
              (createAppointment_tx stripe now user payload
                 patientData doctorData videoCalling) w))
| service_pay_later_commit now payload patientData doctorData videoCalling :
    service_step w
      (fst (transaction
              (createAppointmentWithPayLater_tx now payload
                 patientData doctorData videoCalling) w))
| service_initiatePayment stripe appointment_ user :
    service_step w
      (fst (initiatePaymentForAppointment stripe appointment_ user w))
| service_updateAppointmentStatus now appointment_ st user :
    service_step w (fst (updateAppointmentStatus now appointment_ st user w))
| service_cancelUnpaidAppointments now :
    service_step w (fst (cancelUnpaidAppointments now w))
| service_sweep_commit now selection :
    service_step w
      (fst (transaction (cancelUnpaidAppointments_tx now selection) w)).

(** A time of day without a colon. *)
Fixpoint colonFree (s : string) : bool :=
  match s with
  | EmptyString => true
  | String c rest => negb (Ascii.eqb c ":") && colonFree rest
  end.

(** The rows a committed booking transaction appends. *)
Definition bookedAppointment (now : Z) (payload : BookingPayload)
    (patientData : Patient) (doctorData : Doctor) (videoCalling id : nat)
  : Appointment :=
  {| appt_id := id; patientId := patient_id patientData;
     doctorId := doctor_id doctorData;
     scheduleId := payload_scheduleId payload;
     videoCallingId := videoCalling; status := SCHEDULED;
     paymentStatus := UNPAID; createdAt := now; updatedAt := now |}.

Definition bookedPayment (now : Z) (doctorData : Doctor) (id : nat)
  : Payment :=
  {| pay_id := S (S id); appointmentId := id;
     amount := appointmentFee doctorData; transactionId := S id;
     pay_status := UNPAID; paymentGatewayData := None;
     stripeEventId := None; pay_createdAt := now; pay_updatedAt := now |}.

Definition bookedDB (now : Z) (payload : BookingPayload)
    (patientData : Patient) (doctorData : Doctor) (videoCalling id : nat)
    (d : DB) : DB :=
  set_payment (payment d ++ [bookedPayment now doctorData id])
    (set_doctorSchedules
       (map (fun r => if same_binding (doctor_id doctorData)
                           (payload_scheduleId payload) r
                      then set_isBooked true r else r)
            (doctorSchedules d))
       (set_appointment
          (appointment d
           ++ [bookedAppointment now payload patientData doctorData
                                 videoCalling id]) d)).

(** A time of day as an offset from midnight: [HH] hours and [MM]
    minutes, when both pieces are numerals. *)
Definition timeOffset (time : string) : option Z :=
  match Number (nth_error (split ":" time) 0),
        Number (nth_error (split ":" time) 1) with
  | Some h, Some m => Some (h * HOUR + m * MINUTE)%Z
  | _, _ => None
  end.

(** The payloads on which every [Date] of a run is a valid one and
    [Number] reads plain numerals: dates from 1970 to 9999, an offset of
    at most a day, and two times written with unsigned decimal numerals
    that lie within two days of midnight. *)
Definition wellFormed (tz : Z) (payload : ISchedule) : Prop :=
  (0 <= startDate payload)%Z /\ (endDate payload <= LAST_DAY - DAY)%Z
  /\ (-1440 <= tz <= 1440)%Z
  /\ exists so eo,
       timeOffset (startTime payload) = Some so
       /\ timeOffset (endTime payload) = Some eo
       /\ (so <= 2 * DAY)%Z /\ (eo <= 2 * DAY)%Z.

(** The rows that [findUnique({ where: { id } })] returns. *)
Definition appointmentById (id : nat) (d : DB) : option Appointment :=
  find (fun a => Nat.eqb (appt_id a) id) (appointment d).

Definition doctorById (id : nat) (d : DB) : option Doctor :=
  find (fun x => Nat.eqb (doctor_id x) id) (doctor d).

(** The appointment table after [appointment.update({ where: { id },
    data: { status } })]. *)
Definition withStatus (now : Z) (id : nat) (st : AppointmentStatus) (d : DB)
  : DB :=
  set_appointment
    (map (fun a => if Nat.eqb (appt_id a) id then set_status st now a else a)
         (appointment d)) d.

(** ** More of the clinic *)

Module Sample.

Definition paginate (options : IPaginationOptions) : Pagination :=
  {| page := 1; limit := 10; skip := 0;
     sortBy := "createdAt"; sortOrder := "desc" |}.

Definition unordered {R} (field direction : string) (l : list R) : list R :=
  l.

Definition anyValue {R} (key value : string) (row : R) : bool := true.

Definition rahman : IAuthUser :=
  {| email := "rahman@mail"; role := DOCTOR |}.

Definition karim : IAuthUser :=
  {| email := "karim@mail"; role := DOCTOR |}.

Definition admin : IAuthUser :=
  {| email := "admin@mail"; role := ADMIN |}.

(** The clinic after the generator has created the two slots of
    09:00 to 10:00 on the first day (ids 100 and 101), with the doctor
    bound to slot 100. *)
Definition open_db : DB :=
  {| patient := patient Example.clinic_db;
     doctor := doctor Example.clinic_db;
     schedule :=
       [ {| schedule_id := 100; startDateTime := 32400000;
            endDateTime := 34200000 |};
         {| schedule_id := 101; startDateTime := 34200000;
            endDateTime := 36000000 |} ];
     doctorSchedules :=
       [ {| ds_doctorId := 10; ds_scheduleId := 100; isBooked := false |} ];
     appointment := [];
     payment := [] |}.

Definition open : World :=
  {| db := open_db; stripeSessions := []; uuidNext := 102; console := [] |}.

(** Alice's reservation of slot 7 has been swept at [Example.later]. *)
Definition swept_world : World :=
  fst (cancelUnpaidAppointments Example.later Example.booked).

(** An appointment whose binding row is gone. *)
Definition orphan_db : DB :=
  set_doctorSchedules [] (db Example.booked).

Definition orphan : World := set_db orphan_db Example.booked.

End Sample.

(** The world after the gateway has issued one more session. *)
Definition issued (session : SessionParams) (w : World) : World :=
  {| db := db w; stripeSessions := stripeSessions w ++ [session];
     uuidNext := uuidNext w; console := console w |}.

(** The world after one more line on the console. *)
Definition logged (line : string) (w : World) : World :=
  {| db := db w; stripeSessions := stripeSessions w;
     uuidNext := uuidNext w; console := console w ++ [line] |}.

(** The two slots of 09:00 to 10:00 on the first day. *)
Definition open_slots : list Schedule :=
  [ {| schedule_id := 100; startDateTime := 32400000;
       endDateTime := 34200000 |};
    {| schedule_id := 101; startDateTime := 34200000;
       endDateTime := 36000000 |} ].
(** * Properties *)

(** ** Generic facts about the monad and the Prisma operations *)

Ltac unfold_ops :=
  unfold findFirstOrThrow, findFirst, findMany, getDB, putDB, uuidv4,
    console_log, throw, ret, bind in *.

Ltac break_match :=
  match goal with
  | |- context [match ?x with _ => _ end] => destruct x eqn:?
  | |- context [if ?x then _ else _] => destruct x eqn:?
  end.

Lemma bind_run {A B} (m : M A) (k : A -> M B) (w : World) :
  bind m k w = match m w with
               | (w', Ok a) => k a w'
               | (w', Err e) => (w', Err e)
               end.
Proof. reflexivity. Qed.

Lemma db_set_db (d : DB) (w : World) : db (set_db d w) = d.
Proof. reflexivity. Qed.

Lemma set_db_same (w : World) : set_db (db w) w = w.
Proof. destruct w; reflexivity. Qed.

Lemma same_binding_set_isBooked (doctor_ schedule_ : nat) (b : bool)
    (r : DoctorSchedules) :
  same_binding doctor_ schedule_ (set_isBooked b r)
  = same_binding doctor_ schedule_ r.
Proof. reflexivity. Qed.

Lemma existsb_map_key (doctor_ schedule_ : nat)
    (f : DoctorSchedules -> DoctorSchedules) (t : list DoctorSchedules) :
  (forall r, same_binding doctor_ schedule_ (f r)
             = same_binding doctor_ schedule_ r) ->
  existsb (same_binding doctor_ schedule_) (map f t)
  = existsb (same_binding doctor_ schedule_) t.
Proof.
  intros Hf. induction t as [| r t IH]; simpl; [reflexivity |].
  now rewrite Hf, IH.
Qed.

(** A transaction whose callback throws leaves the database as it was. *)
Lemma transaction_throws_restores {A} (body : M A) (w : World) (e : Error) :
  snd (transaction body w) = Err e -> db (fst (transaction body w)) = db w.
Proof.
  unfold transaction. destruct (body w) as [w' [a | e']]; simpl.
  - discriminate.
  - reflexivity.
Qed.

(** The three look-ups that precede the booking transaction only read. *)
Lemma bookingPreconditions_reads (user : IAuthUser) (payload : BookingPayload)
    (w : World) :
  fst (bookingPreconditions user payload w) = w.
Proof.
  unfold bookingPreconditions. unfold_ops.
  destruct (find _ (patient (db w))); simpl; [| reflexivity].
  destruct (find _ (doctor (db w))); simpl; [| reflexivity].
  destruct (find _ (doctorSchedules (db w))); reflexivity.
Qed.

Lemma bookingPreconditions_found (user : IAuthUser) (payload : BookingPayload)
    (w : World) (patientData : Patient) (doctorData : Doctor) :
  snd (bookingPreconditions user payload w) = Ok (patientData, doctorData) ->
  doctor_id doctorData = payload_doctorId payload
  /\ exists r, In r (doctorSchedules (db w))
               /\ ds_doctorId r = payload_doctorId payload
               /\ ds_scheduleId r = payload_scheduleId payload
               /\ isBooked r = false.
Proof.
  unfold bookingPreconditions. unfold_ops.
  destruct (find _ (patient (db w))) eqn:Hp; simpl; [| discriminate].
  destruct (find _ (doctor (db w))) eqn:Hd; simpl; [| discriminate].
  destruct (find _ (doctorSchedules (db w))) eqn:Hb; simpl; [| discriminate].
  intros H. inversion H; subst; clear H.
  apply find_some in Hd. destruct Hd as [_ Hd].
  apply andb_prop in Hd. destruct Hd as [Hd _].
  apply Nat.eqb_eq in Hd.
  apply find_some in Hb. destruct Hb as [Hin Hb].
  apply andb_prop in Hb. destruct Hb as [Hb Hfree].
  apply andb_prop in Hb. destruct Hb as [Hb1 Hb2].
  apply Nat.eqb_eq in Hb1. apply Nat.eqb_eq in Hb2.
  split; [exact Hd |].
  exists d0. rewrite <- Hd.
  repeat split; auto.
  now apply negb_true_iff in Hfree.
Qed.

(** No free binding: the availability look-up throws. *)
Lemma bookingPreconditions_booked (user : IAuthUser)
    (payload : BookingPayload) (w : World) :
  (forall r, In r (doctorSchedules (db w)) ->
             ds_doctorId r = payload_doctorId payload ->
             ds_scheduleId r = payload_scheduleId payload ->
             isBooked r = true) ->
  exists model, bookingPreconditions user payload w
                = (w, Err (NotFoundError model)).
Proof.
  intros Hbooked.
  unfold bookingPreconditions. unfold_ops.
  destruct (find _ (patient (db w))) eqn:Hp; simpl; [| eauto].
  destruct (find _ (doctor (db w))) eqn:Hd; simpl; [| eauto].
  destruct (find _ (doctorSchedules (db w))) eqn:Hb; simpl; [| eauto].
  exfalso.
  apply find_some in Hd. destruct Hd as [_ Hd].
  apply andb_prop in Hd. destruct Hd as [Hd _].
  apply Nat.eqb_eq in Hd.
  apply find_some in Hb. destruct Hb as [Hin Hb].
  apply andb_prop in Hb. destruct Hb as [Hb Hfree].
  apply andb_prop in Hb. destruct Hb as [Hb1 Hb2].
  apply Nat.eqb_eq in Hb1. apply Nat.eqb_eq in Hb2.
  apply negb_true_iff in Hfree.
  rewrite (Hbooked d0 Hin) in Hfree; congruence.
Qed.

Ltac unfold_tables :=
  unfold appointment_create, appointment_update, appointment_updateMany,
    doctorSchedules_update, payment_create, payment_update_paid,
    payment_deleteMany, stripe_checkout_sessions_create in *.

(** After [doctorSchedules.update(..., true)] every row of the binding
    is booked. *)
Lemma booked_after_update (doctor_ schedule_ : nat)
    (t : list DoctorSchedules) (r : DoctorSchedules) :
  In r (map (fun r => if same_binding doctor_ schedule_ r
                      then set_isBooked true r else r) t) ->
  ds_doctorId r = doctor_ -> ds_scheduleId r = schedule_ ->
  isBooked r = true.
Proof.
  intros Hin Hd Hs. apply in_map_iff in Hin.
  destruct Hin as [r0 [Heq Hin]].
  destruct (same_binding doctor_ schedule_ r0) eqn:Hk.
  - subst r. reflexivity.
  - subst r0. unfold same_binding in Hk.
    rewrite Hd, Hs, !Nat.eqb_refl in Hk. discriminate.
Qed.

Lemma createAppointmentWithPayLater_tx_books (now : Z)
    (payload : BookingPayload) (patientData : Patient) (doctorData : Doctor)
    (videoCalling : nat) (w w1 : World) (a : Appointment) :
  createAppointmentWithPayLater_tx now payload patientData doctorData
    videoCalling w = (w1, Ok a) ->
  forall r, In r (doctorSchedules (db w1)) ->
            ds_doctorId r = doctor_id doctorData ->
            ds_scheduleId r = payload_scheduleId payload ->
            isBooked r = true.
Proof.
  unfold createAppointmentWithPayLater_tx. unfold_tables. unfold_ops.
  simpl.
  destruct (existsb _ (appointment (db w))); simpl; [discriminate |].
  destruct (existsb _ (doctorSchedules (db w))); simpl; [| discriminate].
  destruct (existsb _ (payment (db w))); simpl; [discriminate |].
  destruct (existsb _ (payment (db w))); simpl; [discriminate |].
  intros H. inversion H; subst; clear H. simpl.
  intros r Hin. eapply booked_after_update; eauto.
Qed.

Lemma createAppointment_tx_books (stripe : SessionParams -> option string)
    (now : Z) (user : IAuthUser)
    (payload : BookingPayload) (patientData : Patient) (doctorData : Doctor)
    (videoCalling : nat) (w w1 : World) (url : string) :
  createAppointment_tx stripe now user payload patientData doctorData
    videoCalling w = (w1, Ok url) ->
  forall r, In r (doctorSchedules (db w1)) ->
            ds_doctorId r = doctor_id doctorData ->
            ds_scheduleId r = payload_scheduleId payload ->
            isBooked r = true.
Proof.
  unfold createAppointment_tx. unfold_tables. unfold_ops.
  simpl.
  destruct (existsb _ (appointment (db w))); simpl; [discriminate |].
  destruct (existsb _ (doctorSchedules (db w))); simpl; [| discriminate].
  destruct (existsb _ (payment (db w))); simpl; [discriminate |].
  destruct (existsb _ (payment (db w))); simpl; [discriminate |].
  destruct (stripe _); simpl; [| discriminate].
  intros H. inversion H; subst; clear H. simpl.
  intros r Hin. eapply booked_after_update; eauto.
Qed.

(** With the gateway down the callback of [createAppointment] throws. *)
Lemma createAppointment_tx_gateway_down
    (stripe : SessionParams -> option string)
    (now : Z) (user : IAuthUser)
    (payload : BookingPayload) (patientData : Patient) (doctorData : Doctor)
    (videoCalling : nat) (w : World) :
  (forall params, stripe params = None) ->
  exists e,
    snd (createAppointment_tx stripe now user payload patientData doctorData
           videoCalling w) = Err e
    /\ stripeSessions
         (fst (createAppointment_tx stripe now user payload patientData
                 doctorData videoCalling w)) = stripeSessions w.
Proof.
  intros Hdown.
  unfold createAppointment_tx. unfold_tables. unfold_ops.
  simpl.
  destruct (existsb _ (appointment (db w))); simpl; [eauto |].
  destruct (existsb _ (doctorSchedules (db w))); simpl; [| eauto].
  destruct (existsb _ (payment (db w))); simpl; [eauto |].
  destruct (existsb _ (payment (db w))); simpl; [eauto |].
  rewrite Hdown. simpl. eauto.
Qed.

(** A booking that fails leaves the database as it was. *)
Lemma createAppointment_failure_restores
    (stripe : SessionParams -> option string) (now : Z) (user : IAuthUser)
    (payload : BookingPayload) (w : World) (e : Error) :
  snd (createAppointment stripe now user payload w) = Err e ->
  db (fst (createAppointment stripe now user payload w)) = db w.
Proof.
  unfold createAppointment.
  rewrite (bind_run (bookingPreconditions user payload)).
  pose proof (bookingPreconditions_reads user payload w) as Hr.
  destruct (bookingPreconditions user payload w) as [w0 [[pd dd] | e0]];
    simpl in Hr; subst w0; [| reflexivity].
  unfold bind, uuidv4. intros H.
  apply transaction_throws_restores in H. rewrite H. reflexivity.
Qed.

Lemma createAppointmentWithPayLater_failure_restores
    (now : Z) (user : IAuthUser)
    (payload : BookingPayload) (w : World) (e : Error) :
  snd (createAppointmentWithPayLater now user payload w) = Err e ->
  db (fst (createAppointmentWithPayLater now user payload w)) = db w.
Proof.
  unfold createAppointmentWithPayLater.
  rewrite (bind_run (bookingPreconditions user payload)).
  pose proof (bookingPreconditions_reads user payload w) as Hr.
  destruct (bookingPreconditions user payload w) as [w0 [[pd dd] | e0]];
    simpl in Hr; subst w0; [| reflexivity].
  unfold bind, uuidv4. intros H.
  apply transaction_throws_restores in H. rewrite H. reflexivity.
Qed.

(** A booking that succeeds leaves no free row of its binding. *)
Lemma createAppointment_books
    (stripe : SessionParams -> option string) (now : Z) (user : IAuthUser)
    (payload : BookingPayload) (w w1 : World) (url : string) :
  createAppointment stripe now user payload w = (w1, Ok url) ->
  forall r, In r (doctorSchedules (db w1)) ->
            ds_doctorId r = payload_doctorId payload ->
            ds_scheduleId r = payload_scheduleId payload ->
            isBooked r = true.
Proof.
  unfold createAppointment.
  rewrite (bind_run (bookingPreconditions user payload)).
  pose proof (bookingPreconditions_found user payload w) as Hf.
  destruct (bookingPreconditions user payload w) as [w0 [[pd dd] | e0]];
    simpl in Hf; [| discriminate].
  destruct (Hf pd dd eq_refl) as [Hid _].
  unfold bind, uuidv4, transaction.
  match goal with
  | |- context [createAppointment_tx ?s ?n ?u ?p ?a ?b ?c ?x] =>
      destruct (createAppointment_tx s n u p a b c x) as [w2 [u2 | e2]] eqn:Htx
  end; [| discriminate].
  intros H. inversion H; subst; clear H.
  intros r Hin Hd Hs.
  eapply createAppointment_tx_books; eauto. congruence.
Qed.

Lemma createAppointmentWithPayLater_books
    (now : Z) (user : IAuthUser)
    (payload : BookingPayload) (w w1 : World) (a : Appointment) :
  createAppointmentWithPayLater now user payload w = (w1, Ok a) ->
  forall r, In r (doctorSchedules (db w1)) ->
            ds_doctorId r = payload_doctorId payload ->
            ds_scheduleId r = payload_scheduleId payload ->
            isBooked r = true.
Proof.
  unfold createAppointmentWithPayLater.
  rewrite (bind_run (bookingPreconditions user payload)).
  pose proof (bookingPreconditions_found user payload w) as Hf.
  destruct (bookingPreconditions user payload w) as [w0 [[pd dd] | e0]];
    simpl in Hf; [| discriminate].
  destruct (Hf pd dd eq_refl) as [Hid _].
  unfold bind, uuidv4, transaction.
  match goal with
  | |- context [createAppointmentWithPayLater_tx ?n ?p ?a ?b ?c ?x] =>
      destruct (createAppointmentWithPayLater_tx n p a b c x)
        as [w2 [u2 | e2]] eqn:Htx
  end; [| discriminate].
  intros H. inversion H; subst; clear H.
  intros r Hin Hd Hs.
  eapply createAppointmentWithPayLater_tx_books; eauto. congruence.
Qed.

(** A booking on a binding without a free row throws the look-up's
    not-found error and changes nothing at all. *)
Lemma createAppointment_booked
    (stripe : SessionParams -> option string) (now : Z) (user : IAuthUser)
    (payload : BookingPayload) (w : World) :
  (forall r, In r (doctorSchedules (db w)) ->
             ds_doctorId r = payload_doctorId payload ->
             ds_scheduleId r = payload_scheduleId payload ->
             isBooked r = true) ->
  exists model, createAppointment stripe now user payload w
                = (w, Err (NotFoundError model)).
Proof.
  intros Hb. destruct (bookingPreconditions_booked user payload w Hb)
    as [model Hm].
  exists model. unfold createAppointment, bind. rewrite Hm. reflexivity.
Qed.

Lemma createAppointmentWithPayLater_booked
    (now : Z) (user : IAuthUser)
    (payload : BookingPayload) (w : World) :
  (forall r, In r (doctorSchedules (db w)) ->
             ds_doctorId r = payload_doctorId payload ->
             ds_scheduleId r = payload_scheduleId payload ->
             isBooked r = true) ->
  exists model, createAppointmentWithPayLater now user payload w
                = (w, Err (NotFoundError model)).
Proof.
  intros Hb. destruct (bookingPreconditions_booked user payload w Hb)
    as [model Hm].
  exists model. unfold createAppointmentWithPayLater, bind.
  rewrite Hm. reflexivity.
Qed.

(** ** Booking on a binding that is already booked *)

(** The callbacks of the two booking transactions never read
    [isBooked]: their result is the same whatever the flags are. *)
Lemma booking_transactions_ignore_isBooked
    (stripe : SessionParams -> option string) (now : Z) (user : IAuthUser)
    (payload : BookingPayload) (patientData : Patient) (doctorData : Doctor)
    (videoCalling : nat) (flag : DoctorSchedules -> bool) (w : World) :
  snd (createAppointment_tx stripe now user payload patientData doctorData
         videoCalling (reflag flag w))
  = snd (createAppointment_tx stripe now user payload patientData doctorData
           videoCalling w)
  /\ snd (createAppointmentWithPayLater_tx now payload patientData
            doctorData videoCalling (reflag flag w))
     = snd (createAppointmentWithPayLater_tx now payload patientData
              doctorData videoCalling w).
Proof.
  unfold createAppointment_tx, createAppointmentWithPayLater_tx, reflag.
  unfold_tables. unfold_ops. simpl.
  destruct (existsb _ (appointment (db w))); simpl; [auto |].
  rewrite existsb_map_key by (intros r; apply same_binding_set_isBooked).
  destruct (existsb _ (doctorSchedules (db w))); simpl; [| auto].
  destruct (existsb (fun p => Nat.eqb (appointmentId p) _) (payment (db w)));
    simpl; [auto |].
  destruct (existsb (fun p => Nat.eqb (transactionId p) _) (payment (db w)));
    simpl; [auto |].
  destruct (stripe _); simpl; auto.
Qed.

(** C3 (as amended).  A booking (with immediate or deferred payment) on
    a binding that has no free row throws the not-found error of the
    availability look-up that precedes the transaction, and leaves the
    world as it was; in particular this is what a booking gets once an
    earlier booking of the same doctor and slot has succeeded.  The
    error handler answers that error with status 500, and the
    transaction itself does not read [isBooked] again. *)
Theorem booking_on_booked_binding_fails
    (stripe : SessionParams -> option string) (now : Z) (user : IAuthUser)
    (payload : BookingPayload) (w : World) :
  let rejected :=
    (exists model, createAppointment stripe now user payload w
                   = (w, Err (NotFoundError model)))
    /\ (exists model, createAppointmentWithPayLater now user payload w
                      = (w, Err (NotFoundError model))) in
  ((forall r, In r (doctorSchedules (db w)) ->
              ds_doctorId r = payload_doctorId payload ->
              ds_scheduleId r = payload_scheduleId payload ->
              isBooked r = true) -> rejected)
  /\ (forall now0 first w0 a,
        createAppointmentWithPayLater now0 first payload w0 = (w, Ok a) ->
        rejected)
  /\ (forall stripe0 now0 first w0 url,
        createAppointment stripe0 now0 first payload w0 = (w, Ok url) ->
        rejected)
  /\ (forall libraryMessage model,
        res_statusCode (globalErrorHandler libraryMessage
                          (NotFoundError model)) = 500)
  /\ (forall patientData doctorData videoCalling flag,
        snd (createAppointment_tx stripe now user payload patientData
               doctorData videoCalling (reflag flag w))
        = snd (createAppointment_tx stripe now user payload patientData
                 doctorData videoCalling w)
        /\ snd (createAppointmentWithPayLater_tx now payload patientData
                  doctorData videoCalling (reflag flag w))
           = snd (createAppointmentWithPayLater_tx now payload patientData
                    doctorData videoCalling w)).
Proof.
  intros rejected.
  assert (Hmain : (forall r, In r (doctorSchedules (db w)) ->
              ds_doctorId r = payload_doctorId payload ->
              ds_scheduleId r = payload_scheduleId payload ->
              isBooked r = true) -> rejected).
  { intros Hb. split.
    - now apply createAppointment_booked.
    - now apply createAppointmentWithPayLater_booked. }
  split; [exact Hmain |]. split; [| split; [| split]].
  - intros now0 first w0 a Hfirst. apply Hmain.
    eapply createAppointmentWithPayLater_books; eauto.
  - intros stripe0 now0 first w0 url Hfirst. apply Hmain.
    eapply createAppointment_books; eauto.
  - intros model. reflexivity.
  - intros patientData doctorData videoCalling flag.
    apply booking_transactions_ignore_isBooked.
Qed.

Lemma booking_on_booked_binding_fails_witness :
  createAppointment Example.gateway_up 2000 Example.bob Example.slot
    Example.booked
  = (Example.booked, Err (NotFoundError "DoctorSchedules")).
Proof.
  destruct (booking_on_booked_binding_fails Example.gateway_up 2000
              Example.bob Example.slot Example.booked) as [_ [Hlater _]].
  destruct (Hlater 1000%Z Example.alice Example.clinic
              {| appt_id := 101; patientId := 1; doctorId := 10;
                 scheduleId := 7; videoCallingId := 100;
                 status := SCHEDULED; paymentStatus := UNPAID;
                 createdAt := 1000; updatedAt := 1000 |} eq_refl)
    as [[model Hnow] _].
  rewrite Hnow. vm_compute in Hnow.
  inversion Hnow. reflexivity.
Defined.

(** C3 (as stated) fails.  The rejected booking does not end in a
    Conflict: the error is the look-up's not-found error, the same one a
    doctor without any binding for the slot produces, and the error
    handler answers it with status 500.  Nor is [isBooked] read again
    inside the transaction: run on a binding that is already booked, the
    callback commits. *)
Lemma booking_conflict_counterexample :
  createAppointment Example.gateway_up 2000 Example.bob Example.slot
    Example.booked
  = (Example.booked, Err (NotFoundError "DoctorSchedules"))
  /\ createAppointment Example.gateway_up 2000 Example.bob Example.slot
       Example.unbound
     = (Example.unbound, Err (NotFoundError "DoctorSchedules"))
  /\ (forall libraryMessage,
        res_statusCode (globalErrorHandler libraryMessage
                          (NotFoundError "DoctorSchedules"))
        <> CONFLICT)
  /\ snd (transaction
            (createAppointmentWithPayLater_tx 2000 Example.slot
               {| patient_id := 2; patient_email := "bob@mail" |}
               {| doctor_id := 10; doctor_name := "Dr. Rahman";
                  doctor_email := "rahman@mail"; appointmentFee := 500;
                  isDeleted := false |} 100) Example.held)
     = Ok {| appt_id := 100; patientId := 2; doctorId := 10;
             scheduleId := 7; videoCallingId := 100;
             status := SCHEDULED; paymentStatus := UNPAID;
             createdAt := 2000; updatedAt := 2000 |}.
Proof.
  repeat split; try reflexivity.
  vm_compute. discriminate.
Qed.

(** ** Gateway failure during a pay-now booking *)

(** C9.  When the gateway refuses the checkout session, [createAppointment]
    fails and the database is exactly what it was before the call: no
    appointment, no payment record, the binding still free; no session
    has been issued either. *)
Theorem createAppointment_gateway_failure_rolls_back
    (stripe : SessionParams -> option string) (now : Z) (user : IAuthUser)
    (payload : BookingPayload) (w : World) :
  (forall params, stripe params = None) ->
  (exists e, snd (createAppointment stripe now user payload w) = Err e)
  /\ db (fst (createAppointment stripe now user payload w)) = db w
  /\ stripeSessions (fst (createAppointment stripe now user payload w))
     = stripeSessions w.
Proof.
  intros Hdown.
  assert (Herr : exists e,
             snd (createAppointment stripe now user payload w) = Err e
             /\ stripeSessions
                  (fst (createAppointment stripe now user payload w))
                = stripeSessions w).
  { unfold createAppointment.
    rewrite (bind_run (bookingPreconditions user payload)).
    pose proof (bookingPreconditions_reads user payload w) as Hr.
    destruct (bookingPreconditions user payload w) as [w0 [[pd dd] | e0]];
      simpl in Hr; subst w0; [| simpl; eauto].
    rewrite bind_run. unfold uuidv4, transaction.
    match goal with
    | |- context [createAppointment_tx ?s ?n ?u ?p ?a ?b ?c ?x] =>
        destruct (createAppointment_tx_gateway_down s n u p a b c x Hdown)
          as [e [He Hs]];
        destruct (createAppointment_tx s n u p a b c x) as [w2 [u2 | e2]]
    end; simpl in *; [discriminate |].
    exists e2. split; [reflexivity | exact Hs]. }
  destruct Herr as [e [He Hs]].
  split; [eauto |]. split; [| exact Hs].
  eapply createAppointment_failure_restores; eauto.
Qed.

Lemma createAppointment_gateway_failure_rolls_back_witness :
  createAppointment Example.gateway_down 1000 Example.alice Example.slot
    Example.clinic
  = ({| db := Example.clinic_db; stripeSessions := []; uuidNext := 104;
        console := [] |}, Err StripeError)
  /\ db (fst (createAppointment Example.gateway_down 1000 Example.alice
                Example.slot Example.clinic)) = db Example.clinic.
Proof.
  split; [reflexivity |].
  apply (createAppointment_gateway_failure_rolls_back Example.gateway_down
           1000 Example.alice Example.slot Example.clinic).
  intros params. reflexivity.
Defined.

(** ** Payment initiation for an existing appointment *)

(** C10.  [initiatePaymentForAppointment] never writes to the database.
    It fails when no appointment with the given id belongs to the
    caller, when the appointment is not UNPAID and when it is CANCELED;
    when it answers a url, the appointment is the caller's, UNPAID and
    not CANCELED, and the url is the gateway's answer to a session
    request that carries the appointment id. *)
Theorem initiatePaymentForAppointment_read_only
    (stripe : SessionParams -> option string) (appointment_ : nat)
    (user : IAuthUser) (w : World) :
  let out := initiatePaymentForAppointment stripe appointment_ user w in
  db (fst out) = db w
  /\ (ownedAppointment appointment_ user (db w) = None ->
      exists e, snd out = Err e)
  /\ (forall a, ownedAppointment appointment_ user (db w) = Some a ->
                paymentStatus a <> UNPAID -> exists e, snd out = Err e)
  /\ (forall a, ownedAppointment appointment_ user (db w) = Some a ->
                status a = CANCELED -> exists e, snd out = Err e)
  /\ (forall url, snd out = Ok url ->
        exists a params,
          ownedAppointment appointment_ user (db w) = Some a
          /\ paymentStatus a = UNPAID /\ status a <> CANCELED
          /\ stripe params = Some url
          /\ sp_appointmentId params = appt_id a).
Proof.
  intros out; subst out.
  unfold initiatePaymentForAppointment, appointment_findUnique_include,
    ownedAppointment, stripe_checkout_sessions_create.
  unfold_ops. simpl.
  destruct (find _ (patient (db w))) as [pd |]; simpl.
  2:{ repeat split; eauto; intros; discriminate. }
  destruct (find _ (appointment (db w))) as [a |]; simpl.
  2:{ repeat split; eauto; intros; discriminate. }
  destruct (paymentStatus a) eqn:Hps; simpl.
  { repeat split; intros; try discriminate; eauto. }
  destruct (status a) eqn:Hst; simpl.
  3:{ repeat split; intros; try discriminate; eauto. }
  all: destruct (find _ (doctor (db w))) as [d |]; simpl;
    [ destruct (find _ (payment (db w))) as [p |]; simpl;
      [ destruct (stripe _) as [url |] eqn:Hgw; simpl | ] | ].
  all: repeat split; intros;
    repeat match goal with
           | H : Some _ = Some _ |- _ => inversion H; subst; clear H
           | H : Ok _ = Ok _ |- _ => inversion H; subst; clear H
           end;
    try discriminate; try congruence; eauto.
  all: eexists; eexists; repeat split; eauto; congruence.
Qed.

(** ** The webhook controller *)

(** C7.  Once the secret is configured and the signature verifies, the
    controller answers 200 with [success = true] whatever the service
    does: when the service returns, the world is the one it left; when
    it throws, the error is written to the console and the answer is
    still the acknowledgment. *)
Theorem webhook_always_acknowledged
    (webhookSecret : option string)
    (constructEvent : string -> string -> string -> Event + string)
    (service : Event -> M string) (req : Request)
    (secret : string) (event : Event) (w : World) :
  configured webhookSecret = Some secret ->
  constructEvent (body req) (stripe_signature req) secret = inl event ->
  exists w' r,
    PaymentController_handleStripeWebhookEvent webhookSecret constructEvent
      service req w = (w', Ok (Json r))
    /\ res_statusCode r = 200 /\ res_success r = true
    /\ match service event w with
       | (w1, Ok _) => w' = w1
       | (w1, Err _) =>
           db w' = db w1
           /\ console w' = console w1 ++ ["Error processing webhook"%string]
       end.
Proof.
  intros Hsecret Hsig.
  unfold PaymentController_handleStripeWebhookEvent.
  rewrite Hsecret, Hsig. unfold try_catch. unfold_ops.
  destruct (service event w) as [w1 [result | error]]; simpl.
  - eexists; eexists; repeat split.
  - eexists; eexists; repeat split.
Qed.

Lemma webhook_always_acknowledged_witness :
  snd (PaymentController_handleStripeWebhookEvent (Some "whsec_test"%string)
         (fun _ _ _ => inl Example.completed)
         (fun _ => throw (NotFoundError "Payment"))
         {| stripe_signature := "t=1,v1=5257"; body := "{}" |}
         Example.clinic)
  = Ok (Json {| res_statusCode := 200; res_success := true;
                res_message := "Webhook received but processing failed" |}).
Proof.
  destruct (@webhook_always_acknowledged (Some "whsec_test"%string)
              (fun _ _ _ => inl Example.completed)
              (fun _ => throw (NotFoundError "Payment"))
              {| stripe_signature := "t=1,v1=5257"; body := "{}" |}
              "whsec_test"%string Example.completed
              Example.clinic eq_refl eq_refl)
    as [w' [r [Hrun _]]].
  rewrite Hrun. vm_compute in Hrun. inversion Hrun. reflexivity.
Defined.

(** ** The sweep of unpaid appointments *)

Lemma release_step (a : Appointment) (rest : list Appointment)
    (r : DoctorSchedules) :
  release rest (if same_binding (doctorId a) (scheduleId a) r
                then set_isBooked false r else r)
  = release (a :: rest) r.
Proof.
  unfold release, selects. simpl.
  destruct (same_binding (doctorId a) (scheduleId a) r) eqn:Hk; simpl.
  - assert (He : forall l,
       existsb (fun a0 => same_binding (doctorId a0) (scheduleId a0)
                            (set_isBooked false r)) l
       = existsb (fun a0 => same_binding (doctorId a0) (scheduleId a0) r) l).
    { induction l as [| a0 l IHl]; simpl; [reflexivity |].
      now rewrite same_binding_set_isBooked, IHl. }
    rewrite He. destruct (existsb _ rest); reflexivity.
  - reflexivity.
Qed.

Lemma release_nil (t : list DoctorSchedules) : map (release []) t = t.
Proof. induction t; simpl; [reflexivity | now f_equal]. Qed.

Lemma set_doctorSchedules_same (d : DB) :
  set_doctorSchedules (doctorSchedules d) d = d.
Proof. destruct d; reflexivity. Qed.

(** The loop that frees the bindings either throws or maps [release]
    over the table. *)
Lemma releaseSchedules_outcome (sel : list Appointment) : forall w,
  match releaseSchedules sel w with
  | (w', Ok _) =>
      w' = set_db (set_doctorSchedules
                     (map (release sel) (doctorSchedules (db w))) (db w)) w
  | (_, Err _) => ~ bindings_present sel (db w)
  end.
Proof.
  induction sel as [| a rest IH]; intros w; simpl.
  - unfold ret. rewrite release_nil, set_doctorSchedules_same.
    now rewrite set_db_same.
  - unfold doctorSchedules_update. unfold_ops.
    destruct (existsb (same_binding (doctorId a) (scheduleId a))
                (doctorSchedules (db w))) eqn:Hex; simpl.
    + match goal with
      | |- context [releaseSchedules rest ?x] =>
          specialize (IH x); destruct (releaseSchedules rest x)
            as [w' [u | e]]
      end.
      * subst w'. unfold set_db, set_doctorSchedules. simpl.
        rewrite map_map.
        rewrite (map_ext _ _ (release_step a rest)). reflexivity.
      * intros Hp. apply IH. intros b Hb. simpl.
        rewrite existsb_map_key.
        -- apply Hp. now right.
        -- intros r. destruct (same_binding _ _ r); reflexivity.
    + intros Hp. specialize (Hp a (or_introl eq_refl)). congruence.
Qed.

Lemma cancelUnpaidAppointments_tx_outcome (now : Z)
    (sel : list Appointment) (w : World) :
  match cancelUnpaidAppointments_tx now sel w with
  | (w', Ok _) => w' = set_db (swept now sel (db w)) w
  | (_, Err _) => ~ bindings_present sel (db w)
  end.
Proof.
  unfold cancelUnpaidAppointments_tx, appointment_updateMany,
    payment_deleteMany. unfold_ops. simpl.
  match goal with
  | |- context [releaseSchedules sel ?x] =>
      pose proof (releaseSchedules_outcome sel x) as H;
      destruct (releaseSchedules sel x) as [w' [u | e]]
  end.
  - subst w'. reflexivity.
  - exact H.
Qed.

(** The sweep either commits [swept] for the rows it selected, or
    throws and leaves the database as it was. *)
Lemma cancelUnpaidAppointments_outcome (now : Z) (w : World) :
  let sel := filter (stale now) (appointment (db w)) in
  (cancelUnpaidAppointments now w = (set_db (swept now sel (db w)) w, Ok tt))
  \/ (~ bindings_present sel (db w)
      /\ db (fst (cancelUnpaidAppointments now w)) = db w).
Proof.
  intros sel. unfold cancelUnpaidAppointments, findMany.
  rewrite bind_run. unfold transaction. fold sel.
  pose proof (cancelUnpaidAppointments_tx_outcome now sel w) as H.
  destruct (cancelUnpaidAppointments_tx now sel w) as [w' [[] | e]].
  - left. now subst w'.
  - right. split; [exact H | reflexivity].
Qed.

Lemma inb_In (n : nat) (l : list nat) : inb n l = true <-> In n l.
Proof.
  unfold inb. rewrite existsb_exists. split.
  - intros [x [Hin Hx]]. apply Nat.eqb_eq in Hx. now subst.
  - intros Hin. exists n. split; [exact Hin | apply Nat.eqb_refl].
Qed.

Lemma stale_spec (now : Z) (a : Appointment) :
  stale now a = true
  <-> (createdAt a <= now - 30 * 60 * 1000)%Z /\ paymentStatus a = UNPAID.
Proof.
  unfold stale, isUNPAID. rewrite andb_true_iff, Z.leb_le.
  destruct (paymentStatus a); simpl; intuition congruence.
Qed.

Lemma release_key (sel : list Appointment) (doctor_ schedule_ : nat)
    (r : DoctorSchedules) :
  same_binding doctor_ schedule_ (release sel r)
  = same_binding doctor_ schedule_ r.
Proof. unfold release. destruct (selects sel r); reflexivity. Qed.

Lemma binding_swept (now : Z) (sel : list Appointment) (d : DB)
    (doctor_ schedule_ : nat) :
  binding doctor_ schedule_ (swept now sel d)
  = map (release sel) (binding doctor_ schedule_ d).
Proof.
  unfold binding. simpl.
  induction (doctorSchedules d) as [| r t IH]; simpl; [reflexivity |].
  rewrite release_key.
  destruct (same_binding doctor_ schedule_ r); simpl; now rewrite IH.
Qed.


(** ** The webhook service *)

Lemma existsb_find {R} (f : R -> bool) (l : list R) :
  existsb f l = match find f l with Some _ => true | None => false end.
Proof.
  induction l as [| x l IH]; simpl; [reflexivity |].
  destruct (f x); simpl; auto.
Qed.

Lemma find_none_existsb_and {R} (f g : R -> bool) (l : list R) :
  find f l = None -> existsb (fun x => g x && f x) l = false.
Proof.
  induction l as [| x l IH]; simpl; [reflexivity |].
  destruct (f x) eqn:Hf; [discriminate |].
  intros H. rewrite andb_false_r. simpl. auto.
Qed.

(** The database after a delivery, as a function of the database
    before it. *)
Lemma handleStripeWebhookEvent_db (now : Z) (ev : Event) (w : World) :
  db (fst (handleStripeWebhookEvent now ev w))
  = match applies ev (db w) with
    | Some (a, p) => markPaid now ev a p (db w)
    | None => db w
    end.
Proof.
  unfold handleStripeWebhookEvent, applies, correlation.
  unfold_ops. simpl.
  destruct (find _ (payment (db w))) eqn:Hgate; simpl; [reflexivity |].
  destruct (metadata (ev_object ev)) as [[[a |] [p |]] |]; simpl;
    try reflexivity.
  destruct (find _ (appointment (db w))) eqn:Happt; simpl; [| reflexivity].
  destruct (String.eqb (ev_type ev) "checkout.session.completed"); simpl.
  - unfold transaction, appointment_update, payment_update_paid.
    unfold_ops. simpl.
    rewrite (existsb_find _ (appointment (db w))), Happt. simpl.
    destruct (existsb (fun x => Nat.eqb (pay_id x) p) (payment (db w)));
      simpl; [| reflexivity].
    rewrite (find_none_existsb_and _ (fun x => negb (Nat.eqb (pay_id x) p))
               _ Hgate).
    reflexivity.
  - repeat (break_match; simpl; try reflexivity).
Qed.

Lemma find_map_hit {R} (f g : R -> bool) (h : R -> R) (l : list R) :
  existsb f l = true ->
  (forall x, f x = true -> g (h x) = true) ->
  find g (map h l) <> None.
Proof.
  induction l as [| x l IH]; simpl; [discriminate |].
  intros Hex Hh.
  destruct (g (h x)) eqn:Hg; [discriminate |].
  destruct (f x) eqn:Hf.
  - rewrite (Hh x Hf) in Hg. discriminate.
  - apply IH; auto.
Qed.

Lemma applies_payment_exists (ev : Event) (d : DB) (a p : nat) :
  applies ev d = Some (a, p) ->
  find (fun x => option_string_eqb (stripeEventId x) (ev_id ev)) (payment d)
  = None
  /\ existsb (fun x => Nat.eqb (pay_id x) p) (payment d) = true
  /\ existsb (fun x => Nat.eqb (appt_id x) a) (appointment d) = true
  /\ correlation ev = Some (a, p).
Proof.
  unfold applies.
  destruct (find _ (payment d)); [discriminate |].
  destruct (correlation ev) as [[a0 p0] |]; [| discriminate].
  destruct (find _ (appointment d)) eqn:Ha; [| discriminate].
  destruct (String.eqb (ev_type ev) _); simpl; [| discriminate].
  destruct (existsb _ (payment d)) eqn:Hp; [| discriminate].
  intros H. inversion H; subst. repeat split; auto.
  now rewrite existsb_find, Ha.
Qed.

Lemma gate_after_markPaid (now : Z) (ev : Event) (a p : nat) (d : DB) :
  existsb (fun x => Nat.eqb (pay_id x) p) (payment d) = true ->
  find (fun x => option_string_eqb (stripeEventId x) (ev_id ev))
       (payment (markPaid now ev a p d)) <> None.
Proof.
  intros Hex. unfold markPaid. simpl.
  apply find_map_hit with (f := fun x => Nat.eqb (pay_id x) p); auto.
  intros x Hx. rewrite Hx. simpl. apply String.eqb_refl.
Qed.

(** A delivery that writes is absorbed by the gate from then on. *)
Lemma applies_markPaid (now : Z) (ev : Event) (a p : nat) (d : DB) :
  applies ev d = Some (a, p) -> applies ev (markPaid now ev a p d) = None.
Proof.
  intros H. apply applies_payment_exists in H.
  destruct H as [_ [Hex _]].
  pose proof (@gate_after_markPaid now ev a p d Hex) as Hgate.
  unfold applies.
  destruct (find _ (payment (markPaid now ev a p d))); [reflexivity |].
  congruence.
Qed.

Lemma markPaid_changes_payments (now : Z) (ev : Event) (a p : nat) (d : DB) :
  applies ev d = Some (a, p) ->
  payment (markPaid now ev a p d) <> payment d.
Proof.
  intros H. apply applies_payment_exists in H.
  destruct H as [Hnone [Hex _]].
  pose proof (@gate_after_markPaid now ev a p d Hex) as Hgate.
  intros Heq. rewrite Heq in Hgate. congruence.
Qed.

Lemma applies_after_deliver (ev : Event) (w : World) (now : Z) :
  applies ev (db (deliver ev w now)) = None.
Proof.
  unfold deliver. rewrite handleStripeWebhookEvent_db.
  destruct (applies ev (db w)) as [[a p] |] eqn:H.
  - now apply applies_markPaid.
  - exact H.
Qed.

Lemma deliver_absorbed (ev : Event) (w : World) (now : Z) :
  applies ev (db w) = None -> db (deliver ev w now) = db w.
Proof.
  intros H. unfold deliver. now rewrite handleStripeWebhookEvent_db, H.
Qed.

Lemma replay_absorbed (ev : Event) (times : list Z) : forall w,
  applies ev (db w) = None -> db (replay ev times w) = db w.
Proof.
  unfold replay.
  induction times as [| now rest IH]; intros w H; simpl; [reflexivity |].
  rewrite IH.
  - now apply deliver_absorbed.
  - now rewrite deliver_absorbed.
Qed.

Lemma payment_writes_absorbed (ev : Event) (times : list Z) : forall w,
  applies ev (db w) = None -> payment_writes ev times w = 0.
Proof.
  induction times as [| now rest IH]; intros w H; simpl; [reflexivity |].
  rewrite IH by now rewrite deliver_absorbed.
  rewrite deliver_absorbed by exact H.
  destruct (list_eq_dec Payment_eq_dec _ _); [reflexivity | congruence].
Qed.

Lemma gate_finds (ev : Event) (d : DB) (p : Payment) :
  In p (payment d) -> stripeEventId p = Some (ev_id ev) ->
  exists q,
    find (fun x => option_string_eqb (stripeEventId x) (ev_id ev)) (payment d)
    = Some q.
Proof.
  intros Hin Hid.
  destruct (find _ (payment d)) as [q |] eqn:Hf; [eauto |].
  exfalso. apply (find_none _ _ Hf) in Hin.
  rewrite Hid in Hin. simpl in Hin. rewrite String.eqb_refl in Hin.
  discriminate.
Qed.

(** C1.  A delivery whose event id some payment record already holds is
    acknowledged as processed and changes no row of the database; the
    controller answers it with the success acknowledgment.  Hence the
    database after any number of deliveries of one event is the
    database after the first, and of all those deliveries only the
    first can change the payment table: it is changed exactly once when
    the first delivery is one that writes, and never otherwise. *)
Theorem webhook_replay_writes_once (ev : Event) (w : World) :
  (forall now p,
     In p (payment (db w)) -> stripeEventId p = Some (ev_id ev) ->
     snd (handleStripeWebhookEvent now ev w) = Ok "Event already processed"%string
     /\ db (deliver ev w now) = db w
     /\ forall webhookSecret constructEvent req secret,
          configured webhookSecret = Some secret ->
          constructEvent (body req) (stripe_signature req) secret = inl ev ->
          exists w',
            PaymentController_handleStripeWebhookEvent webhookSecret
              constructEvent (handleStripeWebhookEvent now) req w
            = (w', Ok (Json {| res_statusCode := 200; res_success := true;
                               res_message :=
                                 "Webhook processed successfully" |}))
            /\ db w' = db w)
  /\ (forall now times,
        db (replay ev (now :: times) w) = db (deliver ev w now))
  /\ (forall now times,
        payment_writes ev (now :: times) w
        = match applies ev (db w) with Some _ => 1 | None => 0 end).
Proof.
  split; [| split].
  - intros now p Hin Hid.
    destruct (gate_finds ev (db w) p Hin Hid) as [q Hq].
    assert (Hrun : handleStripeWebhookEvent now ev w
                   = (fst (console_log "Event already processed. Skipping." w),
                      Ok "Event already processed"%string)).
    { unfold handleStripeWebhookEvent. unfold_ops. simpl.
      rewrite Hq. reflexivity. }
    split; [now rewrite Hrun |].
    split; [unfold deliver; now rewrite Hrun |].
    intros webhookSecret constructEvent req secret Hs Hc.
    unfold PaymentController_handleStripeWebhookEvent.
    rewrite Hs, Hc. unfold try_catch. rewrite bind_run, Hrun.
    eexists. split; reflexivity.
  - intros now times. unfold replay. simpl.
    apply (@replay_absorbed ev times (deliver ev w now)
             (applies_after_deliver ev w now)).
  - intros now times. simpl.
    rewrite (@payment_writes_absorbed ev times (deliver ev w now)
               (applies_after_deliver ev w now)).
    destruct (list_eq_dec Payment_eq_dec _ _) as [Heq | Hne];
      destruct (applies ev (db w)) as [[a p] |] eqn:H; try reflexivity.
    + exfalso. unfold deliver in Heq.
      rewrite (handleStripeWebhookEvent_db now ev w), H in Heq.
      revert Heq. now apply markPaid_changes_payments.
    + exfalso. apply Hne. now rewrite deliver_absorbed.
Qed.

Lemma webhook_replay_writes_once_witness :
  payment_writes Example.completed (1500%Z :: repeat 2000%Z 999)
    Example.checkout = 1
  /\ snd (handleStripeWebhookEvent 2000 Example.completed Example.paid)
     = Ok "Event already processed"%string.
Proof.
  destruct (webhook_replay_writes_once Example.completed Example.checkout)
    as [_ [_ Hcount]].
  destruct (webhook_replay_writes_once Example.completed Example.paid)
    as [Hgate _].
  split.
  - rewrite Hcount. reflexivity.
  - apply (Hgate 2000%Z
             {| pay_id := 103; appointmentId := 101; amount := 500;
                transactionId := 102; pay_status := PAID;
                paymentGatewayData := Some (ev_object Example.completed);
                stripeEventId := Some "evt_1"%string;
                pay_createdAt := 1000; pay_updatedAt := 1500 |}).
    + left. reflexivity.
    + reflexivity.
Defined.

(** ** The sweep and the webhook on one appointment *)

Lemma swept_selected (now : Z) (sel : list Appointment) (d : DB)
    (a : Appointment) :
  In a sel -> In a (appointment d) ->
  In (set_status CANCELED now a) (appointment (swept now sel d))
  /\ (forall r, In r (binding (doctorId a) (scheduleId a) (swept now sel d))
                -> isBooked r = false)
  /\ paymentsOf (appt_id a) (swept now sel d) = [].
Proof.
  intros Hsel Hin.
  assert (Hid : inb (appt_id a) (map appt_id sel) = true).
  { apply inb_In. now apply in_map. }
  repeat split.
  - simpl. apply in_map_iff. exists a. split; [| exact Hin].
    unfold cancel. now rewrite Hid.
  - rewrite binding_swept. intros r Hr.
    apply in_map_iff in Hr. destruct Hr as [r0 [Heq Hr0]].
    apply filter_In in Hr0. destruct Hr0 as [_ Hk].
    subst r. unfold release.
    assert (Hs : selects sel r0 = true).
    { unfold selects. apply existsb_exists. exists a. auto. }
    now rewrite Hs.
  - unfold paymentsOf. simpl.
    match goal with
    | |- ?l = [] => destruct l as [| p t] eqn:Hl; [reflexivity |]
    end.
    assert (Hp : In p (p :: t)) by now left.
    rewrite <- Hl in Hp.
    apply filter_In in Hp. destruct Hp as [Hp Hpa].
    apply filter_In in Hp. destruct Hp as [_ Hkeep].
    apply Nat.eqb_eq in Hpa. rewrite Hpa, Hid in Hkeep. discriminate.
Qed.

Lemma NoDup_map_In_eq {A B} (f : A -> B) (l : list A) (x y : A) :
  NoDup (map f l) -> In x l -> In y l -> f x = f y -> x = y.
Proof.
  induction l as [| z l IH]; simpl; [contradiction |].
  intros Hnd Hx Hy Hf. inversion Hnd as [| ? ? Hnotin Hnd']; subst.
  destruct Hx as [Hx | Hx], Hy as [Hy | Hy]; subst; auto.
  - exfalso. apply Hnotin. rewrite Hf. now apply in_map.
  - exfalso. apply Hnotin. rewrite <- Hf. now apply in_map.
Qed.

(** A row that the sweep did not select, in a table without duplicate
    ids, is untouched by it, and so are its payment records. *)
Lemma swept_unselected (now : Z) (d : DB) (x : Appointment) :
  NoDup (map appt_id (appointment d)) ->
  In x (appointment d) -> stale now x = false ->
  let sel := filter (stale now) (appointment d) in
  In x (appointment (swept now sel d))
  /\ paymentsOf (appt_id x) (swept now sel d) = paymentsOf (appt_id x) d.
Proof.
  intros Hnd Hin Hfresh sel.
  assert (Hid : inb (appt_id x) (map appt_id sel) = false).
  { destruct (inb (appt_id x) (map appt_id sel)) eqn:Hi; [| reflexivity].
    apply inb_In in Hi. apply in_map_iff in Hi.
    destruct Hi as [y [Hy Hsel]].
    apply filter_In in Hsel. destruct Hsel as [Hyin Hstale].
    assert (y = x) by (eapply NoDup_map_In_eq; eauto).
    subst y. congruence. }
  split.
  - simpl. apply in_map_iff. exists x. split; [| exact Hin].
    unfold cancel. now rewrite Hid.
  - unfold paymentsOf. simpl.
    induction (payment d) as [| p t IH]; simpl; [reflexivity |].
    destruct (Nat.eqb (appointmentId p) (appt_id x)) eqn:Hp.
    + apply Nat.eqb_eq in Hp. rewrite Hp, Hid. simpl.
      rewrite <- Hp at 1. rewrite Nat.eqb_refl. now rewrite IH.
    + destruct (negb _); simpl; rewrite ?Hp; exact IH.
Qed.

Lemma applies_needs_payment (ev : Event) (d : DB) (a p : nat) :
  correlation ev = Some (a, p) ->
  existsb (fun x => Nat.eqb (pay_id x) p) (payment d) = false ->
  applies ev d = None.
Proof.
  intros Hc Hp. unfold applies. rewrite Hc, Hp, andb_false_r.
  repeat (break_match; try reflexivity).
Qed.

Lemma markPaid_appointment (now : Z) (ev : Event) (a p : nat) (d : DB)
    (x : Appointment) :
  In x (appointment (markPaid now ev a p d)) -> appt_id x = a ->
  paymentStatus x = PAID.
Proof.
  unfold markPaid. simpl. intros Hin Hid.
  apply in_map_iff in Hin. destruct Hin as [x0 [Hx Hin]].
  destruct (Nat.eqb (appt_id x0) a) eqn:Hk.
  - subst x. reflexivity.
  - subst x0. rewrite Hid, Nat.eqb_refl in Hk. discriminate.
Qed.

Lemma markPaid_ids (now : Z) (ev : Event) (a p : nat) (d : DB) :
  map appt_id (appointment (markPaid now ev a p d))
  = map appt_id (appointment d).
Proof.
  unfold markPaid. simpl. rewrite map_map. apply map_ext.
  intros x. destruct (Nat.eqb (appt_id x) a); reflexivity.
Qed.

Lemma releaseSchedules_result (sel : list Appointment) : forall w,
  match releaseSchedules sel w with
  | (_, Ok _) => bindings_present sel (db w)
  | (_, Err e) => e = NotFoundError "DoctorSchedules"
  end.
Proof.
  induction sel as [| a rest IH]; intros w; simpl.
  - intros b [].
  - unfold doctorSchedules_update. unfold_ops.
    destruct (existsb (same_binding (doctorId a) (scheduleId a))
                (doctorSchedules (db w))) eqn:Hex; simpl; [| reflexivity].
    match goal with
    | |- context [releaseSchedules rest ?x] =>
        specialize (IH x); destruct (releaseSchedules rest x)
          as [w' [u | e]]
    end; [| exact IH].
    intros b [Hb | Hb]; [now subst b |].
    specialize (IH b Hb). simpl in IH.
    rewrite existsb_map_key in IH; [exact IH |].
    intros r. destruct (same_binding _ _ r); reflexivity.
Qed.

(** The transaction of the sweep over any selection: it commits the
    swept database when every selected appointment has the row of its
    binding, and otherwise throws the not-found error of the binding
    update and leaves the database as it was. *)
Lemma cancelUnpaidAppointments_tx_commit_or_rollback (now : Z)
    (sel : list Appointment) (w : World) :
  (bindings_present sel (db w)
   /\ transaction (cancelUnpaidAppointments_tx now sel) w
      = (set_db (swept now sel (db w)) w, Ok tt))
  \/ (~ bindings_present sel (db w)
      /\ snd (transaction (cancelUnpaidAppointments_tx now sel) w)
         = Err (NotFoundError "DoctorSchedules")
      /\ db (fst (transaction (cancelUnpaidAppointments_tx now sel) w))
         = db w).
Proof.
  unfold transaction.
  pose proof (cancelUnpaidAppointments_tx_outcome now sel w) as Hout.
  revert Hout.
  unfold cancelUnpaidAppointments_tx, appointment_updateMany,
    payment_deleteMany. unfold_ops. simpl.
  match goal with
  | |- context [releaseSchedules sel ?x] =>
      pose proof (releaseSchedules_result sel x) as H;
      destruct (releaseSchedules sel x) as [w' [[] | e]]
  end.
  - intros Hw. left. split; [exact H | now rewrite Hw].
  - intros Hno. right. subst e. repeat split; assumption.
Qed.

(** C4 (as amended).  The sweep is one transaction over the rows its
    query selected beforehand, and it does not read [paymentStatus]
    again: whatever the rows look like by then, it cancels every
    selected appointment, deletes their payment records and frees
    their bindings, provided each selected appointment has the row of
    its binding; otherwise the transaction throws and the whole batch
    is rolled back.  Run one after the other, the sweep and the webhook
    leave one of two states.  When the webhook has written first, the
    appointment is PAID, the sweep does not select it and leaves it and
    its payment record as they are.  When the sweep has committed
    first, the appointment has status CANCELED and is UNPAID, its
    binding is free and it has no payment record, and the completing
    event changes nothing. *)
Theorem sweep_and_webhook_in_sequence (now t : Z) (ev : Event) (w : World) :
  (forall sel,
     (bindings_present sel (db w) ->
      transaction (cancelUnpaidAppointments_tx now sel) w
      = (set_db (swept now sel (db w)) w, Ok tt))
     /\ (~ bindings_present sel (db w) ->
         snd (transaction (cancelUnpaidAppointments_tx now sel) w)
         = Err (NotFoundError "DoctorSchedules")
         /\ db (fst (transaction (cancelUnpaidAppointments_tx now sel) w))
            = db w))
  /\ (forall a p x,
        applies ev (db w) = Some (a, p) ->
        NoDup (map appt_id (appointment (db w))) ->
        let w1 := deliver ev w t in
        let w2 := fst (cancelUnpaidAppointments now w1) in
        In x (appointment (db w1)) -> appt_id x = a ->
        paymentStatus x = PAID
        /\ In x (appointment (db w2))
        /\ paymentsOf a (db w2) = paymentsOf a (db w1))
  /\ (forall a p,
        bindings_present (filter (stale now) (appointment (db w))) (db w) ->
        In a (appointment (db w)) -> stale now a = true ->
        correlation ev = Some (appt_id a, p) ->
        (forall q, In q (payment (db w)) -> pay_id q = p ->
                   appointmentId q = appt_id a) ->
        let w1 := fst (cancelUnpaidAppointments now w) in
        let w2 := deliver ev w1 t in
        db w2 = db w1
        /\ In (set_status CANCELED now a) (appointment (db w2))
        /\ status (set_status CANCELED now a) = CANCELED
        /\ paymentStatus (set_status CANCELED now a) = UNPAID
        /\ (forall x, In x (appointment (db w2)) -> appt_id x = appt_id a ->
                      status x = CANCELED)
        /\ (forall r, In r (binding (doctorId a) (scheduleId a) (db w2)) ->
                      isBooked r = false)
        /\ paymentsOf (appt_id a) (db w2) = []).
Proof.
  split; [| split].
  - intros sel.
    destruct (cancelUnpaidAppointments_tx_commit_or_rollback now sel w)
      as [[Hp Hok] | [Hno Hfail]].
    + split; [intros _; exact Hok | intros Habs; contradiction].
    + split; [intros Habs; contradiction | intros _; exact Hfail].
  - intros a p x Happ Hnd w1 w2 Hin Hid.
    assert (Hdb : db w1 = markPaid t ev a p (db w)).
    { unfold w1, deliver. now rewrite handleStripeWebhookEvent_db, Happ. }
    assert (Hpaid : paymentStatus x = PAID).
    { rewrite Hdb in Hin. eapply markPaid_appointment; eauto. }
    split; [exact Hpaid |].
    destruct (cancelUnpaidAppointments_outcome now w1) as [Hok | [_ Hsame]].
    + unfold w2. rewrite Hok. simpl fst. rewrite db_set_db.
      rewrite <- Hid. apply swept_unselected; auto.
      * rewrite Hdb, markPaid_ids. exact Hnd.
      * unfold stale, isUNPAID. rewrite Hpaid. apply andb_false_r.
    + unfold w2. rewrite Hsame. auto.
  - intros a p Hpresent Hin Hstale Hc Hpay w1 w2.
    assert (Hsel : In a (filter (stale now) (appointment (db w))))
      by (apply filter_In; auto).
    destruct (cancelUnpaidAppointments_outcome now w) as [Hok | [Hno _]];
      [| contradiction].
    assert (Hdb1 : db w1
                   = swept now (filter (stale now) (appointment (db w)))
                           (db w)).
    { unfold w1. now rewrite Hok. }
    assert (Hid : inb (appt_id a)
                    (map appt_id
                       (filter (stale now) (appointment (db w)))) = true).
    { apply inb_In. now apply in_map. }
    assert (Hsame : db w2 = db w1).
    { unfold w2. apply deliver_absorbed.
      apply applies_needs_payment with (a := appt_id a) (p := p); auto.
      rewrite Hdb1. simpl.
      destruct (existsb _ _) eqn:Hex; [| reflexivity].
      apply existsb_exists in Hex. destruct Hex as [q [Hq Hqp]].
      apply filter_In in Hq. destruct Hq as [Hq Hkeep].
      apply Nat.eqb_eq in Hqp.
      rewrite (Hpay q Hq Hqp) in Hkeep.
      rewrite Hid in Hkeep. discriminate. }
    split; [exact Hsame |].
    rewrite Hsame, Hdb1.
    destruct (@swept_selected now _ (db w) a Hsel Hin) as [H1 [H2 H3]].
    apply stale_spec in Hstale.
    split; [exact H1 |]. split; [reflexivity |].
    split; [apply Hstale |]. split; [| split; [exact H2 | exact H3]].
    intros x Hx Hxid. simpl in Hx. apply in_map_iff in Hx.
    destruct Hx as [x0 [Hx0 _]]. subst x. unfold cancel in *.
    destruct (inb (appt_id x0) _) eqn:Hi; [reflexivity |].
    rewrite Hxid, Hid in Hi. discriminate.
Qed.

Lemma sweep_and_webhook_in_sequence_witness :
  (let w1 := deliver Example.completed Example.checkout 1500 in
   let w2 := fst (cancelUnpaidAppointments Example.later w1) in
   In (set_paymentStatus PAID 1500 (Example.reservation 101 100))
      (appointment (db w2)))
  /\ (let w1 := fst (cancelUnpaidAppointments Example.later
                       Example.checkout) in
      let w2 := deliver Example.completed w1 1861500 in
      In {| appt_id := 101; patientId := 1; doctorId := 10; scheduleId := 7;
            videoCallingId := 100; status := CANCELED;
            paymentStatus := UNPAID; createdAt := 1000;
            updatedAt := Example.later |}
         (appointment (db w2))
      /\ (forall x, In x (appointment (db w2)) -> appt_id x = 101 ->
                    status x = CANCELED)
      /\ paymentsOf 101 (db w2) = [])
  /\ (let batch := appointment (db Example.orphaned) in
      snd (transaction (cancelUnpaidAppointments_tx Example.later batch)
             Example.orphaned)
      = Err (NotFoundError "DoctorSchedules")
      /\ db (fst (transaction
                    (cancelUnpaidAppointments_tx Example.later batch)
                    Example.orphaned))
         = db Example.orphaned).
Proof.
  split; [| split].
  - destruct (sweep_and_webhook_in_sequence Example.later 1500
                Example.completed Example.checkout) as [_ [Hfirst _]].
    apply (Hfirst 101 103
             (set_paymentStatus PAID 1500 (Example.reservation 101 100))).
    + reflexivity.
    + simpl. repeat constructor. simpl. tauto.
    + left. reflexivity.
    + reflexivity.
  - destruct (sweep_and_webhook_in_sequence Example.later 1861500
                Example.completed Example.checkout) as [_ [_ Hsecond]].
    destruct (Hsecond (Example.reservation 101 100) 103)
      as [_ [H1 [_ [_ [Hall [_ H2]]]]]].
    + intros a Ha. simpl in Ha. destruct Ha as [Ha | []]. subst a.
      reflexivity.
    + left. reflexivity.
    + reflexivity.
    + reflexivity.
    + intros q Hq _. simpl in Hq. destruct Hq as [Hq | []]. subst q.
      reflexivity.
    + split; [exact H1 |]. split; [exact Hall | exact H2].
  - destruct (sweep_and_webhook_in_sequence Example.later 0
                Example.completed Example.orphaned) as [Hbatch _].
    destruct (Hbatch (appointment (db Example.orphaned))) as [_ Hrollback].
    apply Hrollback. intros Hpresent.
    assert (Hbob : In {| appt_id := 105; patientId := 2; doctorId := 10;
                         scheduleId := 8; videoCallingId := 104;
                         status := SCHEDULED; paymentStatus := UNPAID;
                         createdAt := 1001; updatedAt := 1001 |}
                      (appointment (db Example.orphaned)))
      by (right; left; reflexivity).
    apply Hpresent in Hbob. discriminate Hbob.
Defined.

(** C4 (as stated) fails.  The sweep's query runs while the appointment
    is still UNPAID, the webhook then commits PAID, and the sweep's
    transaction, which does not look at [paymentStatus] again, cancels
    the appointment, deletes its payment record and frees its binding:
    the appointment ends PAID and CANCELED with no payment record. *)
Lemma sweep_overtaken_by_webhook_counterexample :
  let selected := filter (stale Example.later)
                         (appointment (db Example.checkout)) in
  let w1 := deliver Example.completed Example.checkout 1860500 in
  let w2 := fst (transaction
                   (cancelUnpaidAppointments_tx Example.later selected) w1) in
  selected = [Example.reservation 101 100]
  /\ appointment (db w1)
     = [set_paymentStatus PAID 1860500 (Example.reservation 101 100)]
  /\ appointment (db w2)
     = [ {| appt_id := 101; patientId := 1; doctorId := 10; scheduleId := 7;
            videoCallingId := 100; status := CANCELED;
            paymentStatus := PAID; createdAt := 1000;
            updatedAt := Example.later |} ]
  /\ payment (db w2) = []
  /\ doctorSchedules (db w2)
     = [ {| ds_doctorId := 10; ds_scheduleId := 7; isBooked := false |} ].
Proof.
  vm_compute. repeat split.
Qed.

(** ** The invariant of the store *)

Lemma in_snoc {A} (x y : A) (l : list A) :
  In x (l ++ [y]) <-> In x l \/ x = y.
Proof.
  rewrite in_app_iff. simpl. intuition.
Qed.

Lemma coherent_untouched (w w' : World) :
  coherent_world w -> untouched w w' -> coherent_world w'.
Proof.
  unfold coherent_world, untouched. intros Hc [Hdb [Hs Hn]].
  rewrite Hdb, Hs. destruct Hc. constructor; intros; eauto.
  - eapply Nat.lt_le_trans; eauto.
  - eapply Nat.lt_le_trans; eauto.
  - eapply Nat.lt_le_trans; eauto.
Qed.

Lemma coherent_reserves (b : bool) (w w' : World) :
  coherent_world w -> reserves b w w' -> coherent_world w'.
Proof.
  unfold coherent_world.
  intros Hc [a [p [s [HA [HP [Ha [Hp [Hpa [Hua [Hup [Hnew [Hn [Hsa
    [Hsp HS]]]]]]]]]]]]]].
  rewrite HA, HP, HS, Hn. destruct Hc.
  assert (HinS : forall s', In s' (stripeSessions w ++
                                   (if b then [s] else [])) ->
                            In s' (stripeSessions w) \/ s' = s).
  { intros s' H. apply in_app_iff in H. destruct H as [H | H]; auto.
    destruct b; simpl in H; intuition. }
  constructor.
  - intros a' p' Hin Hip Heq.
    apply in_snoc in Hin. apply in_snoc in Hip.
    destruct Hin as [Hin | Hin], Hip as [Hip | Hip]; subst; eauto.
    + apply coh_appointment_ids0 in Hin. lia.
    + exfalso. eapply Hnew; eauto.
    + rewrite Hua, Hup. split; discriminate.
  - intros s' p' Hs' Hip Heq.
    apply HinS in Hs'. apply in_snoc in Hip.
    destruct Hs' as [Hs' | Hs'], Hip as [Hip | Hip]; subst; eauto.
    + apply coh_session_ids0 in Hs'. lia.
    + apply coh_payment_ids0 in Hip. lia.
    + congruence.
  - intros p' Hip. apply in_snoc in Hip.
    destruct Hip as [Hip | Hip]; subst.
    + apply coh_payment_ids0 in Hip. lia.
    + lia.
  - intros s' Hs'. apply HinS in Hs'.
    destruct Hs' as [Hs' | Hs']; subst.
    + apply coh_session_ids0 in Hs'. lia.
    + lia.
  - intros a' Hin. apply in_snoc in Hin.
    destruct Hin as [Hin | Hin]; subst.
    + apply coh_appointment_ids0 in Hin. lia.
    + lia.
  - intros p' q' Hip Hiq Heq.
    apply in_snoc in Hip. apply in_snoc in Hiq.
    destruct Hip as [Hip | Hip], Hiq as [Hiq | Hiq]; subst; eauto.
    + exfalso. eapply Hnew; eauto. congruence.
    + exfalso. eapply Hnew; eauto. congruence.
  - intros p' q' Hip Hiq Heq.
    apply in_snoc in Hip. apply in_snoc in Hiq.
    destruct Hip as [Hip | Hip], Hiq as [Hiq | Hiq]; subst; eauto.
    + apply coh_payment_ids0 in Hip. lia.
    + apply coh_payment_ids0 in Hiq. lia.
Qed.

Lemma coherent_session (A : list Appointment) (P : list Payment)
    (S : list SessionParams) (n : nat) (s : SessionParams) (p0 : Payment) :
  coherent A P S n -> In p0 P ->
  sp_paymentId s = pay_id p0 -> sp_appointmentId s = appointmentId p0 ->
  coherent A P (S ++ [s]) n.
Proof.
  intros Hc Hin Hsp Hsa. destruct Hc. constructor; eauto.
  - intros s' p' Hs' Hip Heq. apply in_snoc in Hs'.
    destruct Hs' as [Hs' | Hs']; subst; eauto.
    assert (p' = p0) by (apply coh_payment_key0; auto; congruence).
    subst. congruence.
  - intros s' Hs'. apply in_snoc in Hs'.
    destruct Hs' as [Hs' | Hs']; subst; eauto.
    rewrite Hsp. auto.
Qed.

Lemma coherent_shrink (A A' : list Appointment) (P P' : list Payment)
    (S : list SessionParams) (n : nat) :
  coherent A P S n ->
  (forall a', In a' A' ->
     exists a, In a A /\ appt_id a' = appt_id a
               /\ paymentStatus a' = paymentStatus a) ->
  (forall p, In p P' -> In p P) ->
  coherent A' P' S n.
Proof.
  intros Hc HA HP. destruct Hc. constructor; eauto.
  - intros a' p Hin Hip Heq.
    destruct (HA a' Hin) as [a [Ha [Hid Hps]]].
    rewrite Hps. apply coh_consistent0; auto. congruence.
  - intros a' Hin. destruct (HA a' Hin) as [a [Ha [Hid _]]].
    rewrite Hid. auto.
Qed.

Lemma coherent_markPaid (now : Z) (session : StripeObject) (event_id : string)
    (a p : nat) (A : list Appointment) (P : list Payment)
    (S : list SessionParams) (n : nat) :
  coherent A P S n ->
  (exists s, In s S /\ sp_appointmentId s = a /\ sp_paymentId s = p) ->
  existsb (fun x => Nat.eqb (pay_id x) p) P = true ->
  coherent
    (map (fun x => if Nat.eqb (appt_id x) a
                   then set_paymentStatus PAID now x else x) A)
    (map (fun x => if Nat.eqb (pay_id x) p
                   then set_paid session event_id now x else x) P)
    S n.
Proof.
  intros Hc [s [Hs [Hsa Hsp]]] Hex. destruct Hc.
  apply existsb_exists in Hex. destruct Hex as [q0 [Hq0 Hq0p]].
  apply Nat.eqb_eq in Hq0p.
  assert (Hq0a : appointmentId q0 = a).
  { rewrite <- Hsa. apply coh_sessions0; auto. congruence. }
  set (fa := fun x => if Nat.eqb (appt_id x) a
                      then set_paymentStatus PAID now x else x).
  set (fp := fun x => if Nat.eqb (pay_id x) p
                      then set_paid session event_id now x else x).
  assert (Hfa : forall x, appt_id (fa x) = appt_id x).
  { intros x. unfold fa. destruct (Nat.eqb (appt_id x) a); reflexivity. }
  assert (Hfp : forall x, pay_id (fp x) = pay_id x
                          /\ appointmentId (fp x) = appointmentId x).
  { intros x. unfold fp. destruct (Nat.eqb (pay_id x) p); split;
      reflexivity. }
  constructor.
  - intros a' p' Hin Hip Heq.
    apply in_map_iff in Hin. destruct Hin as [a0 [Ha0 Hin]].
    apply in_map_iff in Hip. destruct Hip as [p0 [Hp0 Hip]].
    subst a' p'.
    rewrite Hfa in Heq. rewrite (proj2 (Hfp p0)) in Heq.
    unfold fa, fp.
    destruct (Nat.eqb (appt_id a0) a) eqn:Ha;
      destruct (Nat.eqb (pay_id p0) p) eqn:Hp; simpl.
    + split; reflexivity.
    + exfalso. apply Nat.eqb_eq in Ha. apply Nat.eqb_neq in Hp.
      apply Hp.
      assert (Hpq : p0 = q0) by (apply coh_one_payment0; auto; congruence).
      rewrite Hpq. exact Hq0p.
    + exfalso. apply Nat.eqb_neq in Ha. apply Nat.eqb_eq in Hp.
      apply Ha. rewrite <- Heq.
      assert (Hpq : p0 = q0) by (apply coh_payment_key0; auto; congruence).
      rewrite Hpq. exact Hq0a.
    + auto.
  - intros s' p' Hs' Hip Heq.
    apply in_map_iff in Hip. destruct Hip as [p0 [Hp0 Hip]]. subst p'.
    destruct (Hfp p0) as [H1 H2]. rewrite H2. rewrite H1 in Heq. eauto.
  - intros p' Hip.
    apply in_map_iff in Hip. destruct Hip as [p0 [Hp0 Hip]]. subst p'.
    rewrite (proj1 (Hfp p0)). auto.
  - auto.
  - intros a' Hin.
    apply in_map_iff in Hin. destruct Hin as [a0 [Ha0 Hin]]. subst a'.
    rewrite Hfa. auto.
  - intros p' q' Hip Hiq Heq.
    apply in_map_iff in Hip. destruct Hip as [p0 [Hp0 Hip]].
    apply in_map_iff in Hiq. destruct Hiq as [q1 [Hq1 Hiq]].
    subst p' q'. rewrite !(proj2 (Hfp _)) in Heq.
    f_equal. auto.
  - intros p' q' Hip Hiq Heq.
    apply in_map_iff in Hip. destruct Hip as [p0 [Hp0 Hip]].
    apply in_map_iff in Hiq. destruct Hiq as [q1 [Hq1 Hiq]].
    subst p' q'. rewrite !(proj1 (Hfp _)) in Heq.
    f_equal. auto.
Qed.

Lemma existsb_false_In {R} (f : R -> bool) (l : list R) (x : R) :
  existsb f l = false -> In x l -> f x = false.
Proof.
  intros H Hin. destruct (f x) eqn:Hf; [| reflexivity].
  assert (existsb f l = true) by (apply existsb_exists; eauto).
  congruence.
Qed.

(** The transaction of a deferred-payment booking either commits a
    reservation or leaves everything but the uuid counter alone. *)
Lemma pay_later_commit_outcome (now : Z) (payload : BookingPayload)
    (patientData : Patient) (doctorData : Doctor) (videoCalling : nat)
    (w : World) :
  let w' := fst (transaction
                   (createAppointmentWithPayLater_tx now payload patientData
                      doctorData videoCalling) w) in
  reserves false w w' \/ untouched w w'.
Proof.
  unfold transaction, createAppointmentWithPayLater_tx.
  unfold_tables. unfold_ops. simpl.
  destruct (existsb _ (appointment (db w))); simpl.
  { right. repeat split; simpl; auto. }
  destruct (existsb _ (doctorSchedules (db w))); simpl.
  2:{ right. repeat split; simpl; auto. }
  destruct (existsb _ (payment (db w))) eqn:Hone; simpl.
  { right. repeat split; simpl; auto. }
  destruct (existsb (fun p => Nat.eqb (transactionId p) _) (payment (db w)));
    simpl.
  { right. repeat split; simpl; auto. }
  left. unfold reserves. simpl.
  eexists. eexists.
  exists {| customer_email := ""; product_name := ""; unit_amount := 0;
            sp_appointmentId := uuidNext w;
            sp_paymentId := uuidNext w + 2 |}.
  repeat split; simpl; try reflexivity; try lia.
  - intros q Hq Heq.
    apply (existsb_false_In _ _ q Hone) in Hq.
    apply Nat.eqb_neq in Hq. contradiction.
  - now rewrite app_nil_r.
Qed.

(** The transaction of a pay-now booking either commits a reservation
    together with its session, or leaves everything but the uuid
    counter alone. *)
Lemma booking_commit_outcome (stripe : SessionParams -> option string)
    (now : Z) (user : IAuthUser) (payload : BookingPayload)
    (patientData : Patient) (doctorData : Doctor) (videoCalling : nat)
    (w : World) :
  let w' := fst (transaction
                   (createAppointment_tx stripe now user payload patientData
                      doctorData videoCalling) w) in
  reserves true w w' \/ untouched w w'.
Proof.
  unfold transaction, createAppointment_tx.
  unfold_tables. unfold_ops. simpl.
  destruct (existsb _ (appointment (db w))); simpl.
  { right. repeat split; simpl; auto. }
  destruct (existsb _ (doctorSchedules (db w))); simpl.
  2:{ right. repeat split; simpl; auto. }
  destruct (existsb _ (payment (db w))) eqn:Hone; simpl.
  { right. repeat split; simpl; auto. }
  destruct (existsb (fun p => Nat.eqb (transactionId p) _) (payment (db w)));
    simpl.
  { right. repeat split; simpl; auto. }
  destruct (stripe _) eqn:Hgw; simpl.
  2:{ right. repeat split; simpl; auto. }
  left. unfold reserves. simpl.
  eexists. eexists. eexists.
  repeat split; simpl; try reflexivity; try lia.
  - intros q Hq Heq.
    apply (existsb_false_In _ _ q Hone) in Hq.
    apply Nat.eqb_neq in Hq. contradiction.
Qed.

Lemma coherent_uuid (w : World) :
  coherent_world w -> coherent_world (fst (uuidv4 w)).
Proof.
  intros Hc. apply (coherent_untouched Hc).
  unfold untouched, uuidv4. simpl. auto.
Qed.

Lemma coherent_createAppointmentWithPayLater (now : Z) (user : IAuthUser)
    (payload : BookingPayload) (w : World) :
  coherent_world w ->
  coherent_world (fst (createAppointmentWithPayLater now user payload w)).
Proof.
  intros Hc. unfold createAppointmentWithPayLater.
  rewrite (bind_run (bookingPreconditions user payload)).
  pose proof (bookingPreconditions_reads user payload w) as Hr.
  destruct (bookingPreconditions user payload w) as [w0 [[pd dd] | e0]];
    simpl in Hr; subst w0; [| exact Hc].
  rewrite bind_run.
  pose proof (coherent_uuid Hc) as Hu.
  destruct (uuidv4 w) as [wu [v | e]] eqn:Huuid; [| discriminate].
  simpl in Hu.
  destruct (pay_later_commit_outcome now payload pd dd v wu) as [H | H].
  - eapply coherent_reserves; eauto.
  - eapply coherent_untouched; eauto.
Qed.

Lemma coherent_createAppointment (stripe : SessionParams -> option string)
    (now : Z) (user : IAuthUser) (payload : BookingPayload) (w : World) :
  coherent_world w ->
  coherent_world (fst (createAppointment stripe now user payload w)).
Proof.
  intros Hc. unfold createAppointment.
  rewrite (bind_run (bookingPreconditions user payload)).
  pose proof (bookingPreconditions_reads user payload w) as Hr.
  destruct (bookingPreconditions user payload w) as [w0 [[pd dd] | e0]];
    simpl in Hr; subst w0; [| exact Hc].
  rewrite bind_run.
  pose proof (coherent_uuid Hc) as Hu.
  destruct (uuidv4 w) as [wu [v | e]] eqn:Huuid; [| discriminate].
  simpl in Hu.
  destruct (booking_commit_outcome stripe now user payload pd dd v wu)
    as [H | H].
  - eapply coherent_reserves; eauto.
  - eapply coherent_untouched; eauto.
Qed.

Lemma coherent_initiatePaymentForAppointment
    (stripe : SessionParams -> option string) (appointment_ : nat)
    (user : IAuthUser) (w : World) :
  coherent_world w ->
  coherent_world
    (fst (initiatePaymentForAppointment stripe appointment_ user w)).
Proof.
  intros Hc.
  unfold initiatePaymentForAppointment, appointment_findUnique_include,
    stripe_checkout_sessions_create.
  unfold_ops. simpl.
  destruct (find _ (patient (db w))) as [pd |]; simpl; [| exact Hc].
  destruct (find _ (appointment (db w))) as [a |]; simpl; [| exact Hc].
  destruct (isUNPAID (paymentStatus a)); simpl; [| exact Hc].
  destruct (AppointmentStatus_eqb (status a) CANCELED); simpl; [exact Hc |].
  destruct (find _ (doctor (db w))) as [d |]; simpl; [| exact Hc].
  destruct (find _ (payment (db w))) as [p |] eqn:Hp; simpl; [| exact Hc].
  destruct (stripe _) as [url |]; simpl; [| exact Hc].
  apply find_some in Hp. destruct Hp as [Hin Hpa].
  apply Nat.eqb_eq in Hpa.
  unfold coherent_world. simpl.
  eapply coherent_session; eauto.
Qed.

Lemma coherent_updateAppointmentStatus (now : Z) (appointment_ : nat)
    (st : AppointmentStatus) (user : IAuthUser) (w : World) :
  coherent_world w ->
  coherent_world
    (fst (updateAppointmentStatus now appointment_ st user w)).
Proof.
  intros Hc.
  assert (Hwrite : coherent_world
                     (fst (appointment_update appointment_
                             (set_status st now) w))).
  { unfold appointment_update. unfold_ops. simpl.
    destruct (existsb _ (appointment (db w))); simpl; [| exact Hc].
    unfold coherent_world. simpl.
    eapply coherent_shrink; eauto.
    intros a' Hin. apply in_map_iff in Hin.
    destruct Hin as [a [Ha Hin]]. exists a.
    destruct (Nat.eqb (appt_id a) appointment_); subst a'; auto. }
  unfold updateAppointmentStatus.
  unfold findFirstOrThrow, findFirst, throw, ret.
  rewrite !bind_run.
  destruct (find _ (appointment (db w))) as [a |]; simpl; [| exact Hc].
  rewrite !bind_run. simpl.
  destruct (UserRole_eqb (role user) DOCTOR); simpl.
  - destruct (find _ (doctor (db w))) as [d |]; simpl; [| exact Hc].
    destruct (negb _); simpl; [exact Hc | exact Hwrite].
  - exact Hwrite.
Qed.

Lemma releaseSchedules_frame (sel : list Appointment) : forall w,
  stripeSessions (fst (releaseSchedules sel w)) = stripeSessions w
  /\ uuidNext (fst (releaseSchedules sel w)) = uuidNext w.
Proof.
  induction sel as [| a rest IH]; intros w; simpl; [auto |].
  unfold doctorSchedules_update. unfold_ops.
  destruct (existsb _ (doctorSchedules (db w))); simpl; [| auto].
  match goal with
  | |- context [releaseSchedules rest ?x] =>
      destruct (IH x) as [H1 H2];
      destruct (releaseSchedules rest x) as [w' [u | e]]
  end; simpl in *; auto.
Qed.

Lemma coherent_sweep_commit (now : Z) (sel : list Appointment) (w : World) :
  coherent_world w ->
  coherent_world
    (fst (transaction (cancelUnpaidAppointments_tx now sel) w)).
Proof.
  intros Hc. unfold transaction.
  pose proof (cancelUnpaidAppointments_tx_outcome now sel w) as Hout.
  assert (Hframe :
            stripeSessions (fst (cancelUnpaidAppointments_tx now sel w))
            = stripeSessions w
            /\ uuidNext (fst (cancelUnpaidAppointments_tx now sel w))
               = uuidNext w).
  { unfold cancelUnpaidAppointments_tx, appointment_updateMany,
      payment_deleteMany. unfold_ops. simpl.
    match goal with
    | |- context [releaseSchedules sel ?x] =>
        destruct (releaseSchedules_frame sel x) as [H1 H2];
        destruct (releaseSchedules sel x) as [w' [u | e]]
    end; simpl in *; auto. }
  destruct (cancelUnpaidAppointments_tx now sel w) as [w' [[] | e]];
    simpl in *.
  - subst w'. unfold coherent_world. simpl.
    eapply coherent_shrink; eauto.
    + intros a' Hin. apply in_map_iff in Hin.
      destruct Hin as [a [Ha Hin]]. exists a. unfold cancel in Ha.
      destruct (inb _ _); subst a'; auto.
    + intros p Hp. apply filter_In in Hp. tauto.
  - destruct Hframe as [H1 H2].
    unfold coherent_world. simpl. now rewrite H1, H2.
Qed.

Lemma coherent_cancelUnpaidAppointments (now : Z) (w : World) :
  coherent_world w ->
  coherent_world (fst (cancelUnpaidAppointments now w)).
Proof.
  intros Hc. unfold cancelUnpaidAppointments, findMany.
  rewrite bind_run. now apply coherent_sweep_commit.
Qed.

Lemma handleStripeWebhookEvent_frame (now : Z) (ev : Event) (w : World) :
  stripeSessions (fst (handleStripeWebhookEvent now ev w)) = stripeSessions w
  /\ uuidNext (fst (handleStripeWebhookEvent now ev w)) = uuidNext w.
Proof.
  unfold handleStripeWebhookEvent.
  unfold_ops. simpl.
  destruct (find _ (payment (db w))); simpl; [auto |].
  destruct (metadata (ev_object ev)) as [[[a |] [p |]] |]; simpl; auto.
  destruct (find _ (appointment (db w))); simpl; [| auto].
  destruct (String.eqb (ev_type ev) "checkout.session.completed"); simpl.
  - unfold transaction, appointment_update, payment_update_paid.
    unfold_ops. simpl.
    destruct (existsb _ (appointment (db w))); simpl; [| auto].
    destruct (existsb (fun x => Nat.eqb (pay_id x) p) (payment (db w)));
      simpl; [| auto].
    destruct (existsb _ (payment (db w))); simpl; auto.
  - destruct (String.eqb (ev_type ev) "checkout.session.expired"); simpl;
      [auto |].
    destruct (String.eqb (ev_type ev) "payment_intent.payment_failed");
      simpl; auto.
Qed.

Lemma coherent_handleStripeWebhookEvent (now : Z) (ev : Event) (w : World) :
  signed_by_gateway w ev ->
  coherent_world w ->
  coherent_world (fst (handleStripeWebhookEvent now ev w)).
Proof.
  intros Hsigned Hc.
  destruct (handleStripeWebhookEvent_frame now ev w) as [H1 H2].
  unfold coherent_world.
  rewrite H1, H2, handleStripeWebhookEvent_db.
  destruct (applies ev (db w)) as [[a p] |] eqn:Happ; [| exact Hc].
  apply applies_payment_exists in Happ.
  destruct Happ as [_ [Hex [_ Hcorr]]].
  unfold markPaid. simpl.
  apply coherent_markPaid; auto.
Qed.

Lemma coherent_initial (w : World) : initial w -> coherent_world w.
Proof.
  intros [HA [HP HS]]. unfold coherent_world. rewrite HA, HP, HS.
  constructor; simpl; intros; contradiction.
Qed.

Lemma coherent_step (w w' : World) :
  coherent_world w -> step w w' -> coherent_world w'.
Proof.
  intros Hc Hstep. destruct Hstep.
  - now apply coherent_createAppointment.
  - now apply coherent_createAppointmentWithPayLater.
  - match goal with
    | |- context [createAppointment_tx ?s ?n ?u ?p ?a ?b ?c] =>
        destruct (booking_commit_outcome s n u p a b c w) as [H | H]
    end.
    + eapply coherent_reserves; eauto.
    + eapply coherent_untouched; eauto.
  - match goal with
    | |- context [createAppointmentWithPayLater_tx ?n ?p ?a ?b ?c] =>
        destruct (pay_later_commit_outcome n p a b c w) as [H | H]
    end.
    + eapply coherent_reserves; eauto.
    + eapply coherent_untouched; eauto.
  - now apply coherent_initiatePaymentForAppointment.
  - now apply coherent_updateAppointmentStatus.
  - now apply coherent_cancelUnpaidAppointments.
  - now apply coherent_sweep_commit.
  - now apply coherent_handleStripeWebhookEvent.
Qed.

Lemma reachable_coherent (w : World) : reachable w -> coherent_world w.
Proof.
  induction 1 as [w Hinit | w w' Hreach IH Hstep].
  - now apply coherent_initial.
  - eapply coherent_step; eauto.
Qed.

(** C2.  In every state the system can reach, an appointment and its
    payment record agree: the appointment is PAID exactly when the
    record is; and every step taken from a reachable state (a booking,
    a payment initiation, a status change, the sweep, a delivery of a
    gateway event, under any interleaving of their queries and
    transactions) leads to a state where they agree again. *)
Theorem reachable_consistent (w : World) :
  reachable w ->
  consistent (db w)
  /\ forall w', step w w' -> consistent (db w').
Proof.
  intros Hreach.
  pose proof (reachable_coherent Hreach) as Hc.
  split.
  - intros a p. apply (coh_consistent Hc).
  - intros w' Hstep a p.
    apply (coh_consistent (coherent_step Hc Hstep)).
Qed.

Lemma reachable_consistent_witness : consistent (db Example.paid).
Proof.
  refine (proj1 (@reachable_consistent Example.paid _)).
  apply reachable_step with (w := Example.checkout).
  - apply reachable_step with (w := Example.clinic).
    + apply reachable_initial. repeat split.
    + apply step_createAppointment.
  - apply step_webhook. intros a p Hc.
    vm_compute in Hc. inversion Hc; subst.
    exists (session_for Example.alice "Dr. Rahman" 500 101 103).
    split; [left; reflexivity | split; reflexivity].
Defined.

(** ** The schedule generator *)

Section Generator.

Local Open Scope Z_scope.

Variable tz : Z.

Lemma rounds_zero (s e : Z) : rounds s e = 0%nat -> e <= s.
Proof.
  unfold rounds, intervalTime, MINUTE. intros H.
  destruct (Z_lt_le_dec s e) as [Hlt | Hle]; [| exact Hle].
  exfalso.
  assert (1 <= (e - s + 30 * 60000 - 1) / (30 * 60000)).
  { apply Z.div_le_lower_bound; lia. }
  lia.
Qed.

Lemma rounds_succ (s e : Z) (n : nat) :
  rounds s e = S n ->
  s < e /\ rounds (s + intervalTime * MINUTE) e = n.
Proof.
  unfold rounds, intervalTime, MINUTE. intros H.
  assert (Hlt : s < e).
  { destruct (Z_lt_le_dec s e) as [Hlt | Hle]; [exact Hlt |].
    exfalso.
    assert ((e - s + 30 * 60000 - 1) / (30 * 60000) <= 0).
    { apply Z.lt_succ_r. apply Z.div_lt_upper_bound; lia. }
    lia. }
  split; [exact Hlt |].
  replace (e - (s + 30 * 60000) + 30 * 60000 - 1)
    with ((e - s + 30 * 60000 - 1) + (-1) * (30 * 60000)) by lia.
  rewrite Z.div_add by lia. lia.
Qed.

Lemma slotsLoop_insertAll (fuel : nat) : forall s e acc w,
  fuel = rounds s e ->
  slotsLoop tz fuel s e acc w = insertAll tz (starts fuel s) acc w.
Proof.
  induction fuel as [| fuel IH]; intros s e acc w Hfuel; simpl.
  - symmetry in Hfuel. apply rounds_zero in Hfuel.
    destruct (s <? e) eqn:Hlt; [apply Z.ltb_lt in Hlt; lia | reflexivity].
  - symmetry in Hfuel. apply rounds_succ in Hfuel.
    destruct Hfuel as [Hlt Hrest]. apply Z.ltb_lt in Hlt. rewrite Hlt.
    rewrite !bind_run.
    destruct (createIfAbsent tz s acc w) as [w1 [acc1 | err]];
      [| reflexivity].
    apply IH. now symmetry.
Qed.

Lemma insertAll_app (l1 l2 : list Z) : forall acc w,
  insertAll tz (l1 ++ l2) acc w
  = bind (insertAll tz l1 acc) (fun acc' => insertAll tz l2 acc') w.
Proof.
  induction l1 as [| x l1 IH]; intros acc w; simpl; [reflexivity |].
  rewrite !bind_run.
  destruct (createIfAbsent tz x acc w) as [w1 [acc1 | err]];
    [| reflexivity].
  rewrite IH. now rewrite bind_run.
Qed.

Lemma days_zero (cur last : Z) : days cur last = 0%nat -> last < cur.
Proof.
  unfold days, DAY. intros H.
  destruct (Z_lt_le_dec last cur) as [Hlt | Hle]; [exact Hlt |].
  exfalso.
  assert (0 <= (last - cur) / 86400000) by (apply Z.div_pos; lia).
  lia.
Qed.

Lemma days_succ (cur last : Z) (n : nat) :
  days cur last = S n -> cur <= last /\ days (cur + DAY) last = n.
Proof.
  unfold days, DAY. intros H.
  assert (Hle : cur <= last).
  { destruct (Z_lt_le_dec last cur) as [Hlt | Hle]; [| exact Hle].
    exfalso.
    assert ((last - cur) / 86400000 < 0)
      by (apply Z.div_lt_upper_bound; lia).
    lia. }
  split; [exact Hle |].
  replace (last - (cur + 86400000))
    with ((last - cur) + (-1) * 86400000) by lia.
  rewrite Z.div_add by lia. lia.
Qed.

Lemma daysLoop_insertAll (st et : string) (fuel : nat) :
  forall cur last acc w,
    fuel = days cur last ->
    daysLoop tz fuel st et cur last acc w
    = insertAll tz (rangeStarts tz st et fuel cur) acc w.
Proof.
  induction fuel as [| fuel IH]; intros cur last acc w Hfuel; simpl.
  - symmetry in Hfuel. apply days_zero in Hfuel.
    destruct (cur <=? last) eqn:Hle; [apply Z.leb_le in Hle; lia |].
    reflexivity.
  - symmetry in Hfuel. apply days_succ in Hfuel.
    destruct Hfuel as [Hle Hrest]. apply Z.leb_le in Hle. rewrite Hle.
    rewrite insertAll_app, !bind_run. unfold dayStarts.
    destruct (timeOfDay tz cur st) as [s |];
      [destruct (timeOfDay tz cur et) as [e |] |]; simpl.
    + rewrite slotsLoop_insertAll by reflexivity.
      destruct (insertAll tz (starts (rounds s e) s) acc w)
        as [w1 [acc1 | err]]; [| reflexivity].
      apply IH. now symmetry.
    + unfold ret. apply IH. now symmetry.
    + unfold ret. apply IH. now symmetry.
Qed.

(** The generator is the loop body run over its candidates: the fuel
    given to the two loops is never exhausted. *)
Lemma inserIntoDB_insertAll (payload : ISchedule) (w : World) :
  inserIntoDB tz payload w = insertAll tz (candidates tz payload) [] w.
Proof.
  unfold inserIntoDB, candidates. now apply daysLoop_insertAll.
Qed.

Lemma with_slots_nil (w : World) : with_slots [] w = w.
Proof.
  unfold with_slots, set_schedule. simpl. rewrite app_nil_r.
  destruct w as [d ? ? ?]; destruct d; reflexivity.
Qed.

Lemma with_slots_app (c1 c2 : list Schedule) (w : World) :
  with_slots c2 (with_slots c1 w) = with_slots (c1 ++ c2) w.
Proof.
  unfold with_slots, set_schedule. simpl.
  rewrite <- app_assoc, length_app.
  f_equal. lia.
Qed.

Lemma stored_with_slots (created : list Schedule) (w : World) (x : Z) :
  stored tz (db (with_slots created w)) x
  = stored tz (db w) x
    || existsb (sameInterval (convertDateTime tz x)
                  (convertDateTime tz (x + intervalTime * MINUTE))) created.
Proof. unfold stored. simpl. apply existsb_app. Qed.

Lemma createIfAbsent_stored (x : Z) (acc : list Schedule) (w : World) :
  stored tz (db w) x = true -> createIfAbsent tz x acc w = (w, Ok acc).
Proof.
  unfold stored, createIfAbsent, findFirst. rewrite bind_run.
  rewrite existsb_find.
  destruct (find _ (schedule (db w))); [reflexivity | discriminate].
Qed.

Lemma createIfAbsent_fresh (x : Z) (acc : list Schedule) (w : World) :
  stored tz (db w) x = false ->
  createIfAbsent tz x acc w
  = (with_slots (rows tz (uuidNext w) [x]) w,
     Ok (acc ++ rows tz (uuidNext w) [x])).
Proof.
  unfold stored, createIfAbsent, findFirst. rewrite bind_run.
  rewrite existsb_find.
  destruct (find _ (schedule (db w))); [discriminate |].
  reflexivity.
Qed.

(** The loop body run over any list of candidates returns, adds rows at
    the end of the table only, and leaves every candidate stored. *)
Lemma insertAll_total (l : list Z) : forall acc w,
  exists created,
    insertAll tz l acc w = (with_slots created w, Ok (acc ++ created))
    /\ forall x, In x l -> stored tz (db (with_slots created w)) x = true.
Proof.
  induction l as [| x l IH]; intros acc w; cbn [insertAll].
  - exists []. rewrite with_slots_nil, app_nil_r. split; [reflexivity |].
    intros x [].
  - rewrite bind_run.
    destruct (stored tz (db w) x) eqn:Hx.
    + rewrite (@createIfAbsent_stored x acc w Hx).
      destruct (IH acc w) as [created [Hrun Hall]].
      exists created. split; [exact Hrun |].
      intros y [Hy | Hy]; [subst y | now apply Hall].
      rewrite stored_with_slots, Hx. reflexivity.
    + rewrite (@createIfAbsent_fresh x acc w Hx).
      destruct (IH (acc ++ rows tz (uuidNext w) [x])
                   (with_slots (rows tz (uuidNext w) [x]) w))
        as [created [Hrun Hall]].
      exists (rows tz (uuidNext w) [x] ++ created).
      rewrite Hrun, with_slots_app, app_assoc.
      split; [reflexivity |].
      intros y [Hy | Hy].
      * subst y. rewrite stored_with_slots. simpl.
        unfold sameInterval at 1. simpl. rewrite !Z.eqb_refl. simpl.
        apply orb_true_r.
      * rewrite <- with_slots_app. now apply Hall.
Qed.

(** Candidates that are all stored already: nothing is created. *)
Lemma insertAll_noop (l : list Z) : forall acc w,
  (forall x, In x l -> stored tz (db w) x = true) ->
  insertAll tz l acc w = (w, Ok acc).
Proof.
  induction l as [| x l IH]; intros acc w Hall; simpl; [reflexivity |].
  rewrite bind_run, createIfAbsent_stored by (apply Hall; now left).
  apply IH. intros y Hy. apply Hall. now right.
Qed.








End Generator.


(** C8.  A candidate interval that is already a stored slot creates
    nothing; a run all of whose candidates are stored returns the empty
    list and leaves the world as it is; and every run returns and
    leaves all its candidates stored, so that a second run over the
    same range and window creates nothing and changes nothing. *)
Theorem inserIntoDB_second_run_creates_nothing (tz : Z) (payload : ISchedule)
    (w : World) :
  (forall x acc w0,
     stored tz (db w0) x = true ->
     createIfAbsent tz x acc w0 = (w0, Ok acc))
  /\ ((forall x, In x (candidates tz payload) -> stored tz (db w) x = true) ->
      inserIntoDB tz payload w = (w, Ok []))
  /\ exists created,
       inserIntoDB tz payload w = (with_slots created w, Ok created)
       /\ inserIntoDB tz payload (with_slots created w)
          = (with_slots created w, Ok []).
Proof.
  split; [| split].
  - intros x acc w0. apply createIfAbsent_stored.
  - intros Hall. rewrite inserIntoDB_insertAll. now apply insertAll_noop.
  - destruct (insertAll_total tz (candidates tz payload) [] w)
      as [created [Hrun Hall]].
    exists created. rewrite !inserIntoDB_insertAll. split.
    + exact Hrun.
    + now apply insertAll_noop.
Qed.

Lemma inserIntoDB_second_run_creates_nothing_witness :
  let payload := {| startDate := 0; endDate := 86400000;
                    startTime := "09:00"; endTime := "10:00" |} in
  let once := fst (inserIntoDB 0 payload Example.clinic) in
  inserIntoDB 0 payload once = (once, Ok []).
Proof.
  intros payload once.
  destruct (inserIntoDB_second_run_creates_nothing 0 payload once)
    as [_ [Hstored _]].
  apply Hstored.
  intros x Hx. vm_compute in Hx.
  repeat (destruct Hx as [Hx | Hx]; [subst x; reflexivity |]).
  contradiction.
Defined.




Lemma initiatePaymentForAppointment_read_only_witness :
  initiatePaymentForAppointment Example.gateway_up 101 Example.bob
    Example.booked
  = (Example.booked,
     Err (ApiError 400 "Appointment not found or unauthorized")).
Proof.
  destruct (initiatePaymentForAppointment_read_only Example.gateway_up 101
              Example.bob Example.booked) as [_ [Hnone _]].
  destruct (Hnone eq_refl) as [e He].
  vm_compute in He. inversion He. reflexivity.
Defined.

(** ** Bindings of the appointments in reachable states *)







Lemma initiatePaymentForAppointment_db
    (stripe : SessionParams -> option string) (appointment_ : nat)
    (user : IAuthUser) (w : World) :
  db (fst (initiatePaymentForAppointment stripe appointment_ user w)) = db w.
Proof.
  unfold initiatePaymentForAppointment, appointment_findUnique_include,
    stripe_checkout_sessions_create.
  unfold_ops. simpl.
  destruct (find _ (patient (db w))) as [pd |]; simpl; [| reflexivity].
  destruct (find _ (appointment (db w))) as [a |]; simpl; [| reflexivity].
  destruct (isUNPAID (paymentStatus a)); simpl; [| reflexivity].
  destruct (AppointmentStatus_eqb (status a) CANCELED); simpl;
    [reflexivity |].
  destruct (find _ (doctor (db w))) as [d |]; simpl; [| reflexivity].
  destruct (find _ (payment (db w))) as [p |]; simpl; [| reflexivity].
  destruct (stripe _) as [url |]; reflexivity.
Qed.












(** * Further properties *)

(** ** What a committed booking leaves behind *)

Lemma bookingPreconditions_rows (user : IAuthUser) (payload : BookingPayload)
    (w : World) (patientData : Patient) (doctorData : Doctor) :
  snd (bookingPreconditions user payload w) = Ok (patientData, doctorData) ->
  In patientData (patient (db w))
  /\ patient_email patientData = email user
  /\ In doctorData (doctor (db w))
  /\ doctor_id doctorData = payload_doctorId payload
  /\ isDeleted doctorData = false.
Proof.
  unfold bookingPreconditions. unfold_ops.
  destruct (find _ (patient (db w))) eqn:Hp; simpl; [| discriminate].
  destruct (find _ (doctor (db w))) eqn:Hd; simpl; [| discriminate].
  destruct (find _ (doctorSchedules (db w))) eqn:Hb; simpl; [| discriminate].
  intros H. inversion H; subst; clear H.
  apply find_some in Hp. destruct Hp as [Hpin Hp].
  apply String.eqb_eq in Hp.
  apply find_some in Hd. destruct Hd as [Hdin Hd].
  apply andb_prop in Hd. destruct Hd as [Hd Hlive].
  apply Nat.eqb_eq in Hd. apply negb_true_iff in Hlive.
  repeat split; assumption.
Qed.

Lemma createAppointmentWithPayLater_tx_effect (now : Z)
    (payload : BookingPayload) (patientData : Patient) (doctorData : Doctor)
    (videoCalling : nat) (w w' : World) (a : Appointment) :
  createAppointmentWithPayLater_tx now payload patientData doctorData
    videoCalling w = (w', Ok a) ->
  a = bookedAppointment now payload patientData doctorData videoCalling
        (uuidNext w)
  /\ db w' = bookedDB now payload patientData doctorData videoCalling
               (uuidNext w) (db w)
  /\ stripeSessions w' = stripeSessions w
  /\ existsb (same_binding (doctor_id doctorData)
                (payload_scheduleId payload)) (doctorSchedules (db w)) = true
  /\ existsb (fun x => Nat.eqb (scheduleId x) (payload_scheduleId payload))
             (appointment (db w)) = false.
Proof.
  unfold createAppointmentWithPayLater_tx. unfold_tables. unfold_ops.
  simpl.
  destruct (existsb _ (appointment (db w))) eqn:Hslot; simpl;
    [discriminate |].
  destruct (existsb _ (doctorSchedules (db w))) eqn:Hbind; simpl;
    [| discriminate].
  destruct (existsb (fun p => Nat.eqb (appointmentId p) _) (payment (db w)));
    simpl; [discriminate |].
  destruct (existsb (fun p => Nat.eqb (transactionId p) _) (payment (db w)));
    simpl; [discriminate |].
  intros H. inversion H; subst; clear H. simpl.
  repeat split; reflexivity.
Qed.

Lemma createAppointment_tx_effect (stripe : SessionParams -> option string)
    (now : Z) (user : IAuthUser) (payload : BookingPayload)
    (patientData : Patient) (doctorData : Doctor)
    (videoCalling : nat) (w w' : World) (url : string) :
  createAppointment_tx stripe now user payload patientData doctorData
    videoCalling w = (w', Ok url) ->
  let session :=
    session_for user (doctor_name doctorData) (appointmentFee doctorData)
                (uuidNext w) (S (S (uuidNext w))) in
  db w' = bookedDB now payload patientData doctorData videoCalling
            (uuidNext w) (db w)
  /\ stripeSessions w' = stripeSessions w ++ [session]
  /\ stripe session = Some url
  /\ exists a,
       createAppointmentWithPayLater_tx now payload patientData doctorData
         videoCalling w
       = ({| db := db w'; stripeSessions := stripeSessions w;
             uuidNext := uuidNext w'; console := console w' |}, Ok a).
Proof.
  unfold createAppointment_tx, createAppointmentWithPayLater_tx.
  unfold_tables. unfold_ops. simpl.
  destruct (existsb _ (appointment (db w))) eqn:Hslot; simpl;
    [discriminate |].
  destruct (existsb _ (doctorSchedules (db w))) eqn:Hbind; simpl;
    [| discriminate].
  destruct (existsb (fun p => Nat.eqb (appointmentId p) _) (payment (db w)));
    simpl; [discriminate |].
  destruct (existsb (fun p => Nat.eqb (transactionId p) _) (payment (db w)));
    simpl; [discriminate |].
  destruct (stripe _) eqn:Hgw; simpl; [| discriminate].
  intros H. inversion H; subst; clear H. simpl.
  repeat split; try reflexivity; try assumption.
  eexists. reflexivity.
Qed.

Lemma createAppointmentWithPayLater_run (now : Z) (user : IAuthUser)
    (payload : BookingPayload) (w w' : World) (a : Appointment) :
  createAppointmentWithPayLater now user payload w = (w', Ok a) ->
  exists patientData doctorData,
    snd (bookingPreconditions user payload w) = Ok (patientData, doctorData)
    /\ createAppointmentWithPayLater_tx now payload patientData doctorData
         (uuidNext w) (fst (uuidv4 w)) = (w', Ok a).
Proof.
  unfold createAppointmentWithPayLater.
  rewrite (bind_run (bookingPreconditions user payload)).
  pose proof (bookingPreconditions_reads user payload w) as Hr.
  destruct (bookingPreconditions user payload w) as [w0 [[pd dd] | e0]];
    simpl in Hr; subst w0; [| discriminate].
  rewrite bind_run. unfold uuidv4 at 1. unfold transaction.
  intros H. exists pd, dd. split; [reflexivity |].
  unfold uuidv4. simpl.
  match goal with
  | |- ?tx = _ => destruct tx as [w2 [a2 | e2]]
  end; [exact H | discriminate].
Qed.

Lemma createAppointment_run (stripe : SessionParams -> option string)
    (now : Z) (user : IAuthUser)
    (payload : BookingPayload) (w w' : World) (url : string) :
  createAppointment stripe now user payload w = (w', Ok url) ->
  exists patientData doctorData,
    snd (bookingPreconditions user payload w) = Ok (patientData, doctorData)
    /\ createAppointment_tx stripe now user payload patientData doctorData
         (uuidNext w) (fst (uuidv4 w)) = (w', Ok url).
Proof.
  unfold createAppointment.
  rewrite (bind_run (bookingPreconditions user payload)).
  pose proof (bookingPreconditions_reads user payload w) as Hr.
  destruct (bookingPreconditions user payload w) as [w0 [[pd dd] | e0]];
    simpl in Hr; subst w0; [| discriminate].
  rewrite bind_run. unfold uuidv4 at 1. unfold transaction.
  intros H. exists pd, dd. split; [reflexivity |].
  unfold uuidv4. simpl.
  match goal with
  | |- ?tx = _ => destruct tx as [w2 [a2 | e2]]
  end; [exact H | discriminate].
Qed.

Lemma bookingPreconditions_eq (user : IAuthUser) (payload : BookingPayload)
    (w : World) (r : Result (Patient * Doctor)) :
  snd (bookingPreconditions user payload w) = r ->
  bookingPreconditions user payload w = (w, r).
Proof.
  intros H. pose proof (bookingPreconditions_reads user payload w) as Hr.
  destruct (bookingPreconditions user payload w) as [w0 r0].
  simpl in *. now subst.
Qed.

Lemma binding_after_booking (doctor_ schedule_ : nat)
    (t : list DoctorSchedules) :
  let book := fun r => if same_binding doctor_ schedule_ r
                       then set_isBooked true r else r in
  (forall r, In r (filter (same_binding doctor_ schedule_) (map book t)) ->
             isBooked r = true)
  /\ (existsb (same_binding doctor_ schedule_) t = true ->
      filter (same_binding doctor_ schedule_) (map book t) <> [])
  /\ (forall k1 k2, k1 <> doctor_ \/ k2 <> schedule_ ->
        filter (same_binding k1 k2) (map book t)
        = filter (same_binding k1 k2) t).
Proof.
  intros book. split; [| split].
  - intros r Hr. apply filter_In in Hr. destruct Hr as [Hin Hk].
    unfold same_binding in Hk. apply andb_prop in Hk.
    destruct Hk as [Hd Hs]. apply Nat.eqb_eq in Hd. apply Nat.eqb_eq in Hs.
    eapply booked_after_update; eauto.
  - intros Hex Hnil. apply existsb_exists in Hex.
    destruct Hex as [r [Hin Hk]].
    assert (Hr : In (book r) (filter (same_binding doctor_ schedule_)
                                     (map book t))).
    { apply filter_In. split; [now apply in_map |].
      unfold book. rewrite Hk. exact Hk. }
    rewrite Hnil in Hr. contradiction.
  - intros k1 k2 Hother.
    induction t as [| r t IH]; simpl; [reflexivity |].
    destruct (same_binding doctor_ schedule_ r) eqn:Hk.
    + assert (Hbr : book r = set_isBooked true r)
        by (unfold book; now rewrite Hk).
      rewrite Hbr, same_binding_set_isBooked.
      assert (Hno : same_binding k1 k2 r = false).
      { unfold same_binding in *. apply andb_prop in Hk.
        destruct Hk as [Hd Hs].
        apply Nat.eqb_eq in Hd. apply Nat.eqb_eq in Hs.
        rewrite Hd, Hs. apply andb_false_iff.
        destruct Hother as [Hne | Hne]; [left | right];
          apply Nat.eqb_neq; congruence. }
      rewrite Hno. exact IH.
    + assert (Hbr : book r = r) by (unfold book; now rewrite Hk).
      rewrite Hbr.
      destruct (same_binding k1 k2 r); [f_equal |]; exact IH.
Qed.

(** X1.  A deferred-payment booking that succeeds was made by a known
    patient for a doctor who is not deleted; it appends exactly one
    appointment (SCHEDULED, UNPAID, created now, for that patient,
    doctor and slot) and exactly one payment record (UNPAID, no event
    id, amount the doctor's fee, linked to the appointment), turns
    every row of the binding to booked, leaves every other binding as
    it was and issues no session. *)
Theorem createAppointmentWithPayLater_reserves (now : Z) (user : IAuthUser)
    (payload : BookingPayload) (w w' : World) (a : Appointment) :
  createAppointmentWithPayLater now user payload w = (w', Ok a) ->
  exists patientData doctorData p,
    (In patientData (patient (db w))
     /\ patient_email patientData = email user
     /\ In doctorData (doctor (db w))
     /\ doctor_id doctorData = payload_doctorId payload
     /\ isDeleted doctorData = false)
    /\ (appointment (db w') = appointment (db w) ++ [a]
        /\ patientId a = patient_id patientData
        /\ doctorId a = payload_doctorId payload
        /\ scheduleId a = payload_scheduleId payload
        /\ status a = SCHEDULED /\ paymentStatus a = UNPAID
        /\ createdAt a = now)
    /\ (payment (db w') = payment (db w) ++ [p]
        /\ appointmentId p = appt_id a
        /\ amount p = appointmentFee doctorData
        /\ pay_status p = UNPAID /\ stripeEventId p = None)
    /\ (binding (payload_doctorId payload) (payload_scheduleId payload)
                (db w') <> []
        /\ (forall r, In r (binding (payload_doctorId payload)
                              (payload_scheduleId payload) (db w')) ->
                      isBooked r = true)
        /\ (forall k1 k2,
              k1 <> payload_doctorId payload
              \/ k2 <> payload_scheduleId payload ->
              binding k1 k2 (db w') = binding k1 k2 (db w)))
    /\ stripeSessions w' = stripeSessions w
    /\ patient (db w') = patient (db w)
    /\ doctor (db w') = doctor (db w)
    /\ schedule (db w') = schedule (db w).
Proof.
  intros Hrun.
  destruct (createAppointmentWithPayLater_run _ _ _ _ Hrun)
    as [pd [dd [Hpre Htx]]].
  apply bookingPreconditions_rows in Hpre.
  destruct Hpre as [Hpin [Hmail [Hdin [Hdid Hlive]]]].
  apply createAppointmentWithPayLater_tx_effect in Htx.
  destruct Htx as [Ha [Hdb [Hs [Hbind _]]]]. simpl in *.
  exists pd, dd, (bookedPayment now dd (S (uuidNext w))).
  rewrite Hdb. subst a. unfold bookedDB, binding. simpl.
  destruct (binding_after_booking (doctor_id dd)
              (payload_scheduleId payload) (doctorSchedules (db w)))
    as [Hall [Hsome Hrest]].
  rewrite <- Hdid.
  repeat split; auto.
Qed.

Lemma createAppointmentWithPayLater_reserves_witness :
  exists p,
    payment (db Example.booked) = [p]
    /\ appointmentId p = 101 /\ amount p = 500%Z /\ pay_status p = UNPAID.
Proof.
  destruct (@createAppointmentWithPayLater_reserves 1000 Example.alice
              Example.slot Example.clinic Example.booked
              (Example.reservation 101 100) eq_refl)
    as [pd [dd [p [_ [_ [[Hp [Hid [Hfee [Hst _]]]] _]]]]]].
  exists p. repeat split; auto.
  vm_compute in Hp. inversion Hp; subst. reflexivity.
Defined.

(** X2.  A pay-now booking that succeeds leaves exactly the database
    that the deferred-payment booking leaves from the same world, and
    the gateway has issued exactly one more session: the url returned
    is the gateway's answer to it, its metadata are the ids of the
    appointment and of the payment record just created, it is
    addressed to the caller and it charges one hundred times the
    recorded amount. *)
Theorem createAppointment_reserves_and_issues
    (stripe : SessionParams -> option string) (now : Z) (user : IAuthUser)
    (payload : BookingPayload) (w w' : World) (url : string) :
  createAppointment stripe now user payload w = (w', Ok url) ->
  exists a p session,
    snd (createAppointmentWithPayLater now user payload w) = Ok a
    /\ db w' = db (fst (createAppointmentWithPayLater now user payload w))
    /\ In a (appointment (db w')) /\ In p (payment (db w'))
    /\ appointmentId p = appt_id a
    /\ stripeSessions w' = stripeSessions w ++ [session]
    /\ stripe session = Some url
    /\ sp_appointmentId session = appt_id a
    /\ sp_paymentId session = pay_id p
    /\ unit_amount session = (amount p * 100)%Z
    /\ customer_email session = email user.
Proof.
  intros Hrun.
  destruct (createAppointment_run _ _ _ _ _ Hrun) as [pd [dd [Hpre Htx]]].
  apply bookingPreconditions_eq in Hpre.
  apply createAppointment_tx_effect in Htx.
  destruct Htx as [Hdb [Hs [Hgw [a Hlater]]]]. simpl in *.
  exists a, (bookedPayment now dd (S (uuidNext w))).
  eexists.
  assert (Hfull : createAppointmentWithPayLater now user payload w
                  = ({| db := db w'; stripeSessions := stripeSessions w;
                        uuidNext := uuidNext w'; console := console w' |},
                     Ok a)).
  { unfold createAppointmentWithPayLater.
    rewrite (bind_run (bookingPreconditions user payload)), Hpre.
    rewrite bind_run. unfold uuidv4 at 1. unfold transaction.
    rewrite Hlater. reflexivity. }
  rewrite Hfull. simpl.
  apply createAppointmentWithPayLater_tx_effect in Hlater.
  destruct Hlater as [Ha _]. simpl in Ha.
  repeat split; try reflexivity.
  - rewrite Hdb. unfold bookedDB. simpl. apply in_snoc. right. exact Ha.
  - rewrite Hdb. unfold bookedDB. simpl. apply in_snoc. now right.
  - now subst a.
  - exact Hs.
  - exact Hgw.
  - now subst a.
  - reflexivity.
  - reflexivity.
  - reflexivity.
Qed.

Lemma createAppointment_reserves_and_issues_witness :
  db Example.checkout = db Example.booked
  /\ stripeSessions Example.checkout
     = [session_for Example.alice "Dr. Rahman" 500 101 103].
Proof.
  destruct (@createAppointment_reserves_and_issues Example.gateway_up 1000
              Example.alice Example.slot Example.clinic Example.checkout
              "https://checkout.stripe.com/pay/cs_test" eq_refl)
    as [a [p [session [_ [Hdb _]]]]].
  split; [exact Hdb | reflexivity].
Defined.

(** ** Bookings that are refused *)

Lemma find_none_iff {R} (f : R -> bool) (l : list R) :
  find f l = None <-> forall x, In x l -> f x = false.
Proof.
  split.
  - intros H x Hin. eapply find_none; eauto.
  - intros H. destruct (find f l) as [x |] eqn:Hf; [| reflexivity].
    apply find_some in Hf. destruct Hf as [Hin Hx].
    rewrite (H x Hin) in Hx. discriminate.
Qed.

Lemma booking_stops_at_preconditions
    (stripe : SessionParams -> option string) (now : Z) (user : IAuthUser)
    (payload : BookingPayload) (w : World) (e : Error) :
  bookingPreconditions user payload w = (w, Err e) ->
  createAppointment stripe now user payload w = (w, Err e)
  /\ createAppointmentWithPayLater now user payload w = (w, Err e).
Proof.
  intros H. unfold createAppointment, createAppointmentWithPayLater.
  rewrite !(bind_run (bookingPreconditions user payload)), H. auto.
Qed.

(** X3.  A booking by a caller whose e-mail belongs to no patient fails
    with the not-found error of the patient look-up; a booking by a
    patient for a doctor id that no doctor has, or that only a deleted
    doctor has, fails with the not-found error of the doctor look-up.
    In both cases nothing at all has changed, not even the uuid
    counter. *)
Theorem booking_unknown_patient_or_doctor
    (stripe : SessionParams -> option string) (now : Z) (user : IAuthUser)
    (payload : BookingPayload) (w : World) :
  ((forall p, In p (patient (db w)) -> patient_email p <> email user) ->
   createAppointment stripe now user payload w
   = (w, Err (NotFoundError "Patient"))
   /\ createAppointmentWithPayLater now user payload w
      = (w, Err (NotFoundError "Patient")))
  /\ ((exists p, In p (patient (db w)) /\ patient_email p = email user) ->
      (forall d, In d (doctor (db w)) ->
                 doctor_id d = payload_doctorId payload ->
                 isDeleted d = true) ->
      createAppointment stripe now user payload w
      = (w, Err (NotFoundError "Doctor"))
      /\ createAppointmentWithPayLater now user payload w
         = (w, Err (NotFoundError "Doctor"))).
Proof.
  split.
  - intros Hnone. apply booking_stops_at_preconditions.
    unfold bookingPreconditions. unfold_ops.
    assert (Hf : find (fun p => String.eqb (patient_email p) (email user))
                      (patient (db w)) = None).
    { apply find_none_iff. intros p Hin. apply String.eqb_neq. auto. }
    rewrite Hf. reflexivity.
  - intros [p [Hin Hmail]] Hgone. apply booking_stops_at_preconditions.
    unfold bookingPreconditions. unfold_ops.
    destruct (find _ (patient (db w))) as [pd |] eqn:Hp.
    + assert (Hf : find (fun d => Nat.eqb (doctor_id d)
                                    (payload_doctorId payload)
                                  && negb (isDeleted d)) (doctor (db w))
                   = None).
      { apply find_none_iff. intros d Hd.
        destruct (Nat.eqb_spec (doctor_id d) (payload_doctorId payload))
          as [Heq | Hne]; [| reflexivity].
        rewrite (Hgone d Hd Heq). reflexivity. }
      simpl. rewrite Hf. reflexivity.
    + exfalso. apply (find_none _ _ Hp) in Hin.
      rewrite Hmail, String.eqb_refl in Hin. discriminate.
Qed.

Lemma booking_unknown_patient_or_doctor_witness :
  createAppointmentWithPayLater 1000 Sample.admin Example.slot Example.clinic
  = (Example.clinic, Err (NotFoundError "Patient"))
  /\ createAppointmentWithPayLater 1000 Example.alice
       {| payload_doctorId := 11; payload_scheduleId := 7 |} Example.clinic
     = (Example.clinic, Err (NotFoundError "Doctor")).
Proof.
  split.
  - apply (booking_unknown_patient_or_doctor Example.gateway_up 1000
             Sample.admin Example.slot Example.clinic).
    intros p Hin. simpl in Hin.
    destruct Hin as [Hin | [Hin | []]]; subst p; discriminate.
  - apply (booking_unknown_patient_or_doctor Example.gateway_up 1000
             Example.alice {| payload_doctorId := 11;
                              payload_scheduleId := 7 |} Example.clinic).
    + eexists. split; [left; reflexivity | reflexivity].
    + intros d Hd. simpl in Hd. destruct Hd as [Hd | []]. subst d.
      discriminate.
Defined.

Lemma booking_transactions_occupied
    (stripe : SessionParams -> option string) (now : Z) (user : IAuthUser)
    (payload : BookingPayload) (patientData : Patient) (doctorData : Doctor)
    (videoCalling : nat) (w : World) (a : Appointment) :
  In a (appointment (db w)) -> scheduleId a = payload_scheduleId payload ->
  snd (transaction
         (createAppointment_tx stripe now user payload patientData doctorData
            videoCalling) w)
  = Err (UniqueConstraintError "scheduleId")
  /\ snd (transaction
            (createAppointmentWithPayLater_tx now payload patientData
               doctorData videoCalling) w)
     = Err (UniqueConstraintError "scheduleId").
Proof.
  intros Hin Hslot.
  assert (Hex : existsb (fun x => Nat.eqb (scheduleId x)
                                    (payload_scheduleId payload))
                        (appointment (db w)) = true).
  { apply existsb_exists. exists a. split; [exact Hin |].
    now apply Nat.eqb_eq. }
  unfold transaction, createAppointment_tx, createAppointmentWithPayLater_tx.
  unfold_tables. unfold_ops. simpl. rewrite Hex. simpl. auto.
Qed.

Lemma swept_keeps_slots (now : Z) (w : World) (a : Appointment) :
  In a (appointment (db w)) ->
  exists a', In a' (appointment (db (fst (cancelUnpaidAppointments now w))))
             /\ scheduleId a' = scheduleId a.
Proof.
  intros Hin.
  destruct (cancelUnpaidAppointments_outcome now w) as [Hok | [_ Hsame]].
  - rewrite Hok. simpl.
    exists (cancel now (filter (stale now) (appointment (db w))) a).
    split; [now apply in_map |].
    unfold cancel. destruct (inb _ _); reflexivity.
  - rewrite Hsame. eauto.
Qed.

(** X4.  A slot that an appointment holds, whatever the status of that
    appointment, cannot be booked: both booking functions fail and
    leave the database as it was, and when their look-ups succeed the
    failure is the unique-constraint error on [scheduleId], which the
    error handler reports as a duplicate key.  The sweep does not
    change this: it cancels appointments without deleting them, so the
    slot of a swept appointment stays unbookable although its binding
    is free again. *)
Theorem booking_occupied_slot
    (stripe : SessionParams -> option string) (now : Z) (user : IAuthUser)
    (payload : BookingPayload) (w : World) (a : Appointment) :
  In a (appointment (db w)) -> scheduleId a = payload_scheduleId payload ->
  forall w1,
    w1 = w \/ (exists now0, w1 = fst (cancelUnpaidAppointments now0 w)) ->
    (exists e,
       snd (createAppointment stripe now user payload w1) = Err e
       /\ db (fst (createAppointment stripe now user payload w1)) = db w1
       /\ (forall found, snd (bookingPreconditions user payload w1) = Ok found
                         -> e = UniqueConstraintError "scheduleId"))
    /\ (exists e,
          snd (createAppointmentWithPayLater now user payload w1) = Err e
          /\ db (fst (createAppointmentWithPayLater now user payload w1))
             = db w1
          /\ (forall found,
                snd (bookingPreconditions user payload w1) = Ok found ->
                e = UniqueConstraintError "scheduleId"))
    /\ (forall libraryMessage,
          res_message (globalErrorHandler libraryMessage
                         (UniqueConstraintError "scheduleId"))
          = "Duplicate Key error"%string).
Proof.
  intros Hin Hslot w1 Hw1.
  assert (Hocc : exists a1, In a1 (appointment (db w1))
                            /\ scheduleId a1 = payload_scheduleId payload).
  { destruct Hw1 as [Hw1 | [now0 Hw1]]; subst w1; [eauto |].
    destruct (swept_keeps_slots now0 w a Hin) as [a' [Ha' Hs]].
    exists a'. split; [exact Ha' | congruence]. }
  destruct Hocc as [a1 [Hin1 Hslot1]].
  split; [| split; [| reflexivity]].
  - unfold createAppointment.
    rewrite (bind_run (bookingPreconditions user payload)).
    pose proof (bookingPreconditions_reads user payload w1) as Hr.
    destruct (bookingPreconditions user payload w1) as [w0 [[pd dd] | e0]];
      simpl in Hr; subst w0.
    + rewrite bind_run. unfold uuidv4.
      match goal with
      | |- context [transaction (createAppointment_tx ?s ?n ?u ?p ?a ?b ?c)
                                ?x] =>
          destruct (@booking_transactions_occupied s n u p a b c x a1
                      Hin1 Hslot1) as [Htx _];
          pose proof (transaction_throws_restores _ _ Htx) as Hsame;
          destruct (transaction (createAppointment_tx s n u p a b c) x)
            as [w2 r2]
      end.
      simpl in *. subst r2. eexists. repeat split; eauto.
    + simpl. eexists. repeat split; eauto. intros found Hf. discriminate.
  - unfold createAppointmentWithPayLater.
    rewrite (bind_run (bookingPreconditions user payload)).
    pose proof (bookingPreconditions_reads user payload w1) as Hr.
    destruct (bookingPreconditions user payload w1) as [w0 [[pd dd] | e0]];
      simpl in Hr; subst w0.
    + rewrite bind_run. unfold uuidv4.
      match goal with
      | |- context [transaction
                      (createAppointmentWithPayLater_tx ?n ?p ?a ?b ?c) ?x] =>
          destruct (@booking_transactions_occupied stripe n user p a b c x a1
                      Hin1 Hslot1) as [_ Htx];
          pose proof (transaction_throws_restores _ _ Htx) as Hsame;
          destruct (transaction
                      (createAppointmentWithPayLater_tx n p a b c) x)
            as [w2 r2]
      end.
      simpl in *. subst r2. eexists. repeat split; eauto.
    + simpl. eexists. repeat split; eauto. intros found Hf. discriminate.
Qed.

Lemma booking_occupied_slot_witness :
  binding 10 7 (db Sample.swept_world)
  = [ {| ds_doctorId := 10; ds_scheduleId := 7; isBooked := false |} ]
  /\ snd (createAppointmentWithPayLater 1900000 Example.bob Example.slot
            Sample.swept_world)
     = Err (UniqueConstraintError "scheduleId").
Proof.
  split; [reflexivity |].
  destruct (@booking_occupied_slot Example.gateway_up 1900000 Example.bob
              Example.slot Example.booked (Example.reservation 101 100))
    with (w1 := Sample.swept_world) as [_ [[e [He [_ Hkind]]] _]].
  - left. reflexivity.
  - reflexivity.
  - right. exists Example.later. reflexivity.
  - rewrite He. f_equal.
    apply (Hkind ({| patient_id := 2; patient_email := "bob@mail" |},
                  {| doctor_id := 10; doctor_name := "Dr. Rahman";
                     doctor_email := "rahman@mail"; appointmentFee := 500;
                     isDeleted := false |})).
    reflexivity.
Defined.

(** ** Changing the status of an appointment *)

Lemma updateAppointmentStatus_run (now : Z) (appointment_ : nat)
    (st : AppointmentStatus) (user : IAuthUser) (w : World) :
  updateAppointmentStatus now appointment_ st user w
  = match appointmentById appointment_ (db w) with
    | None => (w, Err (NotFoundError "Appointment"))
    | Some a =>
        let updated := (set_db (withStatus now appointment_ st (db w)) w,
                        Ok tt) in
        if UserRole_eqb (role user) DOCTOR
        then match doctorById (doctorId a) (db w) with
             | Some d =>
                 if String.eqb (email user) (doctor_email d) then updated
                 else (w, Err (ApiError 400 "This is not your appointment"))
             | None =>
                 (w, Err (TypeError
                            "Cannot read properties of null (reading 'email')"))
             end
        else updated
    end.
Proof.
  unfold updateAppointmentStatus, appointmentById, doctorById, withStatus.
  unfold findFirstOrThrow, findFirst, throw, ret.
  rewrite !bind_run.
  destruct (find _ (appointment (db w))) as [a |] eqn:Ha; simpl;
    [| reflexivity].
  assert (Hex : existsb (fun x => Nat.eqb (appt_id x) appointment_)
                        (appointment (db w)) = true)
    by (rewrite existsb_find, Ha; reflexivity).
  assert (Hwrite : appointment_update appointment_ (set_status st now) w
                   = (set_db
                        (set_appointment
                           (map (fun x => if Nat.eqb (appt_id x) appointment_
                                          then set_status st now x else x)
                                (appointment (db w))) (db w)) w, Ok tt)).
  { unfold appointment_update. unfold_ops. now rewrite Hex. }
  rewrite !bind_run. simpl.
  destruct (UserRole_eqb (role user) DOCTOR); simpl.
  - destruct (find _ (doctor (db w))) as [d |]; simpl; [| reflexivity].
    destruct (String.eqb (email user) (doctor_email d)); simpl;
      [exact Hwrite | reflexivity].
  - exact Hwrite.
Qed.

Lemma withStatus_written (now : Z) (id : nat) (st : AppointmentStatus)
    (d : DB) (a : Appointment) :
  appointmentById id d = Some a ->
  (exists a', In a' (appointment (withStatus now id st d))
              /\ appt_id a' = id /\ status a' = st /\ sameBooking a a')
  /\ (forall x, In x (appointment (withStatus now id st d)) ->
                appt_id x = id -> status x = st)
  /\ (forall x, In x (appointment d) -> appt_id x <> id ->
                In x (appointment (withStatus now id st d))).
Proof.
  intros Hfound. unfold appointmentById in Hfound.
  apply find_some in Hfound. destruct Hfound as [Hin Hid].
  apply Nat.eqb_eq in Hid.
  unfold withStatus. simpl. split; [| split].
  - exists (set_status st now a). split.
    + apply in_map_iff. exists a. split; [| exact Hin].
      now rewrite Hid, Nat.eqb_refl.
    + repeat split. exact Hid.
  - intros x Hx Hxid. apply in_map_iff in Hx.
    destruct Hx as [x0 [Hx0 _]].
    destruct (Nat.eqb (appt_id x0) id) eqn:Hk.
    + subst x. reflexivity.
    + subst x. apply Nat.eqb_neq in Hk. contradiction.
  - intros x Hx Hne. apply in_map_iff. exists x. split; [| exact Hx].
    apply Nat.eqb_neq in Hne. now rewrite Hne.
Qed.

(** X5.  [updateAppointmentStatus] fails with the not-found error when
    no appointment has the id, and with "This is not your appointment"
    when the caller is a doctor whose e-mail is not that of the
    appointment's doctor; in both cases nothing changes.  A doctor on
    an own appointment, and every caller who is not a doctor, on any
    appointment, gets the status written: afterwards the appointment
    with the id is there with the requested status, equal to what it
    was in all but status and update time, every row with the id has
    that status, and the rows with another id are as they were. *)
Theorem updateAppointmentStatus_authorisation (now : Z) (appointment_ : nat)
    (st : AppointmentStatus) (user : IAuthUser) (w : World) :
  (appointmentById appointment_ (db w) = None ->
   updateAppointmentStatus now appointment_ st user w
   = (w, Err (NotFoundError "Appointment")))
  /\ (forall a d,
        appointmentById appointment_ (db w) = Some a ->
        doctorById (doctorId a) (db w) = Some d ->
        role user = DOCTOR -> doctor_email d <> email user ->
        updateAppointmentStatus now appointment_ st user w
        = (w, Err (ApiError 400 "This is not your appointment")))
  /\ (forall a d,
        appointmentById appointment_ (db w) = Some a ->
        doctorById (doctorId a) (db w) = Some d ->
        role user <> DOCTOR \/ doctor_email d = email user ->
        let w' := fst (updateAppointmentStatus now appointment_ st user w) in
        updateAppointmentStatus now appointment_ st user w
        = (set_db (withStatus now appointment_ st (db w)) w, Ok tt)
        /\ (exists a', In a' (appointment (db w'))
                       /\ appt_id a' = appointment_ /\ status a' = st
                       /\ sameBooking a a')
        /\ (forall x, In x (appointment (db w')) ->
                      appt_id x = appointment_ -> status x = st)
        /\ (forall x, In x (appointment (db w)) ->
                      appt_id x <> appointment_ ->
                      In x (appointment (db w')))).
Proof.
  rewrite updateAppointmentStatus_run.
  split; [| split].
  - intros H. now rewrite H.
  - intros a d Ha Hd Hrole Hmail. rewrite Ha, Hd, Hrole. simpl.
    destruct (String.eqb_spec (email user) (doctor_email d)); congruence.
  - intros a d Ha Hd Hok w'.
    assert (Hrun :
      match appointmentById appointment_ (db w) with
      | None => (w, Err (NotFoundError "Appointment"))
      | Some a0 =>
          let updated :=
            (set_db (withStatus now appointment_ st (db w)) w, Ok tt) in
          if UserRole_eqb (role user) DOCTOR
          then match doctorById (doctorId a0) (db w) with
               | Some d0 =>
                   if String.eqb (email user) (doctor_email d0) then updated
                   else (w, Err (ApiError 400
                                   "This is not your appointment"))
               | None =>
                   (w, Err (TypeError
                              "Cannot read properties of null (reading 'email')"))
               end
          else updated
      end = (set_db (withStatus now appointment_ st (db w)) w, Ok tt)).
    { rewrite Ha, Hd. simpl.
      destruct Hok as [Hrole | Hmail].
      - destruct (role user); simpl; try reflexivity. congruence.
      - rewrite Hmail, String.eqb_refl.
        destruct (UserRole_eqb (role user) DOCTOR); reflexivity. }
    subst w'. rewrite Hrun.
    split; [reflexivity |]. simpl fst. rewrite db_set_db.
    now apply withStatus_written.
Qed.

Lemma updateAppointmentStatus_authorisation_witness :
  updateAppointmentStatus 2000 101 COMPLETED Sample.karim Example.booked
  = (Example.booked, Err (ApiError 400 "This is not your appointment"))
  /\ (let w' := fst (updateAppointmentStatus 2000 101 COMPLETED
                       Sample.rahman Example.booked) in
      snd (updateAppointmentStatus 2000 101 COMPLETED Sample.rahman
             Example.booked) = Ok tt
      /\ forall x, In x (appointment (db w')) -> appt_id x = 101 ->
                   status x = COMPLETED).
Proof.
  destruct (updateAppointmentStatus_authorisation 2000 101 COMPLETED
              Sample.karim Example.booked) as [_ [Hdenied _]].
  destruct (updateAppointmentStatus_authorisation 2000 101 COMPLETED
              Sample.rahman Example.booked) as [_ [_ Hallowed]].
  split.
  - eapply Hdenied; try reflexivity. discriminate.
  - destruct (Hallowed (Example.reservation 101 100)
                {| doctor_id := 10; doctor_name := "Dr. Rahman";
                   doctor_email := "rahman@mail"; appointmentFee := 500;
                   isDeleted := false |} eq_refl eq_refl
                (or_intror eq_refl)) as [Hrun [_ [Hall _]]].
    split; [now rewrite Hrun | exact Hall].
Defined.

Lemma withStatus_sameBooking (now : Z) (id : nat) (st : AppointmentStatus)
    (d : DB) (a' : Appointment) :
  In a' (appointment (withStatus now id st d)) ->
  exists a, In a (appointment d) /\ sameBooking a a'.
Proof.
  unfold withStatus. simpl. intros Hin. apply in_map_iff in Hin.
  destruct Hin as [a [Ha Hin]]. exists a. split; [exact Hin |].
  destruct (Nat.eqb (appt_id a) id); subst a'; repeat split.
Qed.

(** X6.  [updateAppointmentStatus] writes nothing but the [status] (and
    [updatedAt]) of the rows with the given id.  Bindings, payment
    records and every other table, the sessions and the uuid counter
    are as before, and no [paymentStatus] changes: an appointment
    cancelled this way keeps its binding booked and its payment record
    in place. *)
Theorem updateAppointmentStatus_frame (now : Z) (appointment_ : nat)
    (st : AppointmentStatus) (user : IAuthUser) (w : World) :
  let w' := fst (updateAppointmentStatus now appointment_ st user w) in
  doctorSchedules (db w') = doctorSchedules (db w)
  /\ payment (db w') = payment (db w)
  /\ patient (db w') = patient (db w)
  /\ doctor (db w') = doctor (db w)
  /\ schedule (db w') = schedule (db w)
  /\ stripeSessions w' = stripeSessions w
  /\ uuidNext w' = uuidNext w
  /\ (appointment (db w') = appointment (db w)
      \/ appointment (db w')
         = map (fun a => if Nat.eqb (appt_id a) appointment_
                         then set_status st now a else a)
               (appointment (db w)))
  /\ (forall a', In a' (appointment (db w')) ->
        exists a, In a (appointment (db w)) /\ sameBooking a a'
                  /\ (appt_id a <> appointment_ -> a' = a)).
Proof.
  intros w'. unfold w'. rewrite updateAppointmentStatus_run.
  assert (Hsame : forall a', In a' (appointment (db w)) ->
            exists a, In a (appointment (db w)) /\ sameBooking a a'
                      /\ (appt_id a <> appointment_ -> a' = a)).
  { intros a' Hin. exists a'. repeat split; auto. }
  assert (Hupd : forall a',
            In a' (appointment (withStatus now appointment_ st (db w))) ->
            exists a, In a (appointment (db w)) /\ sameBooking a a'
                      /\ (appt_id a <> appointment_ -> a' = a)).
  { unfold withStatus. simpl. intros a' Hin. apply in_map_iff in Hin.
    destruct Hin as [a [Ha Hin]]. exists a. split; [exact Hin |].
    destruct (Nat.eqb_spec (appt_id a) appointment_); subst a';
      repeat split; auto. intros; congruence. }
  destruct (appointmentById appointment_ (db w)) as [a |]; simpl.
  2:{ repeat split; auto. }
  destruct (UserRole_eqb (role user) DOCTOR); simpl.
  - destruct (doctorById (doctorId a) (db w)) as [d |]; simpl.
    2:{ repeat split; auto. }
    destruct (String.eqb (email user) (doctor_email d)); simpl;
      repeat split; auto.
  - repeat split; auto.
Qed.

(** ** More on the sweep *)

(** The sweep commits exactly when every selected appointment has its
    binding row; otherwise it throws the not-found error of the
    binding update and the database is as before. *)
Lemma cancelUnpaidAppointments_cases (now : Z) (w : World) :
  let sel := filter (stale now) (appointment (db w)) in
  (bindings_present sel (db w)
   /\ cancelUnpaidAppointments now w
      = (set_db (swept now sel (db w)) w, Ok tt))
  \/ (~ bindings_present sel (db w)
      /\ snd (cancelUnpaidAppointments now w)
         = Err (NotFoundError "DoctorSchedules")
      /\ db (fst (cancelUnpaidAppointments now w)) = db w).
Proof.
  intros sel.
  destruct (cancelUnpaidAppointments_outcome now w) as [Hok | [Hno Hsame]];
    fold sel in Hok || fold sel in Hno.
  - left. split; [| exact Hok].
    revert Hok. unfold cancelUnpaidAppointments, findMany.
    rewrite bind_run. fold sel. unfold transaction.
    unfold cancelUnpaidAppointments_tx, appointment_updateMany,
      payment_deleteMany. unfold_ops. simpl.
    match goal with
    | |- context [releaseSchedules sel ?x] =>
        pose proof (releaseSchedules_result sel x) as H;
        destruct (releaseSchedules sel x) as [w' [u | e]]
    end; [| discriminate].
    intros _. exact H.
  - right. split; [exact Hno |]. split; [| exact Hsame].
    revert Hno. unfold cancelUnpaidAppointments, findMany.
    rewrite bind_run. fold sel. unfold transaction.
    pose proof (cancelUnpaidAppointments_tx_outcome now sel w) as Hout.
    revert Hout.
    unfold cancelUnpaidAppointments_tx, appointment_updateMany,
      payment_deleteMany. unfold_ops. simpl.
    match goal with
    | |- context [releaseSchedules sel ?x] =>
        pose proof (releaseSchedules_result sel x) as H;
        destruct (releaseSchedules sel x) as [w' [u | e]]
    end.
    + intros _ Hno. exfalso. apply Hno. exact H.
    + intros _ _. simpl. now subst e.
Qed.

(** X7.  The sweep is all or nothing: when one stale unpaid appointment
    has no row for its binding, the sweep throws the not-found error of
    the binding update and the database is exactly as before, so that
    no other stale appointment is cancelled either. *)
Theorem cancelUnpaidAppointments_all_or_nothing (now : Z) (w : World)
    (a : Appointment) :
  In a (appointment (db w)) -> stale now a = true ->
  existsb (same_binding (doctorId a) (scheduleId a)) (doctorSchedules (db w))
  = false ->
  snd (cancelUnpaidAppointments now w) = Err (NotFoundError "DoctorSchedules")
  /\ db (fst (cancelUnpaidAppointments now w)) = db w.
Proof.
  intros Hin Hstale Hmissing.
  destruct (cancelUnpaidAppointments_cases now w) as [[Hp _] | [_ H]];
    [| exact H].
  exfalso.
  assert (Hsel : In a (filter (stale now) (appointment (db w))))
    by (apply filter_In; auto).
  specialize (Hp a Hsel). congruence.
Qed.

Lemma cancelUnpaidAppointments_all_or_nothing_witness :
  snd (cancelUnpaidAppointments Example.later Sample.orphan)
  = Err (NotFoundError "DoctorSchedules")
  /\ appointment (db (fst (cancelUnpaidAppointments Example.later
                             Sample.orphan)))
     = [Example.reservation 101 100].
Proof.
  destruct (@cancelUnpaidAppointments_all_or_nothing Example.later
              Sample.orphan (Example.reservation 101 100)) as [Herr Hdb].
  - left. reflexivity.
  - reflexivity.
  - reflexivity.
  - split; [exact Herr |]. rewrite Hdb. reflexivity.
Defined.

Lemma filter_map_commute {A} (f : A -> bool) (g : A -> A) (l : list A) :
  (forall x, f (g x) = f x) -> filter f (map g l) = map g (filter f l).
Proof.
  intros H. induction l as [| x l IH]; simpl; [reflexivity |].
  rewrite H. destruct (f x); simpl; now rewrite IH.
Qed.

Lemma filter_idempotent {A} (f : A -> bool) (l : list A) :
  filter f (filter f l) = filter f l.
Proof.
  induction l as [| x l IH]; simpl; [reflexivity |].
  destruct (f x) eqn:Hf; simpl; rewrite ?Hf, IH; reflexivity.
Qed.

Lemma cancel_stale (now : Z) (sel : list Appointment) (a : Appointment) :
  stale now (cancel now sel a) = stale now a.
Proof. unfold cancel. destruct (inb _ _); reflexivity. Qed.

Lemma cancel_ids (now : Z) (sel l : list Appointment) :
  map appt_id (map (cancel now sel) l) = map appt_id l.
Proof.
  rewrite map_map. apply map_ext. intros a. unfold cancel.
  destruct (inb _ _); reflexivity.
Qed.

Lemma selects_cancelled (now : Z) (sel0 sel : list Appointment)
    (r : DoctorSchedules) :
  selects (map (cancel now sel0) sel) r = selects sel r.
Proof.
  unfold selects. induction sel as [| a sel IH]; simpl; [reflexivity |].
  rewrite IH. f_equal. unfold cancel. destruct (inb _ _); reflexivity.
Qed.

Lemma selects_release (sel0 sel : list Appointment) (r : DoctorSchedules) :
  selects sel (release sel0 r) = selects sel r.
Proof.
  unfold selects. induction sel as [| a sel IH]; simpl; [reflexivity |].
  now rewrite IH, release_key.
Qed.

(** Sweeping what has just been swept, at the same instant, changes
    nothing. *)
Lemma swept_twice (now : Z) (d : DB) :
  let sel := filter (stale now) (appointment d) in
  swept now (filter (stale now) (appointment (swept now sel d)))
        (swept now sel d)
  = swept now sel d.
Proof.
  intros sel. simpl.
  rewrite (filter_map_commute _ _ _ (cancel_stale now sel)). fold sel.
  unfold swept. simpl. rewrite cancel_ids.
  f_equal.
  - rewrite map_map. apply map_ext. intros r.
    unfold release at 1. rewrite selects_cancelled, selects_release.
    unfold release. destruct (selects sel r); reflexivity.
  - rewrite map_map. apply map_ext. intros a.
    assert (Hid : appt_id (cancel now sel a) = appt_id a)
      by (unfold cancel; destruct (inb _ _); reflexivity).
    assert (Hout : forall b,
               cancel now (map (cancel now sel) sel) b
               = if inb (appt_id b) (map appt_id sel)
                 then set_status CANCELED now b else b).
    { intros b. unfold cancel at 1. now rewrite cancel_ids. }
    rewrite Hout, Hid. unfold cancel.
    destruct (inb (appt_id a) (map appt_id sel)); reflexivity.
  - apply filter_idempotent.
Qed.

(** X8.  Running the sweep a second time at the same instant leaves the
    database that the first run left, whether the first run committed
    or threw; and a sweep that finds no stale unpaid appointment
    changes nothing at all. *)
Theorem cancelUnpaidAppointments_idempotent (now : Z) (w : World) :
  db (fst (cancelUnpaidAppointments now
             (fst (cancelUnpaidAppointments now w))))
  = db (fst (cancelUnpaidAppointments now w))
  /\ (filter (stale now) (appointment (db w)) = [] ->
      cancelUnpaidAppointments now w = (w, Ok tt)).
Proof.
  split.
  - destruct (cancelUnpaidAppointments_cases now w)
      as [[Hp Hok] | [Hno [_ Hsame]]].
    + rewrite Hok. simpl fst.
      destruct (cancelUnpaidAppointments_cases now
                  (set_db (swept now (filter (stale now)
                                        (appointment (db w))) (db w)) w))
        as [[_ Hok2] | [_ [_ Hsame2]]].
      * rewrite Hok2. simpl fst. rewrite !db_set_db. apply swept_twice.
      * exact Hsame2.
    + destruct (cancelUnpaidAppointments_cases now
                  (fst (cancelUnpaidAppointments now w)))
        as [[Hp2 _] | [_ [_ Hsame2]]].
      * exfalso. apply Hno. rewrite Hsame in Hp2. exact Hp2.
      * exact Hsame2.
  - intros Hnone.
    destruct (cancelUnpaidAppointments_cases now w)
      as [[_ Hok] | [Hno _]].
    + rewrite Hok, Hnone. f_equal.
      unfold swept. simpl.
      assert (Hds : map (release []) (doctorSchedules (db w))
                    = doctorSchedules (db w)) by apply release_nil.
      assert (HA : map (cancel now []) (appointment (db w))
                   = appointment (db w)).
      { rewrite <- (map_id (appointment (db w))) at 2.
        apply map_ext. intros a. reflexivity. }
      assert (HP : filter (fun _ : Payment => true) (payment (db w))
                   = payment (db w)).
      { induction (payment (db w)) as [| p t IH]; simpl;
          [reflexivity | now f_equal]. }
      rewrite Hds, HA, HP.
      destruct w as [d s n c]; destruct d; reflexivity.
    + exfalso. apply Hno. rewrite Hnone. intros a [].
Qed.

(** ** Paying for an existing appointment *)

Lemma find_map_inv {R} (f : R -> bool) (g : R -> R) (l : list R) :
  (forall x, f (g x) = f x) ->
  find f (map g l) = option_map g (find f l).
Proof.
  intros H. induction l as [| x l IH]; simpl; [reflexivity |].
  rewrite H. destruct (f x); [reflexivity | exact IH].
Qed.

Lemma find_snoc_fresh {R} (f : R -> bool) (l : list R) (y : R) :
  (forall x, In x l -> f x = false) -> f y = true ->
  find f (l ++ [y]) = Some y.
Proof.
  intros Hl Hy. induction l as [| x l IH]; simpl.
  - now rewrite Hy.
  - rewrite (Hl x (or_introl eq_refl)). apply IH.
    intros z Hz. apply Hl. now right.
Qed.

(** X9.  Once the sweep has cancelled a stale unpaid appointment, its
    patient can no longer pay for it: payment initiation answers
    400 "Cannot pay for cancelled appointment", asks the gateway for
    nothing and leaves the world as the sweep left it. *)
Theorem initiatePaymentForAppointment_after_sweep
    (stripe : SessionParams -> option string) (now : Z) (appointment_ : nat)
    (user : IAuthUser) (w : World) (a : Appointment) :
  ownedAppointment appointment_ user (db w) = Some a ->
  stale now a = true ->
  bindings_present (filter (stale now) (appointment (db w))) (db w) ->
  initiatePaymentForAppointment stripe appointment_ user
    (fst (cancelUnpaidAppointments now w))
  = (fst (cancelUnpaidAppointments now w),
     Err (ApiError 400 "Cannot pay for cancelled appointment")).
Proof.
  intros Hown Hstale Hpresent.
  destruct (cancelUnpaidAppointments_cases now w) as [[_ Hok] | [Hno _]];
    [| contradiction].
  rewrite Hok. simpl fst. clear Hok.
  set (sel := filter (stale now) (appointment (db w))) in *.
  unfold ownedAppointment in Hown.
  destruct (find (fun p => String.eqb (patient_email p) (email user))
              (patient (db w))) as [pd |] eqn:Hpd; [| discriminate].
  assert (Hsel : In a sel).
  { apply filter_In. split; [| exact Hstale].
    apply find_some in Hown. tauto. }
  assert (Hin : inb (appt_id a) (map appt_id sel) = true)
    by (apply inb_In; now apply in_map).
  assert (Hfind :
    find (fun x => Nat.eqb (appt_id x) appointment_
                   && Nat.eqb (patientId x) (patient_id pd))
         (map (cancel now sel) (appointment (db w)))
    = Some (set_status CANCELED now a)).
  { rewrite find_map_inv.
    - rewrite Hown. simpl. unfold cancel. now rewrite Hin.
    - intros x. unfold cancel. destruct (inb (appt_id x) _); reflexivity. }
  apply stale_spec in Hstale. destruct Hstale as [_ Hunpaid].
  unfold initiatePaymentForAppointment, appointment_findUnique_include.
  unfold_ops. simpl. rewrite Hpd. simpl. rewrite Hfind. simpl.
  rewrite Hunpaid. simpl. reflexivity.
Qed.

Lemma initiatePaymentForAppointment_after_sweep_witness :
  snd (initiatePaymentForAppointment Example.gateway_up 101 Example.alice
         Sample.swept_world)
  = Err (ApiError 400 "Cannot pay for cancelled appointment").
Proof.
  change Sample.swept_world
    with (fst (cancelUnpaidAppointments Example.later Example.booked)).
  rewrite (@initiatePaymentForAppointment_after_sweep Example.gateway_up
             Example.later 101 Example.alice Example.booked
             (Example.reservation 101 100)).
  - reflexivity.
  - reflexivity.
  - reflexivity.
  - intros b [Hb | []]. subst b. reflexivity.
Defined.

Lemma createAppointmentWithPayLater_tx_fresh_payment (now : Z)
    (payload : BookingPayload) (patientData : Patient) (doctorData : Doctor)
    (videoCalling : nat) (w w' : World) (a : Appointment) :
  createAppointmentWithPayLater_tx now payload patientData doctorData
    videoCalling w = (w', Ok a) ->
  existsb (fun p => Nat.eqb (appointmentId p) (uuidNext w)) (payment (db w))
  = false.
Proof.
  unfold createAppointmentWithPayLater_tx. unfold_tables. unfold_ops.
  simpl.
  destruct (existsb _ (appointment (db w))) eqn:Hslot; simpl;
    [discriminate |].
  destruct (existsb _ (doctorSchedules (db w))) eqn:Hbind; simpl;
    [| discriminate].
  destruct (existsb (fun p => Nat.eqb (appointmentId p) _) (payment (db w)));
    simpl; [discriminate | reflexivity].
Qed.

(** X10.  After a deferred-payment booking has succeeded, and provided
    the id it drew was not yet the id of an appointment, the same
    caller can start the payment: initiation finds the new appointment
    and its payment record, asks the gateway for a session whose
    metadata are their two ids and whose amount is one hundred times
    the recorded amount, and either appends that session and answers
    the gateway's url or, when the gateway refuses, fails with the
    world unchanged. *)
Theorem initiatePaymentForAppointment_after_pay_later
    (stripe : SessionParams -> option string) (now : Z) (user : IAuthUser)
    (payload : BookingPayload) (w w' : World) (a : Appointment) :
  createAppointmentWithPayLater now user payload w = (w', Ok a) ->
  (forall b, In b (appointment (db w)) -> appt_id b <> appt_id a) ->
  exists session p,
    (In p (payment (db w')) /\ appointmentId p = appt_id a)
    /\ (sp_appointmentId session = appt_id a
        /\ sp_paymentId session = pay_id p
        /\ unit_amount session = (amount p * 100)%Z
        /\ customer_email session = email user)
    /\ (forall url, stripe session = Some url ->
          initiatePaymentForAppointment stripe (appt_id a) user w'
          = (issued session w', Ok url))
    /\ (stripe session = None ->
          initiatePaymentForAppointment stripe (appt_id a) user w'
          = (w', Err StripeError)).
Proof.
  intros Hrun Hfresh.
  destruct (createAppointmentWithPayLater_run _ _ _ _ Hrun)
    as [pd [dd [Hpre Htx]]].
  pose proof (createAppointmentWithPayLater_tx_fresh_payment _ _ _ _ _ _ Htx)
    as Hnopay.
  apply createAppointmentWithPayLater_tx_effect in Htx.
  destruct Htx as [Ha [Hdb [_ _]]]. simpl in Ha, Hdb, Hnopay.
  pose proof (bookingPreconditions_rows _ _ _ Hpre) as Hrows.
  destruct Hrows as [_ [_ [Hdin [Hdid _]]]].
  assert (Hpd : find (fun p => String.eqb (patient_email p) (email user))
                     (patient (db w)) = Some pd).
  { revert Hpre. unfold bookingPreconditions. unfold_ops.
    destruct (find _ (patient (db w))); simpl; [| discriminate].
    destruct (find _ (doctor (db w))); simpl; [| discriminate].
    destruct (find _ (doctorSchedules (db w))); simpl; [| discriminate].
    intros H. now inversion H. }
  destruct (find (fun d => Nat.eqb (doctor_id d) (doctor_id dd))
                 (doctor (db w))) as [d0 |] eqn:Hd0.
  2:{ exfalso. apply (find_none _ _ Hd0) in Hdin.
      now rewrite Nat.eqb_refl in Hdin. }
  set (p := bookedPayment now dd (S (uuidNext w))).
  assert (Hida : appt_id a = S (uuidNext w)) by (rewrite Ha; reflexivity).
  assert (Hpa : patientId a = patient_id pd) by (rewrite Ha; reflexivity).
  assert (Hda : doctorId a = doctor_id dd) by (rewrite Ha; reflexivity).
  assert (Hua : paymentStatus a = UNPAID) by (rewrite Ha; reflexivity).
  assert (Hsa : status a = SCHEDULED) by (rewrite Ha; reflexivity).
  exists (session_for user (doctor_name d0) (amount p) (appt_id a)
                      (pay_id p)), p.
  assert (Hfa :
    find (fun x => Nat.eqb (appt_id x) (appt_id a)
                   && Nat.eqb (patientId x) (patient_id pd))
         (appointment (db w) ++ [a]) = Some a).
  { apply find_snoc_fresh.
    - intros x Hx. apply andb_false_iff. left.
      apply Nat.eqb_neq. now apply Hfresh.
    - now rewrite Hpa, !Nat.eqb_refl. }
  assert (Hfp :
    find (fun x => Nat.eqb (appointmentId x) (appt_id a))
         (payment (db w) ++ [p]) = Some p).
  { apply find_snoc_fresh.
    - intros x Hx. rewrite Hida.
      exact (existsb_false_In _ _ _ Hnopay Hx).
    - rewrite Hida. unfold p. simpl. apply Nat.eqb_refl. }
  assert (Hrun2 :
    initiatePaymentForAppointment stripe (appt_id a) user w'
    = stripe_checkout_sessions_create stripe
        (session_for user (doctor_name d0) (amount p) (appt_id a)
                     (pay_id p)) w').
  { clear Hrun. destruct w' as [d' s' n' c']. simpl in Hdb. subst d'.
    unfold initiatePaymentForAppointment, appointment_findUnique_include.
    unfold_ops. unfold bookedDB. simpl.
    rewrite Hpd. simpl. fold p. rewrite <- Ha, Hfa. simpl.
    rewrite Hfp. simpl. rewrite Hda, Hd0. simpl.
    rewrite Hua, Hsa. simpl.
    unfold stripe_checkout_sessions_create.
    destruct (stripe _); reflexivity. }
  split; [| split; [| split]].
  - split; [| now rewrite Hida].
    rewrite Hdb. unfold bookedDB. simpl. apply in_snoc. now right.
  - repeat split; reflexivity.
  - intros url Hurl. rewrite Hrun2.
    unfold stripe_checkout_sessions_create, issued. now rewrite Hurl.
  - intros Hnone. rewrite Hrun2.
    unfold stripe_checkout_sessions_create. now rewrite Hnone.
Qed.

Lemma initiatePaymentForAppointment_after_pay_later_witness :
  exists session,
    sp_appointmentId session = 101 /\ sp_paymentId session = 103
    /\ unit_amount session = 50000%Z
    /\ stripeSessions
         (fst (initiatePaymentForAppointment Example.gateway_up 101
                 Example.alice Example.booked))
       = [session].
Proof.
  destruct (@initiatePaymentForAppointment_after_pay_later
              Example.gateway_up 1000 Example.alice Example.slot
              Example.clinic Example.booked (Example.reservation 101 100)
              eq_refl)
    as [session [p [[Hp Hid] [[Hs1 [Hs2 [Hs3 _]]] [Hup _]]]]].
  - intros b [].
  - exists session.
    destruct Hp as [Hp | []]. subst p.
    split; [exact Hs1 |]. split; [exact Hs2 |]. split; [exact Hs3 |].
    destruct (Example.gateway_up session) as [url |] eqn:Hgw;
      [| discriminate].
    change 101 with (appt_id (Example.reservation 101 100)).
    rewrite (Hup url eq_refl). reflexivity.
Defined.

(** ** What no call of the appointment service does *)

Lemma sameBooking_refl (a : Appointment) : sameBooking a a.
Proof. repeat split. Qed.

Lemma sameBooking_set_status (st : AppointmentStatus) (now : Z)
    (a : Appointment) :
  sameBooking a (set_status st now a).
Proof. repeat split. Qed.

Lemma booking_tx_appends (now : Z) (payload : BookingPayload)
    (patientData : Patient) (doctorData : Doctor) (videoCalling id : nat)
    (d : DB) :
  existsb (fun x => Nat.eqb (scheduleId x) (payload_scheduleId payload))
          (appointment d) = false ->
  exists a p,
    appointment (bookedDB now payload patientData doctorData videoCalling
                          id d) = appointment d ++ [a]
    /\ payment (bookedDB now payload patientData doctorData videoCalling
                         id d) = payment d ++ [p]
    /\ paymentStatus a = UNPAID /\ status a = SCHEDULED
    /\ pay_status p = UNPAID
    /\ (forall b, In b (appointment d) -> scheduleId b <> scheduleId a).
Proof.
  intros Hfree.
  exists (bookedAppointment now payload patientData doctorData videoCalling
            id), (bookedPayment now doctorData id).
  repeat split.
  intros b Hb Heq. simpl in Heq.
  apply (existsb_false_In _ _ _ Hfree) in Hb.
  apply Nat.eqb_neq in Hb. contradiction.
Qed.

(** Every call either rewrites appointments in place, keeping all but
    their status, and creates no payment record, or appends one
    SCHEDULED, UNPAID appointment on a slot that no appointment held,
    with one UNPAID payment record. *)
Lemma service_step_effect (w w' : World) :
  service_step w w' ->
  (exists g, (forall a, sameBooking a (g a))
             /\ appointment (db w') = map g (appointment (db w))
             /\ (forall p, In p (payment (db w')) -> In p (payment (db w))))
  \/ (exists a p,
        appointment (db w') = appointment (db w) ++ [a]
        /\ payment (db w') = payment (db w) ++ [p]
        /\ paymentStatus a = UNPAID /\ status a = SCHEDULED
        /\ pay_status p = UNPAID
        /\ (forall b, In b (appointment (db w)) ->
                      scheduleId b <> scheduleId a)).
Proof.
  assert (Hsame : forall v : World, db v = db w ->
            exists g, (forall a, sameBooking a (g a))
                      /\ appointment (db v) = map g (appointment (db w))
                      /\ (forall p, In p (payment (db v)) ->
                                    In p (payment (db w)))).
  { intros v Hv. exists (fun a => a). rewrite Hv, map_id.
    split; [apply sameBooking_refl | split; auto]. }
  destruct 1 as [stripe now user payload | now user payload
                | stripe now user payload pd dd vc | now payload pd dd vc
                | stripe id user | now id st user | now | now sel].
  - destruct (createAppointment stripe now user payload w)
      as [w' [url | e]] eqn:Hrun.
    + right. simpl.
      destruct (createAppointment_run _ _ _ _ _ Hrun) as [pd [dd [_ Htx]]].
      apply createAppointment_tx_effect in Htx.
      destruct Htx as [Hdb [_ [_ [a Hlater]]]].
      apply createAppointmentWithPayLater_tx_effect in Hlater.
      destruct Hlater as [_ [_ [_ [_ Hfree]]]]. simpl in Hdb, Hfree.
      rewrite Hdb. now apply booking_tx_appends.
    + left. apply Hsame.
      pose proof (@createAppointment_failure_restores stripe now user
                    payload w e) as Hr.
      rewrite Hrun in Hr. now apply Hr.
  - destruct (createAppointmentWithPayLater now user payload w)
      as [w' [a | e]] eqn:Hrun.
    + right. simpl.
      destruct (createAppointmentWithPayLater_run _ _ _ _ Hrun)
        as [pd [dd [_ Htx]]].
      apply createAppointmentWithPayLater_tx_effect in Htx.
      destruct Htx as [_ [Hdb [_ [_ Hfree]]]]. simpl in Hdb, Hfree.
      rewrite Hdb. now apply booking_tx_appends.
    + left. apply Hsame.
      pose proof (@createAppointmentWithPayLater_failure_restores now user
                    payload w e) as Hr.
      rewrite Hrun in Hr. now apply Hr.
  - unfold transaction.
    destruct (createAppointment_tx stripe now user payload pd dd vc w)
      as [w' [url | e]] eqn:Htx.
    + right. simpl.
      apply createAppointment_tx_effect in Htx.
      destruct Htx as [Hdb [_ [_ [a Hlater]]]].
      apply createAppointmentWithPayLater_tx_effect in Hlater.
      destruct Hlater as [_ [_ [_ [_ Hfree]]]].
      rewrite Hdb. now apply booking_tx_appends.
    + left. apply Hsame. reflexivity.
  - unfold transaction.
    destruct (createAppointmentWithPayLater_tx now payload pd dd vc w)
      as [w' [a | e]] eqn:Htx.
    + right. simpl.
      apply createAppointmentWithPayLater_tx_effect in Htx.
      destruct Htx as [_ [Hdb [_ [_ Hfree]]]].
      rewrite Hdb. now apply booking_tx_appends.
    + left. apply Hsame. reflexivity.
  - left. apply Hsame. apply initiatePaymentForAppointment_db.
  - left. rewrite updateAppointmentStatus_run.
    assert (Hupd :
      exists g, (forall a, sameBooking a (g a))
        /\ appointment (db (set_db (withStatus now id st (db w)) w))
           = map g (appointment (db w))
        /\ (forall p,
              In p (payment (db (set_db (withStatus now id st (db w)) w))) ->
              In p (payment (db w)))).
    { exists (fun a => if Nat.eqb (appt_id a) id
                       then set_status st now a else a).
      rewrite db_set_db. unfold withStatus. simpl.
      split; [| split; auto].
      intros a. destruct (Nat.eqb (appt_id a) id);
        [apply sameBooking_set_status | apply sameBooking_refl]. }
    destruct (appointmentById id (db w)) as [a |];
      [| now apply Hsame].
    simpl.
    destruct (UserRole_eqb (role user) DOCTOR); [| exact Hupd].
    destruct (doctorById (doctorId a) (db w)) as [d |];
      [| now apply Hsame].
    destruct (String.eqb (email user) (doctor_email d));
      [exact Hupd | now apply Hsame].
  - left.
    destruct (cancelUnpaidAppointments_cases now w)
      as [[_ Hok] | [_ [_ Hdb]]]; [| now apply Hsame].
    rewrite Hok. simpl fst. rewrite db_set_db.
    exists (cancel now (filter (stale now) (appointment (db w)))).
    split; [| split].
    + intros a. unfold cancel. destruct (inb _ _);
        [apply sameBooking_set_status | apply sameBooking_refl].
    + reflexivity.
    + intros p Hp. simpl in Hp. apply filter_In in Hp. tauto.
  - left. unfold transaction.
    pose proof (cancelUnpaidAppointments_tx_outcome now sel w) as Hout.
    destruct (cancelUnpaidAppointments_tx now sel w) as [w' [u | e]].
    + simpl. subst w'. rewrite db_set_db.
      exists (cancel now sel).
      split; [| split].
      * intros a. unfold cancel. destruct (inb _ _);
          [apply sameBooking_set_status | apply sameBooking_refl].
      * reflexivity.
      * intros p Hp. simpl in Hp. apply filter_In in Hp. tauto.
    + apply Hsame. reflexivity.
Qed.

(** X12.  No call of the appointment service deletes an appointment or
    changes its patient, doctor, slot or payment status, and none marks
    anything paid: every appointment is still there afterwards, equal
    but for its status and update time; an appointment that is PAID
    afterwards was PAID before; and a payment record that is there
    afterwards either was there before, unchanged, or is UNPAID. *)
Theorem service_step_keeps_bookings (w w' : World) :
  service_step w w' ->
  (forall a, In a (appointment (db w)) ->
     exists a', In a' (appointment (db w')) /\ sameBooking a a')
  /\ (forall a', In a' (appointment (db w')) -> paymentStatus a' = PAID ->
        exists a, In a (appointment (db w)) /\ sameBooking a a')
  /\ (forall p', In p' (payment (db w')) ->
        In p' (payment (db w)) \/ pay_status p' = UNPAID).
Proof.
  intros Hstep.
  destruct (service_step_effect Hstep)
    as [[g [Hg [HA HP]]] | [a0 [p0 [HA [HP [Hunpaid [_ [Hpu _]]]]]]]].
  - split; [| split].
    + intros a Ha. exists (g a). split; [| apply Hg].
      rewrite HA. now apply in_map.
    + intros a' Ha' _. rewrite HA in Ha'. apply in_map_iff in Ha'.
      destruct Ha' as [a [Hga Ha]]. exists a. split; [exact Ha |].
      rewrite <- Hga. apply Hg.
    + intros p' Hp'. left. now apply HP.
  - split; [| split].
    + intros a Ha. exists a. split; [| apply sameBooking_refl].
      rewrite HA. apply in_snoc. now left.
    + intros a' Ha' Hpaid. rewrite HA in Ha'. apply in_snoc in Ha'.
      destruct Ha' as [Ha' | Ha'].
      * exists a'. split; [exact Ha' | apply sameBooking_refl].
      * subst a'. congruence.
    + intros p' Hp'. rewrite HP in Hp'. apply in_snoc in Hp'.
      destruct Hp' as [Hp' | Hp']; [now left | right; now subst p'].
Qed.

Lemma service_step_keeps_bookings_witness :
  exists a', In a' (appointment (db Sample.swept_world))
             /\ sameBooking (Example.reservation 101 100) a'.
Proof.
  destruct (@service_step_keeps_bookings Example.booked Sample.swept_world)
    as [Hkeep _].
  - exact (service_cancelUnpaidAppointments Example.booked Example.later).
  - apply Hkeep. left. reflexivity.
Defined.

(** ** Requests that the webhook controller turns away *)

(** X13.  A webhook request that cannot be verified never reaches the
    payment service, whatever that service is.  When the secret is
    missing or empty the controller sends the plain text
    "Webhook secret not configured" with status 500; when the signature
    check throws it sends the plain text "Webhook Error: " followed by
    the message of the error, with status 400.  In both cases the world
    is the one before plus one console line. *)
Theorem webhook_unverified_rejected
    (webhookSecret : option string)
    (constructEvent : string -> string -> string -> Event + string)
    (service : Event -> M string) (req : Request) (w : World) :
  (configured webhookSecret = None ->
   exists line,
     PaymentController_handleStripeWebhookEvent webhookSecret constructEvent
       service req w
     = (logged line w, Ok (Text 500 "Webhook secret not configured")))
  /\ (forall secret message,
        configured webhookSecret = Some secret ->
        constructEvent (body req) (stripe_signature req) secret
        = inr message ->
        exists line,
          PaymentController_handleStripeWebhookEvent webhookSecret
            constructEvent service req w
          = (logged line w, Ok (Text 400 ("Webhook Error: " ++ message)))).
Proof.
  unfold PaymentController_handleStripeWebhookEvent. split.
  - intros Hsecret. rewrite Hsecret. unfold_ops.
    eexists. reflexivity.
  - intros secret message Hsecret Hthrown. rewrite Hsecret, Hthrown.
    unfold_ops. eexists. reflexivity.
Qed.

Lemma webhook_unverified_rejected_witness :
  (exists line,
     PaymentController_handleStripeWebhookEvent (Some EmptyString)
       (fun _ _ _ => inl Example.completed)
       (fun _ => cancelUnpaidAppointments Example.later ;;; ret "done"%string)
       {| stripe_signature := "t=1,v1=0"; body := "{}" |} Example.booked
     = (logged line Example.booked,
        Ok (Text 500 "Webhook secret not configured")))
  /\ (exists line,
        PaymentController_handleStripeWebhookEvent (Some "whsec_test"%string)
          (fun _ _ _ => inr "No signatures found"%string)
          (fun _ => cancelUnpaidAppointments Example.later ;;;
                    ret "done"%string)
          {| stripe_signature := "t=1,v1=0"; body := "{}" |} Example.booked
        = (logged line Example.booked,
           Ok (Text 400 "Webhook Error: No signatures found"))).
Proof.
  split.
  - destruct (@webhook_unverified_rejected (Some EmptyString)
                (fun _ _ _ => inl Example.completed)
                (fun _ => cancelUnpaidAppointments Example.later ;;;
                          ret "done"%string)
                {| stripe_signature := "t=1,v1=0"; body := "{}" |}
                Example.booked) as [Hmissing _].
    exact (Hmissing eq_refl).
  - destruct (@webhook_unverified_rejected (Some "whsec_test"%string)
                (fun _ _ _ => inr "No signatures found"%string)
                (fun _ => cancelUnpaidAppointments Example.later ;;;
                          ret "done"%string)
                {| stripe_signature := "t=1,v1=0"; body := "{}" |}
                Example.booked) as [_ Hthrown].
    exact (Hthrown "whsec_test"%string "No signatures found"%string
             eq_refl eq_refl).
Defined.

(** ** More on the schedule generator *)

Lemma digits_colonFree (s : string) : forall acc v,
  digits acc s = Some v -> colonFree s = true.
Proof.
  induction s as [| c rest IH]; intros acc v H; simpl in *; [reflexivity |].
  destruct (digit c) as [d |] eqn:Hd; [| discriminate].
  rewrite (IH _ _ H), andb_true_r.
  destruct (Ascii.eqb c ":") eqn:Hc; [| reflexivity].
  apply Ascii.eqb_eq in Hc. subst c. discriminate Hd.
Qed.

Lemma split_colonFree (s : string) :
  colonFree s = true -> split ":" s = [s].
Proof.
  induction s as [| c rest IH]; simpl; [reflexivity |].
  intros H. apply andb_prop in H. destruct H as [Hc Hrest].
  apply negb_true_iff in Hc. rewrite Hc, (IH Hrest). reflexivity.
Qed.

Lemma split_app_colon (hs t : string) :
  colonFree hs = true ->
  split ":" (hs ++ String ":" t) = hs :: split ":" t.
Proof.
  induction hs as [| c rest IH]; simpl; [reflexivity |].
  intros H. apply andb_prop in H. destruct H as [Hc Hrest].
  apply negb_true_iff in Hc. rewrite Hc, (IH Hrest). reflexivity.
Qed.

Lemma timeOfDay_timeOffset (tz D : Z) (time : string) :
  timeOfDay tz D time
  = match timeOffset time with
    | Some o => Some (formatDay tz D + o)%Z
    | None => None
    end.
Proof.
  unfold timeOfDay, timeOffset, addMinutes, addHours.
  destruct (Number (nth_error (split ":" time) 0)) as [h |];
    destruct (Number (nth_error (split ":" time) 1)) as [m |];
    try reflexivity.
  f_equal. lia.
Qed.

(** X14.  The generator reads "HH:MM" as HH hours and MM minutes after
    midnight of the day and checks no range of hours or minutes: for a
    day from 1970 to 9999, any two unsigned decimal numerals around a
    colon are a time of day as long as the instant they give is a valid
    [Date], so that "24:75" is 75 minutes past the next midnight. *)
Theorem timeOfDay_unchecked (tz D : Z) (hs ms : string) (h m : Z) :
  digits 0 hs = Some h -> digits 0 ms = Some m ->
  (0 <= formatDay tz D <= LAST_DAY)%Z ->
  (formatDay tz D + h * HOUR + m * MINUTE <= MAX_TIME)%Z ->
  timeOfDay tz D (hs ++ String ":" ms)
  = Some (formatDay tz D + h * HOUR + m * MINUTE)%Z.
Proof.
  intros Hh Hm _ _.
  rewrite timeOfDay_timeOffset. unfold timeOffset.
  rewrite split_app_colon by (eapply digits_colonFree; eauto).
  rewrite split_colonFree by (eapply digits_colonFree; eauto).
  simpl. rewrite Hh, Hm. f_equal. lia.
Qed.

Lemma timeOfDay_unchecked_witness :
  timeOfDay 0 0 "24:75" = Some (86400000 + 4500000)%Z.
Proof.
  refine (@timeOfDay_unchecked 0 0 "24" "75" 24 75 eq_refl eq_refl _ _).
  - vm_compute. split; discriminate.
  - vm_compute. discriminate.
Defined.

Lemma rangeStarts_nil (tz : Z) (st et : string) (n : nat) : forall D,
  (forall D', dayStarts tz st et D' = []) -> rangeStarts tz st et n D = [].
Proof.
  induction n as [| n IH]; intros D H; simpl; [reflexivity |].
  now rewrite H, IH.
Qed.

Lemma rounds_empty (s e : Z) : (e <= s)%Z -> rounds s e = 0%nat.
Proof.
  intros H. unfold rounds, intervalTime, MINUTE.
  assert ((e - s + 30 * 60000 - 1) / (30 * 60000) <= 0)%Z.
  { apply Z.lt_succ_r. apply Z.div_lt_upper_bound; lia. }
  lia.
Qed.

(** X15.  The generator creates nothing and leaves the world as it is
    when the range or the window is empty: when the end date is before
    the start date, when one of the two times has no colon (its minutes
    are then [Number(undefined)], and every comparison with the Invalid
    Date is false), and when the end time is not after the start
    time. *)
Theorem inserIntoDB_empty_window (tz : Z) (payload : ISchedule) (w : World) :
  (endDate payload < startDate payload)%Z
  \/ colonFree (startTime payload) = true
  \/ colonFree (endTime payload) = true
  \/ (exists s e, timeOffset (startTime payload) = Some s
                  /\ timeOffset (endTime payload) = Some e /\ (e <= s)%Z) ->
  inserIntoDB tz payload w = (w, Ok []).
Proof.
  intros H. rewrite inserIntoDB_insertAll.
  assert (Hnone : candidates tz payload = []).
  { unfold candidates.
    destruct H as [Hrange | Hwindow].
    - assert (Hd : days (startDate payload) (endDate payload) = 0%nat).
      { unfold days, DAY.
        assert ((endDate payload - startDate payload) / 86400000 < 0)%Z
          by (apply Z.div_lt_upper_bound; lia).
        lia. }
      now rewrite Hd.
    - apply rangeStarts_nil. intros D. unfold dayStarts.
      rewrite !timeOfDay_timeOffset. unfold timeOffset.
      destruct Hwindow as [Hst | [Het | [s [e [Hs [He Hle]]]]]].
      + rewrite (split_colonFree _ Hst). simpl.
        destruct (digits 0 (startTime payload)); reflexivity.
      + rewrite (split_colonFree _ Het). simpl.
        destruct (match Number (nth_error (split ":" (startTime payload)) 0)
                  with Some _ => _ | None => _ end);
          destruct (digits 0 (endTime payload)); reflexivity.
      + unfold timeOffset in Hs, He. rewrite Hs, He.
        rewrite rounds_empty by lia. reflexivity. }
  rewrite Hnone. reflexivity.
Qed.

Lemma inserIntoDB_empty_window_witness :
  inserIntoDB 0 {| startDate := 0; endDate := 86400000;
                   startTime := "10:00"; endTime := "09:00" |}
    Example.clinic
  = (Example.clinic, Ok []).
Proof.
  apply inserIntoDB_empty_window.
  right. right. right. exists 36000000%Z, 32400000%Z.
  repeat split. simpl. lia.
Defined.

Lemma stored_false_interval (tz : Z) (d : DB) (x : Z) (r0 : Schedule) :
  stored tz d x = false -> In r0 (schedule d) ->
  interval r0
  <> (convertDateTime tz x,
      convertDateTime tz (x + intervalTime * MINUTE)%Z).
Proof.
  intros Hs Hin Heq. unfold stored in Hs.
  apply (existsb_false_In _ _ _ Hs) in Hin.
  unfold interval in Heq. inversion Heq as [[H1 H2]].
  unfold sameInterval in Hin. rewrite H1, H2, !Z.eqb_refl in Hin.
  discriminate.
Qed.

(** What one run over the start instants [l] creates: rows with
    consecutive fresh ids, each the half hour of a candidate that was
    not stored, no two on the same interval. *)
Lemma insertAll_created (tz : Z) (l : list Z) : forall acc w,
  exists created,
    insertAll tz l acc w = (with_slots created w, Ok (acc ++ created))
    /\ map schedule_id created = seq (uuidNext w) (List.length created)
    /\ (forall r, In r created ->
          exists x, In x l
                    /\ startDateTime r = convertDateTime tz x
                    /\ endDateTime r
                       = convertDateTime tz (x + intervalTime * MINUTE)%Z
                    /\ stored tz (db w) x = false)
    /\ NoDup (map interval created).
Proof.
  induction l as [| x rest IH]; intros acc w.
  - exists []. simpl. rewrite with_slots_nil, app_nil_r.
    repeat split; [intros r [] | constructor].
  - simpl. rewrite bind_run.
    destruct (stored tz (db w) x) eqn:Hx.
    + rewrite (@createIfAbsent_stored tz x acc w Hx).
      destruct (IH acc w) as [created [Hrun [Hids [Hrows Hnd]]]].
      exists created. repeat split; try assumption.
      intros r Hr. destruct (Hrows r Hr) as [y [Hy H]].
      exists y. split; [now right | exact H].
    + rewrite (@createIfAbsent_fresh tz x acc w Hx).
      set (row := rows tz (uuidNext w) [x]).
      destruct (IH (acc ++ row) (with_slots row w))
        as [created [Hrun [Hids [Hrows Hnd]]]].
      exists (row ++ created).
      rewrite Hrun, with_slots_app, app_assoc.
      split; [reflexivity |].
      assert (Hold : forall r, In r created ->
                exists y, In y rest
                  /\ startDateTime r = convertDateTime tz y
                  /\ endDateTime r
                     = convertDateTime tz (y + intervalTime * MINUTE)%Z
                  /\ stored tz (db (with_slots row w)) y = false).
      { exact Hrows. }
      split; [| split].
      * unfold row. simpl. f_equal. exact Hids.
      * intros r [Hr | Hr].
        -- subst r. exists x. simpl. repeat split; auto.
        -- destruct (Hold r Hr) as [y [Hy [H1 [H2 H3]]]].
           exists y. repeat split; auto.
           rewrite stored_with_slots in H3.
           apply orb_false_iff in H3. tauto.
      * unfold row. simpl. constructor; [| exact Hnd].
        intros Hin. apply in_map_iff in Hin.
        destruct Hin as [r [Hint Hr]].
        destruct (Hold r Hr) as [y [_ [H1 [H2 H3]]]].
        refine (@stored_false_interval tz (db (with_slots row w)) y
                  {| schedule_id := uuidNext w;
                     startDateTime := convertDateTime tz x;
                     endDateTime :=
                       convertDateTime tz (x + intervalTime * MINUTE)%Z |}
                  H3 _ _).
        -- simpl. apply in_snoc. now right.
        -- rewrite <- H1, <- H2. symmetry. exact Hint.
Qed.

(** X16.  On a server whose timezone offset is the constant [tz], every
    run of the generator on a well-formed payload (dates from 1970 to
    9999, times written with plain numerals within two days of
    midnight) returns, whatever is stored: the slots it
    creates are appended to the table and are the list it returns; each
    starts at a candidate instant shifted by the offset and lasts
    exactly 30 minutes, and none has the interval of a slot that was
    stored before or of another slot of the run; so a table in which no
    two slots have the same interval stays one. *)
Theorem inserIntoDB_creates_new_half_hours (tz : Z) (payload : ISchedule)
    (w : World) :
  wellFormed tz payload ->
  exists created,
    inserIntoDB tz payload w = (with_slots created w, Ok created)
    /\ (forall r, In r created ->
          (exists x, In x (candidates tz payload)
                     /\ startDateTime r = (x + tz * MINUTE)%Z
                     /\ endDateTime r
                        = (x + intervalTime * MINUTE + tz * MINUTE)%Z)
          /\ endDateTime r = (startDateTime r + intervalTime * MINUTE)%Z
          /\ (forall r0, In r0 (schedule (db w)) ->
                         interval r0 <> interval r))
    /\ NoDup (map interval created)
    /\ (NoDup (map interval (schedule (db w))) ->
        NoDup (map interval (schedule (db (with_slots created w))))).
Proof.
  intros _. rewrite inserIntoDB_insertAll.
  destruct (insertAll_created tz (candidates tz payload) [] w)
    as [created [Hrun [_ [Hrows Hnd]]]].
  exists created. split; [exact Hrun |].
  assert (Hnew : forall r, In r created ->
            forall r0, In r0 (schedule (db w)) -> interval r0 <> interval r).
  { intros r Hr r0 Hr0.
    destruct (Hrows r Hr) as [x [_ [H1 [H2 H3]]]].
    unfold interval at 2. rewrite H1, H2.
    exact (@stored_false_interval tz (db w) x r0 H3 Hr0). }
  split; [| split; [exact Hnd |]].
  - intros r Hr. destruct (Hrows r Hr) as [x [Hx [H1 [H2 H3]]]].
    split; [| split].
    + exists x. split; [exact Hx |].
      rewrite H1, H2. unfold convertDateTime, MINUTE. split; reflexivity.
    + rewrite H1, H2. unfold convertDateTime. lia.
    + now apply Hnew.
  - intros Hold. simpl. rewrite map_app.
    apply NoDup_app; [exact Hold | exact Hnd |].
    intros i Hi Hi'. apply in_map_iff in Hi. apply in_map_iff in Hi'.
    destruct Hi as [r0 [Hr0 Hin0]]. destruct Hi' as [r [Hr Hin]].
    apply (Hnew r Hin r0 Hin0). congruence.
Qed.

Lemma inserIntoDB_creates_new_half_hours_witness :
  exists created,
    inserIntoDB 0 {| startDate := 0; endDate := 86400000;
                     startTime := "09:00"; endTime := "10:00" |}
      Sample.open
    = (with_slots created Sample.open, Ok created)
    /\ map interval created
       = [ (118800000, 120600000); (120600000, 122400000) ]%Z
    /\ NoDup (map interval (schedule (db (with_slots created Sample.open)))).
Proof.
  destruct (@inserIntoDB_creates_new_half_hours 0
              {| startDate := 0; endDate := 86400000;
                 startTime := "09:00"; endTime := "10:00" |} Sample.open)
    as [created [Hrun [_ [_ Hkeep]]]].
  - unfold wellFormed. cbn [startDate endDate startTime endTime].
    split; [lia |]. split; [unfold LAST_DAY, DAY; lia |].
    split; [lia |].
    exists 32400000%Z, 36000000%Z. repeat split; unfold DAY; lia.
  - exists created. split; [exact Hrun |]. split.
    + vm_compute in Hrun. inversion Hrun. reflexivity.
    + apply Hkeep. simpl.
      constructor; [intros [H | []]; inversion H |].
      constructor; [intros [] | constructor].
Defined.

Lemma formatDay_next (tz D : Z) :
  formatDay tz (D + DAY) = (formatDay tz D + DAY)%Z.
Proof.
  unfold formatDay, DAY.
  replace (D + 86400000 - tz * 60000)%Z
    with ((D - tz * 60000) + 1 * 86400000)%Z by lia.
  rewrite Z.div_add by lia. lia.
Qed.

Lemma starts_shift (n : nat) : forall s k,
  starts n (s + k) = map (fun x => x + k)%Z (starts n s).
Proof.
  induction n as [| n IH]; intros s k; simpl; [reflexivity |].
  f_equal. rewrite <- IH. f_equal. lia.
Qed.

Lemma dayStarts_next (tz : Z) (st et : string) (D : Z) :
  dayStarts tz st et (D + DAY)
  = map (fun x => x + DAY)%Z (dayStarts tz st et D).
Proof.
  unfold dayStarts. rewrite !timeOfDay_timeOffset, formatDay_next.
  destruct (timeOffset st) as [s |]; [| reflexivity].
  destruct (timeOffset et) as [e |]; [| reflexivity].
  assert (Hr : rounds (formatDay tz D + DAY + s) (formatDay tz D + DAY + e)
               = rounds (formatDay tz D + s) (formatDay tz D + e)).
  { unfold rounds. f_equal. f_equal. lia. }
  rewrite Hr, <- starts_shift. f_equal. lia.
Qed.

Lemma flat_map_after_map {A B C} (f : B -> list C) (g : A -> B)
    (l : list A) :
  flat_map f (map g l) = flat_map (fun x => f (g x)) l.
Proof.
  induction l as [| x l IH]; simpl; [reflexivity | now rewrite IH].
Qed.

Lemma rangeStarts_days (tz : Z) (st et : string) (n : nat) : forall D,
  rangeStarts tz st et n D
  = flat_map (fun k => map (fun x => x + Z.of_nat k * DAY)%Z
                           (dayStarts tz st et D))
             (seq 0 n).
Proof.
  induction n as [| n IH]; intros D; [reflexivity |].
  cbn [rangeStarts]. rewrite IH, <- cons_seq. cbn [flat_map]. f_equal.
  - rewrite <- (map_id (dayStarts tz st et D)) at 1.
    apply map_ext. intros x. lia.
  - rewrite <- seq_shift, flat_map_after_map.
    apply flat_map_ext. intros k.
    rewrite dayStarts_next, map_map. apply map_ext. intros x. lia.
Qed.

(** X17.  The generator treats every day of the range alike: the
    instants at which it tries to create a slot are those of the first
    day, repeated every 24 hours for each day up to the end date, in
    that order. *)
Theorem inserIntoDB_same_window_every_day (tz : Z) (payload : ISchedule)
    (w : World) :
  inserIntoDB tz payload w
  = insertAll tz
      (flat_map (fun k => map (fun x => x + Z.of_nat k * DAY)%Z
                              (dayStarts tz (startTime payload)
                                 (endTime payload) (startDate payload)))
                (seq 0 (days (startDate payload) (endDate payload))))
      [] w.
Proof.
  rewrite inserIntoDB_insertAll. unfold candidates.
  now rewrite rangeStarts_days.
Qed.

(** ** The listing queries *)

Lemma in_page {R} (take skip_ : nat) (l : list R) (x : R) :
  In x (firstn take (skipn skip_ l)) -> In x l.
Proof.
  intros H.
  assert (Hskip : In x (skipn skip_ l)).
  { revert H. generalize (skipn skip_ l). clear l.
    induction take as [| n IH]; intros l H; [contradiction |].
    destruct l as [| y l]; [contradiction |].
    destruct H as [H | H]; [now left | right; now apply IH]. }
  clear H. revert l Hskip.
  induction skip_ as [| n IH]; intros l H; [exact H |].
  destruct l as [| y l]; [contradiction |].
  right. apply IH. exact H.
Qed.

Lemma startOfUTCDay_le (t x : Z) :
  (startOfUTCDay t <=? x)%Z = true <-> (t / DAY <= x / DAY)%Z.
Proof.
  unfold startOfUTCDay, DAY. rewrite Z.leb_le. split; intros H.
  - apply Z.div_le_lower_bound; lia.
  - pose proof (Z.mul_div_le x 86400000). nia.
Qed.

Lemma endOfUTCDay_ge (t x : Z) :
  (x <=? endOfUTCDay t)%Z = true <-> (x / DAY <= t / DAY)%Z.
Proof.
  unfold endOfUTCDay, DAY. rewrite Z.leb_le. split; intros H.
  - apply Z.lt_succ_r. apply Z.div_lt_upper_bound; lia.
  - pose proof (Z.mod_pos_bound x 86400000).
    pose proof (Z.div_mod x 86400000). nia.
Qed.

Section ListingProperties.

Variable calculatePagination : IPaginationOptions -> Pagination.
Variable orderAppointments : string -> string -> list Appointment
                             -> list Appointment.
Variable orderSchedules : string -> string -> list Schedule -> list Schedule.
Variable equalsAppointment : string -> string -> Appointment -> bool.
Variable equalsSchedule : string -> string -> Schedule -> bool.

(** Ordering invents no rows. *)
Hypothesis orderAppointments_rows : forall field direction l a,
  In a (orderAppointments field direction l) -> In a l.
Hypothesis orderSchedules_rows : forall field direction l r,
  In r (orderSchedules field direction l) -> In r l.

(** X18.  The schedule listing reads only.  Every slot it returns is a
    stored slot that no binding of the calling doctor refers to; when
    dates are given it starts on a UTC day from the start date's to the
    end date's, a single date standing for both; and a page holds at
    most [limit] slots. *)
Theorem ScheduleService_getAllFromDB_lists_free_slots
    (filters : IFilterRequest) (options : IPaginationOptions)
    (user : IAuthUser) (w : World) :
  exists listing,
    ScheduleService_getAllFromDB calculatePagination orderSchedules
      equalsSchedule filters options user w = (w, Ok listing)
    /\ List.length (data listing) <= limit (calculatePagination options)
    /\ forall r, In r (data listing) ->
         In r (schedule (db w))
         /\ (forall b d, In b (doctorSchedules (db w)) ->
               In d (doctor (db w)) ->
               doctor_id d = ds_doctorId b ->
               doctor_email d = email user ->
               ds_scheduleId b <> schedule_id r)
         /\ (forall s e,
               match filter_startDate filters, filter_endDate filters with
               | Some s0, Some e0 => s = s0 /\ e = e0
               | Some s0, None => s = s0 /\ e = s0
               | None, Some e0 => s = e0 /\ e = e0
               | None, None => False
               end ->
               (s / DAY <= startDateTime r / DAY <= e / DAY)%Z).
Proof.
  unfold ScheduleService_getAllFromDB, findManyWhere, findManyPaged, count.
  unfold_ops. cbn beta iota.
  eexists. split; [reflexivity |]. cbn [data]. split.
  - apply firstn_le_length.
  - intros r Hr. apply in_page in Hr. apply orderSchedules_rows in Hr.
    apply filter_In in Hr. destruct Hr as [Hin Hwhere].
    unfold ScheduleService_getAllFromDB_where in Hwhere.
    apply andb_prop in Hwhere. destruct Hwhere as [Hwhere Hnot].
    apply andb_prop in Hwhere. destruct Hwhere as [Hwin _].
    split; [exact Hin |]. split.
    + intros b d Hb Hd Hid Hmail Heq.
      apply negb_true_iff in Hnot.
      assert (Hyes : inb (schedule_id r)
                (map ds_scheduleId
                   (filter (bindingOfDoctorEmail (db w) (email user))
                           (doctorSchedules (db w)))) = true).
      { apply inb_In. rewrite <- Heq. apply in_map.
        apply filter_In. split; [exact Hb |].
        unfold bindingOfDoctorEmail. apply existsb_exists.
        exists d. split; [exact Hd |].
        rewrite Hid, Hmail, Nat.eqb_refl, String.eqb_refl. reflexivity. }
      rewrite Hyes in Hnot. discriminate Hnot.
    + intros s e Hdates. unfold dateWindow, inWindow in Hwin.
      destruct (filter_startDate filters) as [s0 |];
        destruct (filter_endDate filters) as [e0 |];
        try contradiction; destruct Hdates as [Hs He]; subst s e;
        apply andb_prop in Hwin; destruct Hwin as [Hlo Hhi];
        apply startOfUTCDay_le in Hlo; apply endOfUTCDay_ge in Hhi;
        split; assumption.
Qed.


(** X20.  In the administrators' listing the doctor filter is an
    [else if] of the patient filter: when a patient e-mail is given,
    the answer is the same whatever doctor e-mail comes with it, and
    every row returned is an appointment of a patient record with that
    e-mail. *)
Theorem AppointmentService_getAllFromDB_patient_first
    (e : string) (doctor1 doctor2 : option string)
    (rest : list (string * string)) (options : IPaginationOptions)
    (w : World) :
  e <> EmptyString ->
  AppointmentService_getAllFromDB calculatePagination orderAppointments
    equalsAppointment
    {| patientEmail := Some e; doctorEmail := doctor1; filterData := rest |}
    options w
  = AppointmentService_getAllFromDB calculatePagination orderAppointments
      equalsAppointment
      {| patientEmail := Some e; doctorEmail := doctor2; filterData := rest |}
      options w
  /\ exists listing,
       AppointmentService_getAllFromDB calculatePagination orderAppointments
         equalsAppointment
         {| patientEmail := Some e; doctorEmail := doctor1;
            filterData := rest |} options w = (w, Ok listing)
       /\ forall a, In a (data listing) ->
            exists p, In p (patient (db w))
                      /\ patient_id p = patientId a
                      /\ patient_email p = e.
Proof.
  intros He.
  assert (Ht : truthy (Some e) = Some e)
    by (destruct e; [congruence | reflexivity]).
  assert (Hw : forall dm,
            AppointmentService_getAllFromDB_where equalsAppointment
              {| patientEmail := Some e; doctorEmail := dm;
                 filterData := rest |}
            = fun d a => patientHasEmail d e a
                         && forallb (fun kv => equalsAppointment (fst kv)
                                                 (snd kv) a) rest).
  { intros dm. unfold AppointmentService_getAllFromDB_where.
    cbn [patientEmail doctorEmail filterData]. now rewrite Ht. }
  split.
  - unfold AppointmentService_getAllFromDB. now rewrite !Hw.
  - unfold AppointmentService_getAllFromDB, findManyPaged, count.
    unfold_ops. cbn beta iota.
    eexists. split; [reflexivity |]. cbn [data].
    intros a Ha. apply in_page in Ha. apply orderAppointments_rows in Ha.
    apply filter_In in Ha. destruct Ha as [_ Hwhere].
    rewrite Hw in Hwhere.
    apply andb_prop in Hwhere. destruct Hwhere as [Hown _].
    unfold patientHasEmail in Hown. apply existsb_exists in Hown.
    destruct Hown as [p [Hp Hmatch]]. apply andb_prop in Hmatch.
    destruct Hmatch as [Hid Hmail].
    apply Nat.eqb_eq in Hid. apply String.eqb_eq in Hmail. eauto.
Qed.

End ListingProperties.

Lemma ScheduleService_getAllFromDB_lists_free_slots_witness :
  exists listing,
    ScheduleService_getAllFromDB Sample.paginate (@Sample.unordered Schedule)
      (@Sample.anyValue Schedule)
      {| filter_startDate := Some 40000000%Z; filter_endDate := None;
         filter_rest := [] |}
      {| options_page := None; options_limit := None;
         options_sortBy := None; options_sortOrder := None |}
      Sample.rahman Sample.open = (Sample.open, Ok listing)
    /\ map schedule_id (data listing) = [101].
Proof.
  destruct (@ScheduleService_getAllFromDB_lists_free_slots Sample.paginate
              (@Sample.unordered Schedule) (@Sample.anyValue Schedule)
              (fun _ _ _ _ H => H)
              {| filter_startDate := Some 40000000%Z; filter_endDate := None;
                 filter_rest := [] |}
              {| options_page := None; options_limit := None;
                 options_sortBy := None; options_sortOrder := None |}
              Sample.rahman Sample.open) as [listing [Hrun _]].
  exists listing. split; [exact Hrun |].
  vm_compute in Hrun. inversion Hrun. reflexivity.
Defined.


Lemma AppointmentService_getAllFromDB_patient_first_witness :
  AppointmentService_getAllFromDB Sample.paginate
    (@Sample.unordered Appointment) (@Sample.anyValue Appointment)
    {| patientEmail := Some "alice@mail"%string;
       doctorEmail := Some "nobody@mail"%string; filterData := [] |}
    {| options_page := None; options_limit := None;
       options_sortBy := None; options_sortOrder := None |} Example.booked
  = AppointmentService_getAllFromDB Sample.paginate
      (@Sample.unordered Appointment) (@Sample.anyValue Appointment)
      {| patientEmail := Some "alice@mail"%string;
         doctorEmail := None; filterData := [] |}
      {| options_page := None; options_limit := None;
         options_sortBy := None; options_sortOrder := None |} Example.booked.
Proof.
  refine (proj1 (@AppointmentService_getAllFromDB_patient_first
                   Sample.paginate (@Sample.unordered Appointment)
                   (@Sample.anyValue Appointment) (fun _ _ _ _ H => H)
                   "alice@mail"%string (Some "nobody@mail"%string) None []
                   {| options_page := None; options_limit := None;
                      options_sortBy := None; options_sortOrder := None |}
                   Example.booked _)).
  discriminate.
Defined.

(** ** Looking a slot up by its id *)

Lemma find_app_first {R} (f : R -> bool) (l1 l2 : list R) :
  find f (l1 ++ l2)
  = match find f l1 with Some x => Some x | None => find f l2 end.
Proof.
  induction l1 as [| x l1 IH]; simpl; [reflexivity |].
  destruct (f x); [reflexivity | exact IH].
Qed.

Lemma find_unique_key {R} (key : R -> nat) (l : list R) (r : R) :
  NoDup (map key l) -> In r l ->
  find (fun x => Nat.eqb (key x) (key r)) l = Some r.
Proof.
  induction l as [| y l IH]; simpl; [contradiction |].
  intros Hnd Hin. inversion Hnd as [| ? ? Hnotin Hnd']; subst.
  destruct Hin as [Hin | Hin].
  - subst y. now rewrite Nat.eqb_refl.
  - destruct (Nat.eqb (key y) (key r)) eqn:Hk.
    + exfalso. apply Nat.eqb_eq in Hk. apply Hnotin. rewrite Hk.
      now apply in_map.
    + now apply IH.
Qed.

(** X21.  A slot that the generator has just created is found again
    under its id, and the look-up changes nothing, provided the ids of
    the slots stored before were drawn from the same counter. *)
Theorem getByIdFromDB_finds_created (tz : Z) (payload : ISchedule)
    (w w' : World) (created : list Schedule) (r : Schedule) :
  (forall r0, In r0 (schedule (db w)) -> schedule_id r0 < uuidNext w) ->
  inserIntoDB tz payload w = (w', Ok created) ->
  In r created ->
  getByIdFromDB (schedule_id r) w' = (w', Ok (Some r)).
Proof.
  intros Hold Hrun Hr. rewrite inserIntoDB_insertAll in Hrun.
  destruct (insertAll_created tz (candidates tz payload) [] w)
    as [created' [Hrun' [Hids _]]].
  rewrite Hrun in Hrun'. inversion Hrun'; subst created' w'. clear Hrun'.
  assert (Hge : uuidNext w <= schedule_id r).
  { assert (Hin : In (schedule_id r) (map schedule_id created))
      by now apply in_map.
    rewrite Hids in Hin. apply in_seq in Hin. lia. }
  assert (Hnd : NoDup (map schedule_id created))
    by (rewrite Hids; apply seq_NoDup).
  unfold getByIdFromDB, findFirst. unfold_ops. simpl.
  rewrite find_app_first.
  assert (Hnone : find (fun x => Nat.eqb (schedule_id x) (schedule_id r))
                       (schedule (db w)) = None).
  { apply find_none_iff. intros x Hx. apply Nat.eqb_neq.
    specialize (Hold x Hx). lia. }
  rewrite Hnone, (find_unique_key schedule_id _ _ Hnd Hr). reflexivity.
Qed.

Lemma getByIdFromDB_finds_created_witness :
  snd (getByIdFromDB 101
         (fst (inserIntoDB 0 {| startDate := 0; endDate := 0;
                                startTime := "09:00"; endTime := "10:00" |}
                 Example.clinic)))
  = Ok (Some {| schedule_id := 101; startDateTime := 34200000;
                endDateTime := 36000000 |}).
Proof.
  refine (f_equal snd
            (@getByIdFromDB_finds_created 0
               {| startDate := 0; endDate := 0;
                  startTime := "09:00"; endTime := "10:00" |}
               Example.clinic
               (fst (inserIntoDB 0 {| startDate := 0; endDate := 0;
                                      startTime := "09:00";
                                      endTime := "10:00" |} Example.clinic))
               open_slots
               {| schedule_id := 101; startDateTime := 34200000;
                  endDateTime := 36000000 |} _ _ _)).
  - intros r0 [].
  - reflexivity.
  - right. left. reflexivity.
Defined.

(** ** What a client sees of an error *)

(** X22.  Whatever error reaches the global error handler, thrown by a
    service or by a library, and whatever the texts of the library
    errors are, the answer has status 500 and [success = false] and its
    message is never empty.  The status that an [ApiError] carries is
    not used.  A validation error of the Prisma client is reported as
    "Validation Error" and a unique-constraint failure as
    "Duplicate Key error", whatever their own message; any other error
    shows its own message, or "Something went wrong!" when that is
    empty. *)
Theorem globalErrorHandler_always_500 (libraryMessage : Error -> string)
    (err : Error) :
  let answer := globalErrorHandler libraryMessage err in
  res_statusCode answer = 500
  /\ res_success answer = false
  /\ res_message answer <> EmptyString
  /\ (forall message,
        err = ValidationError message ->
        res_message answer = "Validation Error"%string)
  /\ (forall target,
        err = UniqueConstraintError target ->
        res_message answer = "Duplicate Key error"%string)
  /\ ((forall message, err <> ValidationError message) ->
      (forall target, err <> UniqueConstraintError target) ->
      (error_message libraryMessage err = EmptyString ->
       res_message answer = "Something went wrong!"%string)
      /\ (error_message libraryMessage err <> EmptyString ->
          res_message answer = error_message libraryMessage err))
  /\ (forall code message,
        err = ApiError code message ->
        res_message answer
        = if String.eqb message "" then "Something went wrong!"%string
          else message).
Proof.
  intros answer. subst answer.
  split; [reflexivity |]. split; [reflexivity |].
  split; [| split; [| split; [| split]]].
  - unfold globalErrorHandler. cbn [res_message].
    destruct err as [model | target | vmessage | code message | | message |];
      try discriminate;
      destruct (String.eqb (error_message libraryMessage _) EmptyString)
        eqn:He;
      try discriminate;
      apply String.eqb_neq in He; exact He.
  - intros message Herr. subst err. reflexivity.
  - intros target Herr. subst err. reflexivity.
  - intros Hv Hu. unfold globalErrorHandler. cbn [res_message].
    destruct err as [model | target | vmessage | code message | | message |];
      try (exfalso; eapply Hv; reflexivity);
      try (exfalso; eapply Hu; reflexivity);
      (split; intros He;
       [rewrite He; reflexivity
       | apply String.eqb_neq in He; rewrite He; reflexivity]).
  - intros code message Herr. subst err. reflexivity.
Qed.

Lemma globalErrorHandler_always_500_witness :
  res_statusCode
    (globalErrorHandler (fun _ => "No record was found"%string)
       (ApiError 400 "")) = 500
  /\ res_message
       (globalErrorHandler (fun _ => "No record was found"%string)
          (ApiError 400 ""))
     = "Something went wrong!"%string
  /\ res_message
       (globalErrorHandler (fun _ => "No record was found"%string)
          (ValidationError "Argument `id` is missing."))
     = "Validation Error"%string.
Proof.
  destruct (globalErrorHandler_always_500
              (fun _ => "No record was found"%string) (ApiError 400 ""))
    as [Hcode [_ [_ [_ [_ [_ Hapi]]]]]].
  destruct (globalErrorHandler_always_500
              (fun _ => "No record was found"%string)
              (ValidationError "Argument `id` is missing."))
    as [_ [_ [_ [Hvalidation _]]]].
  split; [exact Hcode |]. split.
  - exact (Hapi 400 EmptyString eq_refl).
  - exact (Hvalidation _ eq_refl).
Defined.
